(** * typed-sdk-builder: the request-function generator of [src/index.ts]

    A shallow embedding of the [SDKBuilder] class and the properties its
    specification states about it.

    Conventions of the embedding.
    - The code runs in a browser: [File], [Headers], [URL], [fetch] and
      [localStorage] follow the WHATWG standards.  What the class only
      calls (URL parsing, header bookkeeping, the regular-expression
      engine, [JSON.parse]) is either written out below, restricted as
      each definition says, or taken as a member of the [Platform]
      interface.
    - A JavaScript string is its UTF-8 byte sequence.
    - A JavaScript number is an integer that JavaScript prints with all
      its digits; [String(n)] is its decimal numeral.  Fractions, [NaN]
      and the infinities are not covered.
    - A value is a primitive, a [File], an [Error], an array or a plain
      object; an [HTMLFormElement] is not a value of the embedding, so
      [x instanceof HTMLFormElement] is [false] on every value.
    - An object is the list of its own enumerable properties in the order
      [Object.entries] lists them.  No property is read through the
      prototype chain but those [get_prop] writes out.  The class itself
      reads objects under [path], [method], [$params], [token],
      [access_token], [error], [message] and [name] only, none of which
      an object inherits; a statement about a read or a write under a
      key that is not fixed by the class is made for keys that are no
      member of [Object.prototype] ([__proto__], [constructor],
      [toString], ...; [inherited_name] lists them), and says so.
    - Every promise that is awaited settles. *)

From Stdlib Require Import String Ascii List ZArith Bool Lia DecimalString.
From stdpp Require Import base option list gmap strings.
Import ListNotations.

Local Open Scope string_scope.
Local Open Scope Z_scope.

(** ** Text primitives of the platform *)

Module Text.

(** [\w] of a regular expression without flags: [[A-Za-z0-9_]]. *)
Definition is_word_char (c : ascii) : bool :=
  let n := nat_of_ascii c in
  ((48 <=? n) && (n <=? 57) || (65 <=? n) && (n <=? 90)
   || (97 <=? n) && (n <=? 122) || (n =? 95))%nat.

Definition is_alnum (c : ascii) : bool :=
  let n := nat_of_ascii c in
  ((48 <=? n) && (n <=? 57) || (65 <=? n) && (n <=? 90)
   || (97 <=? n) && (n <=? 122))%nat.

Fixpoint mem_char (c : ascii) (s : string) : bool :=
  match s with
  | EmptyString => false
  | String d s' => Ascii.eqb c d || mem_char c s'
  end.

(** [s.startsWith(p)] *)
Fixpoint starts_with (p s : string) : bool :=
  match p, s with
  | EmptyString, _ => true
  | String a p', String b s' => Ascii.eqb a b && starts_with p' s'
  | String _ _, EmptyString => false
  end.

Fixpoint drop (n : nat) (s : string) : string :=
  match n, s with
  | O, _ => s
  | S n', String _ s' => drop n' s'
  | S _, EmptyString => EmptyString
  end.

(** [s.includes(needle)] *)
Fixpoint includes (needle s : string) : bool :=
  starts_with needle s
  || match s with
     | EmptyString => false
     | String _ s' => includes needle s'
     end.

(** [s.replace(needle, repl)] for a string [needle] and a replacement
    without [$]: the first occurrence only. *)
Fixpoint replace_first (needle repl s : string) : string :=
  if starts_with needle s then repl ++ drop (String.length needle) s
  else match s with
       | EmptyString => EmptyString
       | String c s' => String c (replace_first needle repl s')
       end.

(** [s.replace(new RegExp(needle, 'g'), repl)] when every character of
    the non-empty [needle] stands for itself in a pattern and [repl] has
    no [$]: every occurrence, left to right, without overlap.  [skip]
    counts the characters of a match still to be passed over. *)
Fixpoint replace_all_from (needle repl : string) (skip : nat) (s : string) : string :=
  match s with
  | EmptyString => EmptyString
  | String c s' =>
      match skip with
      | S k => replace_all_from needle repl k s'
      | O =>
          if starts_with needle s
          then repl ++ replace_all_from needle repl (String.length needle - 1) s'
          else String c (replace_all_from needle repl 0 s')
      end
  end.

Definition replace_all (needle repl s : string) : string :=
  replace_all_from needle repl 0 s.

(** [s.replace(/\/$/, "")] *)
Fixpoint strip_trailing_slash (s : string) : string :=
  match s with
  | EmptyString => EmptyString
  | String c EmptyString => if Ascii.eqb c "/" then EmptyString else s
  | String c s' => String c (strip_trailing_slash s')
  end.

(** [s.replace(/^\//, "")] *)
Definition strip_leading_slash (s : string) : string :=
  match s with
  | String c s' => if Ascii.eqb c "/" then s' else s
  | EmptyString => EmptyString
  end.

(** The longest run of word characters at the head of [s]. *)
Fixpoint take_word (s : string) : string :=
  match s with
  | EmptyString => EmptyString
  | String c s' => if is_word_char c then String c (take_word s') else EmptyString
  end.

(** [s.match(/:\w+/)]: the leftmost colon followed by a word character,
    with the whole word after it; [None] stands for [null]. *)
Fixpoint match_placeholder (s : string) : option string :=
  match s with
  | EmptyString => None
  | String c s' =>
      match Ascii.eqb c ":", take_word s' with
      | true, String w ws => Some (String ":" (String w ws))
      | _, _ => match_placeholder s'
      end
  end.

Definition hex_digit (n : nat) : ascii :=
  match n with
  | 0 => "0" | 1 => "1" | 2 => "2" | 3 => "3" | 4 => "4" | 5 => "5"
  | 6 => "6" | 7 => "7" | 8 => "8" | 9 => "9" | 10 => "A" | 11 => "B"
  | 12 => "C" | 13 => "D" | 14 => "E" | _ => "F"
  end%nat%char.

Definition percent_byte (c : ascii) : string :=
  let n := nat_of_ascii c in
  String "%" (String (hex_digit (n / 16)) (String (hex_digit (n mod 16)) EmptyString)).

(** Characters [encodeURIComponent] leaves alone. *)
Definition uri_unreserved (c : ascii) : bool :=
  is_alnum c || mem_char c "-_.!~*'()".

Fixpoint encodeURIComponent (s : string) : string :=
  match s with
  | EmptyString => EmptyString
  | String c s' =>
      (if uri_unreserved c then String c EmptyString else percent_byte c)
      ++ encodeURIComponent s'
  end.

Definition lower_char (c : ascii) : ascii :=
  let n := nat_of_ascii c in
  if ((65 <=? n) && (n <=? 90))%nat then ascii_of_nat (n + 32) else c.

Fixpoint to_lower (s : string) : string :=
  match s with
  | EmptyString => EmptyString
  | String c s' => String (lower_char c) (to_lower s')
  end.

(** Whether every character of [s] passes [test]. *)
Fixpoint all_chars (test : ascii -> bool) (s : string) : bool :=
  match s with
  | EmptyString => true
  | String c s' => test c && all_chars test s'
  end.

(** [String(n)] for an integer [n]. *)
Definition of_Z (n : Z) : string := NilEmpty.string_of_int (Z.to_int n).

Definition of_nat (n : nat) : string := of_Z (Z.of_nat n).

Fixpoint join (sep : string) (l : list string) : string :=
  match l with
  | [] => EmptyString
  | [x] => x
  | x :: rest => x ++ sep ++ join sep rest
  end.

End Text.

(** ** JavaScript values *)

#[local] Unset Elimination Schemes.
Inductive JsValue : Type :=
| VUndefined
| VNull
| VBool (b : bool)
| VNum (n : Z)
| VStr (s : string)
| VFile (name : string)              (* an instance of File *)
| VError (name message : string)     (* an Error or DOMException *)
| VArr (items : list JsValue)
| VObj (props : list (string * JsValue)).
#[local] Set Elimination Schemes.

(** What a statement leaves: a value, or a thrown exception. *)
Inductive Completion (A : Type) : Type :=
| Normal (a : A)
| Throw (e : JsValue).
Arguments Normal {A} a.
Arguments Throw {A} e.

(** What an awaited promise has settled to. *)
Inductive Promise (A : Type) : Type :=
| Fulfilled (a : A)
| Rejected (e : JsValue).
Arguments Fulfilled {A} a.
Arguments Rejected {A} e.

Definition typeof (v : JsValue) : string :=
  match v with
  | VUndefined => "undefined"
  | VBool _ => "boolean"
  | VNum _ => "number"
  | VStr _ => "string"
  | VNull | VFile _ | VError _ _ | VArr _ | VObj _ => "object"
  end.

(** [typeof v === 'object' && v !== null] *)
Definition is_object (v : JsValue) : bool :=
  match v with
  | VFile _ | VError _ _ | VArr _ | VObj _ => true
  | _ => false
  end.

(** [v instanceof File] *)
Definition instanceof_File (v : JsValue) : bool :=
  match v with VFile _ => true | _ => false end.

(** [Array.isArray(v)] *)
Definition isArray (v : JsValue) : bool :=
  match v with VArr _ => true | _ => false end.

(** [v === undefined || v === null] *)
Definition is_nullish (v : JsValue) : bool :=
  match v with VUndefined | VNull => true | _ => false end.

(** ToBoolean: what [if (v)], [!v], [v && w] and [v || w] test. *)
Definition truthy (v : JsValue) : bool :=
  match v with
  | VUndefined | VNull => false
  | VBool b => b
  | VNum n => negb (n =? 0)
  | VStr s => negb (String.eqb s "")
  | VFile _ | VError _ _ | VArr _ | VObj _ => true
  end.

(** [a || b] *)
Definition js_or (a b : JsValue) : JsValue := if truthy a then a else b.

(** [a ?? b] *)
Definition js_coalesce (a b : JsValue) : JsValue := if is_nullish a then b else a.

(** [v === 'text'] for a string literal. *)
Definition strict_eq_str (v : JsValue) (text : string) : bool :=
  match v with VStr s => String.eqb s text | _ => false end.

(** [String(v)] *)
Fixpoint ToString (v : JsValue) : string :=
  match v with
  | VUndefined => "undefined"
  | VNull => "null"
  | VBool true => "true"
  | VBool false => "false"
  | VNum n => Text.of_Z n
  | VStr s => s
  | VFile _ => "[object File]"
  | VError name message =>
      if String.eqb name "" then message
      else if String.eqb message "" then name
      else name ++ ": " ++ message
  | VArr items =>
      Text.join ","
        (map (fun x => match x with
                       | VUndefined | VNull => EmptyString
                       | _ => ToString x
                       end) items)
  | VObj _ => "[object Object]"
  end.

Definition lower_hex_digit (n : nat) : ascii :=
  match n with
  | 10 => "a" | 11 => "b" | 12 => "c" | 13 => "d" | 14 => "e" | 15 => "f"
  | _ => Text.hex_digit n
  end%nat%char.

Definition json_escape_char (c : ascii) : string :=
  let n := nat_of_ascii c in
  if (n =? 34)%nat then String "\" (String c EmptyString)
  else if (n =? 92)%nat then "\\"
  else if (n =? 8)%nat then "\b"
  else if (n =? 9)%nat then "\t"
  else if (n =? 10)%nat then "\n"
  else if (n =? 12)%nat then "\f"
  else if (n =? 13)%nat then "\r"
  else if (n <? 32)%nat
       then "\u00" ++ String (lower_hex_digit (n / 16)) (String (lower_hex_digit (n mod 16)) EmptyString)
  else String c EmptyString.

Fixpoint json_escape (s : string) : string :=
  match s with
  | EmptyString => EmptyString
  | String c s' => json_escape_char c ++ json_escape s'
  end.

Definition dquote : string := String (ascii_of_nat 34) EmptyString.

Definition json_quote (s : string) : string := dquote ++ json_escape s ++ dquote.

(** [JSON.stringify(v)]; [None] is the [undefined] it returns for
    [undefined].  A [File] and an [Error] have no own enumerable property
    and serialize as an empty object. *)
Fixpoint JSON_stringify (v : JsValue) : option string :=
  match v with
  | VUndefined => None
  | VNull => Some "null"
  | VBool true => Some "true"
  | VBool false => Some "false"
  | VNum n => Some (Text.of_Z n)
  | VStr s => Some (json_quote s)
  | VFile _ | VError _ _ => Some "{}"
  | VArr items =>
      Some ("[" ++ Text.join ","
                     (map (fun x => match JSON_stringify x with
                                    | Some t => t
                                    | None => "null"
                                    end) items) ++ "]")
  | VObj props =>
      Some ("{" ++ Text.join ","
                     (flat_map (fun kv => match JSON_stringify (snd kv) with
                                          | Some t => [json_quote (fst kv) ++ ":" ++ t]
                                          | None => []
                                          end) props) ++ "}")
  end.

Definition TypeError (message : string) : JsValue := VError "TypeError" message.

(** Association lists standing for property tables. *)
Section Props.
Context {A : Type}.

Fixpoint prop_lookup (key : string) (props : list (string * A)) : option A :=
  match props with
  | [] => None
  | (k, v) :: rest => if String.eqb k key then Some v else prop_lookup key rest
  end.

(** [obj[key] = v]: an existing property keeps its place. *)
Fixpoint prop_set (key : string) (v : A) (props : list (string * A)) : list (string * A) :=
  match props with
  | [] => [(key, v)]
  | (k, w) :: rest =>
      if String.eqb k key then (k, v) :: rest else (k, w) :: prop_set key v rest
  end.

(** [delete obj[key]] *)
Fixpoint prop_delete (key : string) (props : list (string * A)) : list (string * A) :=
  match props with
  | [] => []
  | (k, w) :: rest =>
      if String.eqb k key then prop_delete key rest else (k, w) :: prop_delete key rest
  end.

(** The entries [Object.entries] lists for an array: index keys. *)
Fixpoint indexed (i : nat) (items : list A) : list (string * A) :=
  match items with
  | [] => []
  | x :: rest => (Text.of_nat i, x) :: indexed (S i) rest
  end.
End Props.

Fixpoint chars (s : string) : list JsValue :=
  match s with
  | EmptyString => []
  | String c s' => VStr (String c EmptyString) :: chars s'
  end.

(** The property read [v.key] (or [v[key]]).  Of the inherited
    properties only those the class can meet are written out: [name] of
    a File, [name] and [message] of an Error, [length] and the indices of
    an array or string (of a string of ASCII characters: bytes are
    counted).  Reading a property of [undefined] or [null] throws.

    Restriction: the members of [Object.prototype] are not written out.
    Under a key that [inherited_name] lists and that is no own property
    the platform gives the inherited member where this gives
    [undefined]; the reads of the class are under [path], [method],
    [$params], [token], [access_token], [error], [message] and [name],
    which are no such names, and the statements below about a read
    under a key of the caller's choice assume [inherited_name key =
    false]. *)
Definition get_prop (v : JsValue) (key : string) : Completion JsValue :=
  match v with
  | VUndefined =>
      Throw (TypeError ("Cannot read properties of undefined (reading '" ++ key ++ "')"))
  | VNull =>
      Throw (TypeError ("Cannot read properties of null (reading '" ++ key ++ "')"))
  | VBool _ | VNum _ => Normal VUndefined
  | VStr s =>
      if String.eqb key "length" then Normal (VNum (Z.of_nat (String.length s)))
      else Normal (default VUndefined (prop_lookup key (indexed 0 (chars s))))
  | VFile name =>
      if String.eqb key "name" then Normal (VStr name) else Normal VUndefined
  | VError name message =>
      if String.eqb key "name" then Normal (VStr name)
      else if String.eqb key "message" then Normal (VStr message)
      else Normal VUndefined
  | VArr items =>
      if String.eqb key "length" then Normal (VNum (Z.of_nat (length items)))
      else Normal (default VUndefined (prop_lookup key (indexed 0 items)))
  | VObj props => Normal (default VUndefined (prop_lookup key props))
  end.

(** The optional read [v?.key] *)
Definition get_prop_opt (v : JsValue) (key : string) : JsValue :=
  match get_prop v key with
  | Normal w => w
  | Throw _ => VUndefined
  end.

(** [Object.entries(v)] *)
Definition Object_entries (v : JsValue) : Completion (list (string * JsValue)) :=
  match v with
  | VUndefined | VNull => Throw (TypeError "Cannot convert undefined or null to object")
  | VBool _ | VNum _ | VFile _ | VError _ _ => Normal []
  | VStr s => Normal (indexed 0 (chars s))
  | VArr items => Normal (indexed 0 items)
  | VObj props => Normal props
  end.

(** The entries of a value already known to be an object. *)
Definition own_entries (v : JsValue) : list (string * JsValue) :=
  match Object_entries v with
  | Normal entries => entries
  | Throw _ => []
  end.

(** [{ ...v }] for an object [v]. *)
Definition spread (v : JsValue) : list (string * JsValue) := own_entries v.

(** Running a callback over the entries of an object, in the shape the
    recursive walkers need: the callback meets each value as a part of
    the object it was found in. *)
Section ForEach.
Context {St : Type} (f : string -> JsValue -> St -> St).

Fixpoint forEach_props (props : list (string * JsValue)) (s : St) : St :=
  match props with
  | [] => s
  | (key, value) :: rest => forEach_props rest (f key value s)
  end.

Fixpoint forEach_items (index : nat) (items : list JsValue) (s : St) : St :=
  match items with
  | [] => s
  | value :: rest => forEach_items (S index) rest (f (Text.of_nat index) value s)
  end.
End ForEach.

(** ** Platform objects: URL, Headers, FormData *)

(** A parsed URL with a special scheme ([http], [https]).
    [url_authority] is the serialization up to the path: scheme, [://],
    host and port. *)
Record URL : Type := mkURL {
  url_authority : string;
  url_pathname : string;
  url_search : string;     (* empty, or [?] and the query *)
  url_hash : string        (* empty, or [#] and the fragment *)
}.

Module WebURL.

Definition is_path_sep (c : ascii) : bool := Ascii.eqb c "/" || Ascii.eqb c "\".

Definition is_tab_or_newline (c : ascii) : bool :=
  let n := nat_of_ascii c in ((n =? 9) || (n =? 10) || (n =? 13))%nat.

Fixpoint remove_tab_newline (s : string) : string :=
  match s with
  | EmptyString => EmptyString
  | String c s' =>
      if is_tab_or_newline c then remove_tab_newline s'
      else String c (remove_tab_newline s')
  end.

(** The path percent-encode set: C0 controls, everything above [~],
    space, the double quote and [# < > ? ^ ` { }]. *)
Definition in_path_encode_set (c : ascii) : bool :=
  let n := nat_of_ascii c in
  ((n <? 32) || (126 <? n) || (n =? 32) || (n =? 34) || (n =? 35) || (n =? 60)
   || (n =? 62) || (n =? 63) || (n =? 94) || (n =? 96) || (n =? 123) || (n =? 125))%nat.

Fixpoint path_encode (s : string) : string :=
  match s with
  | EmptyString => EmptyString
  | String c s' =>
      (if in_path_encode_set c then Text.percent_byte c else String c EmptyString)
      ++ path_encode s'
  end.

Definition is_single_dot (seg : string) : bool :=
  let l := Text.to_lower seg in String.eqb l "." || String.eqb l "%2e".

Definition is_double_dot (seg : string) : bool :=
  let l := Text.to_lower seg in
  String.eqb l ".." || String.eqb l ".%2e" || String.eqb l "%2e." || String.eqb l "%2e%2e".

(** The pieces between path separators; never an empty list. *)
Fixpoint path_segments (s : string) : list string :=
  match s with
  | EmptyString => [EmptyString]
  | String c s' =>
      if is_path_sep c then EmptyString :: path_segments s'
      else match path_segments s' with
           | seg :: rest => String c seg :: rest
           | [] => [String c EmptyString]
           end
  end.

(** The path state of the URL parser, one segment at a time. *)
Fixpoint normalize_segments (segs : list string) (path : list string) : list string :=
  match segs with
  | [] => path
  | seg :: rest =>
      let last := match rest with [] => true | _ :: _ => false end in
      if is_double_dot seg
      then normalize_segments rest
             (if last then removelast path ++ [EmptyString] else removelast path)
      else if is_single_dot seg
      then normalize_segments rest (if last then path ++ [EmptyString] else path)
      else normalize_segments rest (path ++ [path_encode seg])
  end.

(** The path a special URL ends up with when [value] is parsed as one. *)
Definition parse_path (value : string) : string :=
  let v := remove_tab_newline value in
  let v := match v with
           | String c v' => if is_path_sep c then v' else v
           | EmptyString => v
           end in
  Text.join EmptyString
    (map (fun seg => String "/" seg) (normalize_segments (path_segments v) [])).

(** [url.pathname = value] *)
Definition set_pathname (value : string) (u : URL) : URL :=
  mkURL (url_authority u) (parse_path value) (url_search u) (url_hash u).

(** [url.href], also [url.toString()] *)
Definition href (u : URL) : string :=
  url_authority u ++ url_pathname u ++ url_search u ++ url_hash u.

(** *** application/x-www-form-urlencoded *)

Definition form_unreserved (c : ascii) : bool :=
  Text.is_alnum c || Text.mem_char c "*-._".

Fixpoint form_encode (s : string) : string :=
  match s with
  | EmptyString => EmptyString
  | String c s' =>
      (if form_unreserved c then String c EmptyString
       else if Ascii.eqb c " " then "+"
       else Text.percent_byte c) ++ form_encode s'
  end.

Definition form_serialize (pairs : list (string * string)) : string :=
  Text.join "&" (map (fun kv => form_encode (fst kv) ++ "=" ++ form_encode (snd kv)) pairs).

Definition hex_value (c : ascii) : option nat :=
  let n := nat_of_ascii c in
  if ((48 <=? n) && (n <=? 57))%nat then Some (n - 48)%nat
  else if ((65 <=? n) && (n <=? 70))%nat then Some (n - 55)%nat
  else if ((97 <=? n) && (n <=? 102))%nat then Some (n - 87)%nat
  else None.

Fixpoint percent_decode (s : string) : string :=
  match s with
  | EmptyString => EmptyString
  | String c s' =>
      match Ascii.eqb c "%", s' with
      | true, String a (String b rest) =>
          match hex_value a, hex_value b with
          | Some x, Some y => String (ascii_of_nat (16 * x + y)) (percent_decode rest)
          | _, _ => String c (percent_decode s')
          end
      | _, _ => String c (percent_decode s')
      end
  end.

Fixpoint plus_to_space (s : string) : string :=
  match s with
  | EmptyString => EmptyString
  | String c s' => String (if Ascii.eqb c "+" then " "%char else c) (plus_to_space s')
  end.

(** The pieces of [s] between occurrences of [sep]. *)
Fixpoint split_on (sep : ascii) (s : string) : list string :=
  match s with
  | EmptyString => [EmptyString]
  | String c s' =>
      if Ascii.eqb c sep then EmptyString :: split_on sep s'
      else match split_on sep s' with
           | piece :: rest => String c piece :: rest
           | [] => [String c EmptyString]
           end
  end.

(** [s] cut at its first [sep]. *)
Fixpoint cut_at (sep : ascii) (s : string) : string * string :=
  match s with
  | EmptyString => (EmptyString, EmptyString)
  | String c s' =>
      if Ascii.eqb c sep then (EmptyString, s')
      else let (l, r) := cut_at sep s' in (String c l, r)
  end.

Definition form_parse (query : string) : list (string * string) :=
  flat_map (fun piece =>
              if String.eqb piece "" then []
              else let (k, v) := cut_at "=" piece in
                   [(percent_decode (plus_to_space k), percent_decode (plus_to_space v))])
           (split_on "&" query).

(** The list behind [url.searchParams]. *)
Definition searchParams (u : URL) : list (string * string) :=
  form_parse (Text.drop 1 (url_search u)).

(** [url.searchParams.append(key, value)] *)
Definition searchParams_append (key value : string) (u : URL) : URL :=
  mkURL (url_authority u) (url_pathname u)
        ("?" ++ form_serialize (searchParams u ++ [(key, value)]))
        (url_hash u).

End WebURL.

(** [Headers]: the list of a [Headers] object, names in lower case.  A
    name is a token and a value a byte string without leading or
    trailing whitespace and without NUL, CR or LF; the platform refuses
    anything else with a TypeError. *)
Definition Headers : Type := list (string * string).

Module WebHeaders.

(** HTTP whitespace: tab, line feed, carriage return and space. *)
Definition is_whitespace (c : ascii) : bool :=
  let n := nat_of_ascii c in ((n =? 9) || (n =? 10) || (n =? 13) || (n =? 32))%nat.

Fixpoint strip_leading (s : string) : string :=
  match s with
  | EmptyString => EmptyString
  | String c s' => if is_whitespace c then strip_leading s' else s
  end.

Fixpoint strip_trailing (s : string) : string :=
  match s with
  | EmptyString => EmptyString
  | String c s' =>
      match strip_trailing s' with
      | EmptyString => if is_whitespace c then EmptyString else String c EmptyString
      | rest => String c rest
      end
  end.

(** A value without its leading and trailing whitespace. *)
Definition normalize (value : string) : string := strip_trailing (strip_leading value).

(** The byte string a JavaScript string converts to: a byte for each
    character, which must be below U+0100; [None] stands for the
    TypeError of the conversion.  In the text of the embedding a
    character from U+0080 to U+00FF is two bytes, C2 or C3 and a
    continuation byte. *)
Fixpoint byte_string (s : string) : option string :=
  match s with
  | EmptyString => Some EmptyString
  | String c s' =>
      let n := nat_of_ascii c in
      if (n <? 128)%nat then option_map (String c) (byte_string s')
      else
        match s' with
        | String d s'' =>
            let m := nat_of_ascii d in
            if (((n =? 194) || (n =? 195)) && (128 <=? m) && (m <=? 191))%nat
            then option_map
                   (String (ascii_of_nat (if (n =? 194)%nat then m else m + 64)))
                   (byte_string s'')
            else None
        | EmptyString => None
        end
  end.

(** The characters of a token. *)
Definition is_token_char (c : ascii) : bool :=
  Text.is_alnum c || Text.mem_char c "!#$%&'*+-.^_`|~".

Definition valid_name (name : string) : bool :=
  negb (String.eqb name "") && Text.all_chars is_token_char name.

(** A normalized value is valid when it holds no NUL, LF or CR. *)
Definition valid_value (value : string) : bool :=
  Text.all_chars (fun c => let n := nat_of_ascii c in
                           negb ((n =? 0) || (n =? 10) || (n =? 13))%nat) value.

(** Whether the platform accepts a name and a value, in [new Headers],
    [set] and [append]. *)
Definition accepts (name value : string) : bool :=
  valid_name name
  && match byte_string value with
     | Some bytes => valid_value (normalize bytes)
     | None => false
     end.

(** The value a header gets from an accepted string: its bytes,
    normalized. *)
Definition stored (value : string) : string :=
  normalize (default value (byte_string value)).

(** [h.get(name)] for a valid name. *)
Definition get (name : string) (h : Headers) : option string :=
  prop_lookup (Text.to_lower name) h.

(** What [h.set(name, value)] leaves of the list when the pair is
    accepted. *)
Definition set (name value : string) (h : Headers) : Headers :=
  prop_set (Text.to_lower name) (stored value) h.

(** What [h.append(name, value)] leaves of the list when the pair is
    accepted. *)
Definition append (name value : string) (h : Headers) : Headers :=
  match get name h with
  | Some old => prop_set (Text.to_lower name) (old ++ ", " ++ stored value) h
  | None => (h ++ [(Text.to_lower name, stored value)])%list
  end.

(** The list of [new Headers(record)] when every pair is accepted. *)
Definition of_record (record : list (string * string)) : Headers :=
  fold_left (fun h kv => append (fst kv) (snd kv) h) record [].

(** [h.set(name, value)] *)
Definition checked_set (name value : string) (h : Headers) : Completion Headers :=
  if accepts name value then Normal (set name value h)
  else Throw (TypeError "Failed to execute 'set' on 'Headers': Invalid name or value").

(** [new Headers(record)] *)
Definition create (record : list (string * string)) : Completion Headers :=
  if forallb (fun kv => accepts (fst kv) (snd kv)) record
  then Normal (of_record record)
  else Throw (TypeError "Failed to construct 'Headers': Invalid name or value").

End WebHeaders.

(** One part of a [FormData] body. *)
Inductive FormEntry : Type :=
| FText (text : string)
| FFile (name : string).

Definition FormData : Type := list (string * FormEntry).

(** The [body] handed to [fetch]. *)
Inductive Body : Type :=
| BodyNone                       (* [undefined] *)
| BodyText (text : string)
| BodyForm (form : FormData).

(** ** What the class takes from the platform without looking inside *)

Class Platform : Type := {
  (** [new URL(text)]; [None] when the constructor throws. *)
  URL_parse : string -> option URL;
  (** [JSON.parse(text)]; [None] when it throws. *)
  JSON_parse : string -> option JsValue;
  (** [subject.replace(new RegExp(pattern, 'g'), replacement)] for a
      pattern that has a metacharacter, or the error the constructor
      throws for it. *)
  RegExp_replace_all : string -> string -> string -> Completion string
}.

(** ** Requests, responses and the trace of a call *)

(** The arguments of the one [fetch] a call makes. *)
Record Request : Type := mkRequest {
  req_url : string;            (* [url.href] *)
  req_method : string;
  req_headers : Headers;
  req_body : Body;
  req_timeout : Z;             (* the delay given to [AbortSignal.timeout] *)
  req_credentials : string
}.

(** What the class reads from the [Response] that [fetch] resolves to. *)
Record Response : Type := mkResponse {
  resp_status : Z;
  resp_content_type : option string;   (* [headers.get('content-type')] *)
  resp_has_body : bool;                (* [body] is not [null] *)
  resp_json : Promise JsValue;         (* what [json()] settles to *)
  resp_text : Promise string           (* what [text()] settles to *)
}.

(** [response.ok]: the status is in the range 200 to 299. *)
Definition resp_ok (r : Response) : bool :=
  (200 <=? resp_status r) && (resp_status r <=? 299).

(** [CustomApiResponse] *)
Record CustomApiResponse : Type := mkEnvelope {
  success : bool;
  ok : bool;
  response : JsValue;
  status : Z
}.

(** What a call of [onInvalidCredential] returns: something that is not
    a promise, or a promise, given by what it settles to. *)
Inductive Returned : Type :=
| RetPlain
| RetPromise (settled : Promise unit).

(** One run of the [onInvalidCredential] callback on the envelope object
    it is handed: the envelope as the callback leaves it, and how the
    callback completes. *)
Record CallbackRun : Type := mkCallbackRun {
  cb_envelope : CustomApiResponse;
  cb_completion : Completion Returned
}.

(** What surrounds one call: the storage [session] reads ([None] when
    [localStorage] is not defined) and the transport behind [fetch]. *)
Record World : Type := mkWorld {
  localStorage : option (list (string * string));
  transport : Request -> Promise Response
}.

(** What a call does that is visible from outside, in program order. *)
Inductive Event : Type :=
| EvWarn (message : string)                         (* [console.warn] *)
| EvError (message : string) (error : JsValue)      (* [console.error] *)
| EvSession (snapshot : JsValue)                    (* [await this.session()] *)
| EvFetch (request : Request)                       (* [fetch] is called *)
| EvReadBody (json : bool)                          (* [json()] or [text()] is awaited *)
| EvCallback (envelope : CustomApiResponse)         (* [onInvalidCredential] is called *)
| EvAwaitCallback (returned : Returned).            (* and what it returned is awaited *)

(** A computation of the class: the events it caused and its completion. *)
Record Eff (A : Type) : Type := mkEff {
  trace : list Event;
  outcome : Completion A
}.
Arguments mkEff {A} trace outcome.
Arguments trace {A} e.
Arguments outcome {A} e.

Definition eff_bind {A B : Type} (m : Eff A) (k : A -> Eff B) : Eff B :=
  match outcome m with
  | Normal a => mkEff (trace m ++ trace (k a)) (outcome (k a))
  | Throw e => mkEff (trace m) (Throw e)
  end.

#[global] Instance Eff_ret : MRet Eff := fun A a => mkEff [] (Normal a).
#[global] Instance Eff_bind : MBind Eff := fun A B k m => eff_bind m k.

Definition emit (ev : Event) : Eff unit := mkEff [ev] (Normal tt).

Definition throw {A : Type} (e : JsValue) : Eff A := mkEff [] (Throw e).

Definition lift {A : Type} (c : Completion A) : Eff A := mkEff [] c.

(** [try { m } catch (error) { handler }] *)
Definition try_catch {A : Type} (m : Eff A) (handler : JsValue -> Eff A) : Eff A :=
  match outcome m with
  | Normal a => m
  | Throw e => mkEff (trace m ++ trace (handler e)) (outcome (handler e))
  end.

(** [await p] *)
Definition await {A : Type} (p : Promise A) : Eff A :=
  match p with
  | Fulfilled a => mret a
  | Rejected e => throw e
  end.

(** [p.catch(() => fallback)] *)
Definition promise_catch {A : Type} (p : Promise A) (fallback : A) : Promise A :=
  match p with
  | Fulfilled a => Fulfilled a
  | Rejected _ => Fulfilled fallback
  end.

(** The call of an [async] function: it completes normally with a
    promise, rejected when the body throws. *)
Definition async {A : Type} (body : Eff A) : Eff (Promise A) :=
  mkEff (trace body)
        (Normal (match outcome body with
                 | Normal a => Fulfilled a
                 | Throw e => Rejected e
                 end)).

(** ** The class [SDKBuilder] *)

(** [EndpointConfig]; at run time [method] is whatever string the
    configuration holds. *)
Record EndpointConfig : Type := mkEndpoint {
  path : string;
  method : string
}.

(** A node of [this.fetch]: an object with its own members, which is
    also a generated function when [call] holds the endpoint and the
    debug path the function was generated for. *)
#[local] Unset Elimination Schemes.
Inductive ClientNode : Type :=
| Node (call : option (EndpointConfig * string)) (members : list (string * ClientNode)).
#[local] Set Elimination Schemes.

Definition node_call (n : ClientNode) : option (EndpointConfig * string) :=
  match n with Node c _ => c end.

Definition node_members (n : ClientNode) : list (string * ClientNode) :=
  match n with Node _ ms => ms end.

(** [{}] *)
Definition empty_object : ClientNode := Node None [].

(** [branch[key] = child] *)
Definition node_set (key : string) (child : ClientNode) (branch : ClientNode) : ClientNode :=
  match branch with Node c ms => Node c (prop_set key child ms) end.

(** [branch[key]], own members only. *)
Definition node_get (key : string) (branch : ClientNode) : option ClientNode :=
  prop_lookup key (node_members branch).

(** [SDKBuilderConfig] *)
Record SDKBuilderConfig : Type := mkConfig {
  base : string;
  endpoints : JsValue;
  config_onInvalidCredential : option (CustomApiResponse -> CallbackRun);
  config_defaultHeaders : option (list (string * string));
  config_requestTimeout : option Z
}.

(** The fields of an instance. *)
Record SDKBuilder : Type := mkSDK {
  baseUrl : URL;
  onInvalidCredential : CustomApiResponse -> CallbackRun;
  defaultHeaders : list (string * string);
  requestTimeout : Z;
  fetch : ClientNode
}.

Definition is_undefined (v : JsValue) : bool :=
  match v with VUndefined => true | _ => false end.

(** Characters that stand for themselves in a regular expression. *)
Definition regexp_literal_char (c : ascii) : bool :=
  negb (Text.mem_char c "\^$.|?*+()[]{}").

Fixpoint regexp_literal (pattern : string) : bool :=
  match pattern with
  | EmptyString => true
  | String c rest => regexp_literal_char c && regexp_literal rest
  end.

(** What [_prepareRequestBodyAndHeaders] returns, with the [url] it
    appended query parameters to. *)
Record Prepared : Type := mkPrepared {
  prep_url : URL;
  prep_body : Body;
  prep_headers : list (string * string)
}.

Section Class.
Context `{Platform}.

(** [_isActualEndpointConfig] *)
Definition _isActualEndpointConfig (config : JsValue) : Eff bool :=
  p ← lift (get_prop config "path");
  if String.eqb (typeof p) "string"
  then m ← lift (get_prop config "method");
       mret (String.eqb (typeof m) "string")
  else mret false.

(** The endpoint a generated function closes over. *)
Definition endpoint_of (config : JsValue) : EndpointConfig :=
  mkEndpoint (ToString (get_prop_opt config "path"))
             (ToString (get_prop_opt config "method")).

(** The body of the [forEach] callback in [_initializeEndpoints];
    [descend] is the recursive call on [configValue]. *)
Definition visitEndpoint (descend : ClientNode -> string -> Eff ClientNode)
    (parentKeyPath key : string) (configValue : JsValue)
    (currentObjectBranch : ClientNode) : Eff ClientNode :=
  let currentPath :=
    if String.eqb parentKeyPath "" then key else parentKeyPath ++ "." ++ key in
  isEndpoint ← _isActualEndpointConfig configValue;
  if isEndpoint : bool
  then mret (node_set key (Node (Some (endpoint_of configValue, currentPath)) [])
                      currentObjectBranch)
  else if is_object configValue
  then let child := default empty_object (node_get key currentObjectBranch) in
       child' ← descend child currentPath;
       mret (node_set key child' currentObjectBranch)
  else _ ← emit (EvWarn ("[SDKBuilder] Invalid configuration for endpoint key: "
                           ++ currentPath ++ ". Expected an object or EndpointConfig."));
       mret currentObjectBranch.

(** [_initializeEndpoints] *)
Fixpoint _initializeEndpoints (endpointsConfig : JsValue)
    (currentObjectBranch : ClientNode) (parentKeyPath : string)
    {struct endpointsConfig} : Eff ClientNode :=
  match endpointsConfig with
  | VObj props =>
      forEach_props
        (fun key configValue acc =>
           branch ← acc;
           visitEndpoint (_initializeEndpoints configValue) parentKeyPath key configValue branch)
        props (mret currentObjectBranch)
  | VArr items =>
      forEach_items
        (fun key configValue acc =>
           branch ← acc;
           visitEndpoint (_initializeEndpoints configValue) parentKeyPath key configValue branch)
        0 items (mret currentObjectBranch)
  | VStr s =>
      (* the entries of a string are its characters: never descended into *)
      forEach_items
        (fun key configValue acc =>
           branch ← acc;
           visitEndpoint (fun child _ => mret child) parentKeyPath key configValue branch)
        0 (chars s) (mret currentObjectBranch)
  | VUndefined | VNull => throw (TypeError "Cannot convert undefined or null to object")
  | VBool _ | VNum _ | VFile _ | VError _ _ => mret currentObjectBranch
  end.

(** [constructor] *)
Definition constructor (config : SDKBuilderConfig) : Eff SDKBuilder :=
  if String.eqb (base config) ""
  then throw (VError "Error" "[SDKBuilder] 'base' URL configuration is required.")
  else
    match URL_parse (base config) with
    | None => throw (TypeError "Invalid URL")
    | Some parsed =>
        let callback :=
          default (fun result => mkCallbackRun result (Normal (RetPromise (Fulfilled tt))))
                  (config_onInvalidCredential config) in
        let headers :=
          default [("Accept", "application/json")] (config_defaultHeaders config) in
        let headers :=
          if String.eqb (default EmptyString (prop_lookup "Accept" headers)) ""
          then prop_set "Accept" "application/json" headers
          else headers in
        let timeout :=
          match config_requestTimeout config with
          | Some t => if t =? 0 then 30000 else t
          | None => 30000
          end in
        client ← _initializeEndpoints (endpoints config) empty_object EmptyString;
        mret (mkSDK parsed callback headers timeout client)
    end.

(** The first block of the generated function: which argument is the
    source of path parameters and which the payload. *)
Definition resolveArguments (idOrParamsPayload directPayload : JsValue)
    : Eff (JsValue * JsValue) :=
  if negb (is_undefined directPayload)
  then mret (idOrParamsPayload, directPayload)
  else if is_object idOrParamsPayload
  then
    let singleArgObject := spread idOrParamsPayload in
    let params := default VUndefined (prop_lookup "$params" singleArgObject) in
    if truthy params && String.eqb (typeof params) "object"
    then
      _ ← forEach_props
            (fun key value acc =>
               _ ← acc;
               if is_object value
               then throw (VError "Error"
                      ("Path parameter '" ++ key
                       ++ "' in $params cannot be an object. Received: "
                       ++ default EmptyString (JSON_stringify value)))
               else mret tt)
            (own_entries params) (mret tt);
      mret (params, VObj (prop_delete "$params" singleArgObject))
    else mret (VUndefined, VObj singleArgObject)
  else mret (idOrParamsPayload, VUndefined).

(** The replacement of placeholders in [_buildUrl]. *)
Definition substitutePath (tempPath : string) (pathParamsSource : JsValue) : Eff string :=
  if negb (is_nullish pathParamsSource)
  then
    match pathParamsSource with
    | VStr _ | VNum _ =>
        match Text.match_placeholder tempPath with
        | Some singleParamMatch =>
            mret (Text.replace_first singleParamMatch
                    (Text.encodeURIComponent (ToString pathParamsSource)) tempPath)
        | None => mret tempPath
        end
    | _ =>
        if String.eqb (typeof pathParamsSource) "object"
        then
          forEach_props
            (fun key value acc =>
               tempPath ← acc;
               let placeholder := ":" ++ key in
               let text := Text.encodeURIComponent (ToString (js_coalesce value (VStr ""))) in
               if Text.includes placeholder tempPath
               then if regexp_literal placeholder
                    then mret (Text.replace_all placeholder text tempPath)
                    else lift (RegExp_replace_all placeholder tempPath text)
               else mret tempPath)
            (own_entries pathParamsSource) (mret tempPath)
        else mret tempPath
    end
  else mret tempPath.

(** [_buildUrl] *)
Definition _buildUrl (this : SDKBuilder) (endpointConfig : EndpointConfig)
    (pathParamsSource : JsValue) : Eff URL :=
  let url := baseUrl this in
  let baseP := Text.strip_trailing_slash (url_pathname (baseUrl this)) in
  let endpointP := Text.strip_leading_slash (path endpointConfig) in
  let url := WebURL.set_pathname (baseP ++ "/" ++ endpointP) url in
  tempPath ← substitutePath (url_pathname url) pathParamsSource;
  mret (WebURL.set_pathname tempPath url).

(** [_createFormDataFromObject].  The class calls it on objects only:
    on a payload whose [typeof] is ['object'], and from itself on values
    and items that passed the same test; on anything else the form is
    returned as it came. *)
Fixpoint _createFormDataFromObject (obj : JsValue) (formData : FormData)
    (parentKey : option string) {struct obj} : FormData :=
  let each := fun (key : string) (value : JsValue) (formData : FormData) =>
    let currentKey :=
      match parentKey with
      | Some parent =>
          if String.eqb parent "" then key else parent ++ "[" ++ key ++ "]"
      | None => key
      end in
    match value with
    | VFile name => (formData ++ [(currentKey, FFile name)])%list
    | VArr items =>
        forEach_items
          (fun index item formData =>
             let arrayKey := currentKey ++ "[" ++ index ++ "]" in
             if is_object item && negb (instanceof_File item)
             then _createFormDataFromObject item formData (Some arrayKey)
             else if negb (is_nullish item)
             then (formData
                   ++ [(arrayKey, match item with
                                  | VFile name => FFile name
                                  | _ => FText (ToString item)
                                  end)])%list
             else formData)
          0 items formData
    | VObj _ | VError _ _ => _createFormDataFromObject value formData (Some currentKey)
    | VUndefined | VNull => formData
    | VBool _ | VNum _ | VStr _ => (formData ++ [(currentKey, FText (ToString value))])%list
    end in
  match obj with
  | VObj props => forEach_props each props formData
  | VArr items => forEach_items each 0 items formData
  | _ => formData
  end.

(** The query parameters a GET or DELETE payload adds, in the order of
    the [append] calls. *)
Definition appendQuery (payloadSource : JsValue) (url : URL) : URL :=
  forEach_props
    (fun key val url =>
       if negb (is_nullish val)
       then match val with
            | VArr items =>
                fold_left
                  (fun url vItem =>
                     match vItem with
                     | VNull => url
                     | _ => WebURL.searchParams_append key (ToString vItem) url
                     end)
                  items url
            | _ => WebURL.searchParams_append key (ToString val) url
            end
       else url)
    (own_entries payloadSource) url.

(** [hasFiles] of [_prepareRequestBodyAndHeaders] *)
Definition hasFiles (payloadSource : JsValue) : bool :=
  existsb
    (fun value =>
       instanceof_File value
       || match value with
          | VArr items => existsb instanceof_File items
          | _ => false
          end)
    (map snd (own_entries payloadSource)).

(** [_prepareRequestBodyAndHeaders] *)
Definition _prepareRequestBodyAndHeaders (method : string) (url : URL)
    (payloadSource : JsValue) : Prepared :=
  if negb (truthy payloadSource)
  then mkPrepared url BodyNone []
  else if String.eqb method "GET" || String.eqb method "DELETE"
  then
    if String.eqb (typeof payloadSource) "object"
    then mkPrepared (appendQuery payloadSource url) BodyNone []
    else mkPrepared url BodyNone []
  else if String.eqb (typeof payloadSource) "object"
  then
    if hasFiles payloadSource
    then mkPrepared url (BodyForm (_createFormDataFromObject payloadSource [] None)) []
    else mkPrepared url
           match JSON_stringify payloadSource with
           | Some text => BodyText text
           | None => BodyNone
           end
           [("Content-Type", "application/json")]
  else
    match payloadSource with
    | VStr text =>
        mkPrepared url (BodyText text)
          match JSON_parse text with
          | Some _ => [("Content-Type", "application/json")]
          | None => []
          end
    | _ => mkPrepared url BodyNone []
    end.

(** [session].  An item named [__proto__] does not become a property
    of the snapshot: that assignment goes to the setter every object
    inherits, which replaces the prototype of the snapshot when the
    value is an object or [null] and does nothing otherwise.

    Restriction: a replaced prototype is not part of a value of the
    embedding.  The snapshot is the object the code builds unless the
    storage has an item named [__proto__] whose text is JSON for an
    object, an array or [null]; the statements below about what the
    snapshot holds assume a storage without an item of an inherited name
    ([plain_storage]). *)
Definition session (w : World) : Eff JsValue :=
  match localStorage w with
  | None => mret (VObj [])
  | Some storage =>
      let sessionData :=
        fold_left
          (fun sessionData entry =>
             let key := fst entry in
             match prop_lookup key storage with      (* [getItem(key)] *)
             | Some item =>
                 if String.eqb key "__proto__" then sessionData
                 else
                   prop_set key
                     match JSON_parse item with
                     | Some parsed => parsed
                     | None => VStr item
                     end
                     sessionData
             | None => sessionData
             end)
          storage [] in
      mret (VObj sessionData)
  end.

(** The snapshot [session] resolves to. *)
Definition snapshot (w : World) : JsValue :=
  match outcome (session w) with
  | Normal sessionData => sessionData
  | Throw _ => VUndefined
  end.

(** The token the generated function looks for in the session. *)
Definition sessionToken (sessionData : JsValue) : JsValue :=
  js_or (get_prop_opt sessionData "token") (get_prop_opt sessionData "access_token").

(** [requestSpecificHeaders] written over the default headers, one
    [set] after the other. *)
Definition setAll (entries : list (string * string)) (requestHeaders : Headers)
    : Completion Headers :=
  fold_left
    (fun acc nv =>
       match acc with
       | Normal h => WebHeaders.checked_set (fst nv) (snd nv) h
       | Throw e => Throw e
       end)
    entries (Normal requestHeaders).

(** The headers a call has before it reads the session. *)
Definition headersBefore (this : SDKBuilder)
    (requestSpecificHeaders : list (string * string)) : Completion Headers :=
  match WebHeaders.create (defaultHeaders this) with
  | Normal requestHeaders => setAll requestSpecificHeaders requestHeaders
  | Throw e => Throw e
  end.

(** The bearer token written over them. *)
Definition authorize (sessionData : JsValue) (requestHeaders : Headers)
    : Completion Headers :=
  let token := sessionToken sessionData in
  match token with
  | VStr t =>
      if truthy token
      then WebHeaders.checked_set "Authorization" ("Bearer " ++ t) requestHeaders
      else Normal requestHeaders
  | _ => Normal requestHeaders
  end.

(** The headers of the request when the platform accepted every write:
    defaults, then what the encoder set, then the bearer token. *)
Definition requestHeadersFor (this : SDKBuilder)
    (requestSpecificHeaders : list (string * string)) (sessionData : JsValue) : Headers :=
  let requestHeaders := WebHeaders.of_record (defaultHeaders this) in
  let requestHeaders :=
    fold_left (fun h nv => WebHeaders.set (fst nv) (snd nv) h)
              requestSpecificHeaders requestHeaders in
  let token := sessionToken sessionData in
  match token with
  | VStr t =>
      if truthy token
      then WebHeaders.set "Authorization" ("Bearer " ++ t) requestHeaders
      else requestHeaders
  | _ => requestHeaders
  end.

(** [AbortSignal.timeout(ms)] takes an unsigned integer it can
    represent exactly, and throws otherwise. *)
Definition AbortSignal_timeout (ms : Z) : Eff Z :=
  if (0 <=? ms) && (ms <=? 9007199254740991)
  then mret ms
  else throw (TypeError "Value is outside the 'unsigned long long' value range.").

(** Reading the body of a response; a failed read leaves [null]. *)
Definition readBody (httpResponse : Response) : Eff JsValue :=
  if negb (resp_status httpResponse =? 204) && resp_has_body httpResponse
  then
    match resp_content_type httpResponse with
    | Some contentType =>
        if Text.includes "application/json" contentType
        then _ ← emit (EvReadBody true);
             await (promise_catch (resp_json httpResponse) VNull)
        else if Text.includes "text/" contentType
        then _ ← emit (EvReadBody false);
             await (promise_catch
                      match resp_text httpResponse with
                      | Fulfilled text => Fulfilled (VStr text)
                      | Rejected e => Rejected e
                      end VNull)
        else mret VNull
    | None => mret VNull
    end
  else mret VNull.

(** "Normalize error message if possible": [error.message] is copied
    to a missing [message]. *)
Definition normalizeErrorMessage (responseData : JsValue) : JsValue :=
  if truthy responseData && String.eqb (typeof responseData) "object"
  then
    let error := get_prop_opt responseData "error" in
    let message := if is_nullish error then VUndefined else get_prop_opt error "message" in
    if truthy message && is_undefined (get_prop_opt responseData "message")
    then match responseData with
         | VObj props => VObj (prop_set "message" message props)
         | _ => responseData
         end
    else responseData
  else responseData.

(** What the body of a response is read as. *)
Definition bodyData (httpResponse : Response) : JsValue :=
  match outcome (readBody httpResponse) with
  | Normal responseData => responseData
  | Throw _ => VNull
  end.

(** The [catch] block of the generated function. *)
Definition networkErrorEnvelope (endpointConfig : EndpointConfig) (debugPath : string)
    (url : URL) (error : JsValue) : Eff CustomApiResponse :=
  _ ← emit (EvError ("[SDKBuilder] Network/operational error for " ++ debugPath
                      ++ " (" ++ method endpointConfig ++ " " ++ url_pathname url ++ "):")
                     error);
  name ← lift (get_prop error "name");
  let errorIsTimeout := strict_eq_str name "TimeoutError" in
  message ←
    (if errorIsTimeout then mret (VStr "Request timed out")
     else m ← lift (get_prop error "message");
          mret (js_or m (VStr "A client-side error occurred.")));
  mret (mkEnvelope false false
          (VObj [("message", message); ("errorDetails", error)]) 0).

(** The [message] of the envelope the [catch] block builds. *)
Definition failureMessage (error : JsValue) : JsValue :=
  if strict_eq_str (get_prop_opt error "name") "TimeoutError"
  then VStr "Request timed out"
  else js_or (get_prop_opt error "message") (VStr "A client-side error occurred.").

(** The envelope the [catch] block builds. *)
Definition failureEnvelope (error : JsValue) : CustomApiResponse :=
  mkEnvelope false false
    (VObj [("message", failureMessage error); ("errorDetails", error)]) 0.

(** The delays [AbortSignal.timeout] accepts. *)
Definition valid_timeout (ms : Z) : bool := (0 <=? ms) && (ms <=? 9007199254740991).

(** The interception of a [401]: the last statements of the [try]
    block. *)
Definition interceptCredential (this : SDKBuilder) (result : CustomApiResponse)
    : Eff CustomApiResponse :=
  if status result =? 401
  then
    _ ← emit (EvCallback result);
    let run := onInvalidCredential this result in
    returned ← lift (cb_completion run);
    _ ← emit (EvAwaitCallback returned);
    _ ← match returned with
        | RetPlain => mret tt
        | RetPromise settled => await settled
        end;
    mret (cb_envelope run)
  else mret result.

(** The [try] block of the generated function. *)
Definition attempt (this : SDKBuilder) (endpointConfig : EndpointConfig) (url : URL)
    (requestHeaders : Headers) (body : Body) (w : World) : Eff CustomApiResponse :=
  signal ← AbortSignal_timeout (requestTimeout this);
  let request :=
    mkRequest (WebURL.href url) (method endpointConfig) requestHeaders body
              signal "include" in
  _ ← emit (EvFetch request);
  httpResponse ← await (transport w request);
  responseData ← readBody httpResponse;
  let responseData := normalizeErrorMessage responseData in
  let result :=
    mkEnvelope (resp_ok httpResponse) (resp_ok httpResponse) responseData
               (resp_status httpResponse) in
  interceptCredential this result.

(** The [try] statement: the block and its [catch]. *)
Definition dispatch (this : SDKBuilder) (endpointConfig : EndpointConfig)
    (debugPath : string) (url : URL) (requestHeaders : Headers) (body : Body)
    (w : World) : Eff CustomApiResponse :=
  try_catch (attempt this endpointConfig url requestHeaders body w)
            (networkErrorEnvelope endpointConfig debugPath url).

(** The events [before] of a [try] block that threw [error], followed by
    the [catch] block. *)
Definition caught (endpointConfig : EndpointConfig) (debugPath : string) (url : URL)
    (before : list Event) (error : JsValue) : Eff CustomApiResponse :=
  mkEff (before ++ trace (networkErrorEnvelope endpointConfig debugPath url error))
        (outcome (networkErrorEnvelope endpointConfig debugPath url error)).

(** The request of a call whose URL was built as [url] and whose payload
    is [payloadSource], when the session holds [sessionData]. *)
Definition requestFor (this : SDKBuilder) (endpointConfig : EndpointConfig) (url : URL)
    (payloadSource sessionData : JsValue) : Request :=
  let prepared := _prepareRequestBodyAndHeaders (method endpointConfig) url payloadSource in
  mkRequest (WebURL.href (prep_url prepared)) (method endpointConfig)
            (requestHeadersFor this (prep_headers prepared) sessionData)
            (prep_body prepared) (requestTimeout this) "include".

(** The envelope the [try] block builds from a response. *)
Definition envelopeOf (httpResponse : Response) : CustomApiResponse :=
  mkEnvelope (resp_ok httpResponse) (resp_ok httpResponse)
             (normalizeErrorMessage (bodyData httpResponse))
             (resp_status httpResponse).

(** The function [_generateFetchFunction] returns, called with
    [idOrParamsPayload] and [directPayload] ([undefined] when absent). *)
Definition _generateFetchFunction (this : SDKBuilder) (endpointConfig : EndpointConfig)
    (debugPath : string) (idOrParamsPayload directPayload : JsValue) (w : World)
    : Eff (Promise CustomApiResponse) :=
  async (
    '(pathParamsSource, payloadSource) ← resolveArguments idOrParamsPayload directPayload;
    url ← _buildUrl this endpointConfig pathParamsSource;
    let prepared := _prepareRequestBodyAndHeaders (method endpointConfig) url payloadSource in
    let url := prep_url prepared in
    requestHeaders ← lift (headersBefore this (prep_headers prepared));
    sessionData ← session w;
    _ ← emit (EvSession sessionData);
    requestHeaders ← lift (authorize sessionData requestHeaders);
    dispatch this endpointConfig debugPath url requestHeaders (prep_body prepared) w).

(** Calling the function found in [this.fetch] under the given names;
    [None] when there is no function there. *)
Fixpoint lookup_call (names : list string) (node : ClientNode)
    : option (EndpointConfig * string) :=
  match names with
  | [] => node_call node
  | name :: rest =>
      match node with
      | Node _ members =>
          (fix find (ms : list (string * ClientNode)) :=
             match ms with
             | [] => None
             | (k, child) :: ms' =>
                 if String.eqb k name then lookup_call rest child else find ms'
             end) members
      end
  end.
End Class.

(** ** A platform to run examples on

    [Reference.platform] is used where a closed example needs the three
    members of [Platform].  It parses URLs of the form
    [http(s)://host/path?query#fragment] taking the host as written, and
    JSON texts that are a scalar without escapes; it is given no pattern
    with a metacharacter.  On these inputs it does what a browser does. *)

Module Reference.

Definition is_digit (c : ascii) : bool :=
  let n := nat_of_ascii c in ((48 <=? n) && (n <=? 57))%nat.

Fixpoint digits_value (s : string) (acc : Z) : option Z :=
  match s with
  | EmptyString => Some acc
  | String c s' =>
      if is_digit c
      then digits_value s' (10 * acc + Z.of_nat (nat_of_ascii c - 48))
      else None
  end.

(** A JSON integer: no sign but [-], no leading zero. *)
Definition parse_integer (s : string) : option Z :=
  match s with
  | String "-" (String c rest) =>
      if is_digit c && (negb (Ascii.eqb c "0") || String.eqb rest "")
      then option_map Z.opp (digits_value (String c rest) 0)
      else None
  | String c rest =>
      if is_digit c && (negb (Ascii.eqb c "0") || String.eqb rest "")
      then digits_value s 0
      else None
  | EmptyString => None
  end.

Definition plain_char (c : ascii) : bool :=
  let n := nat_of_ascii c in
  ((32 <=? n) && negb (n =? 34) && negb (n =? 92))%nat.

(** The characters of a JSON string up to its closing quote, when none
    needs an escape and nothing follows the quote. *)
Fixpoint quoted_tail (s : string) : option string :=
  match s with
  | EmptyString => None
  | String c s' =>
      if (nat_of_ascii c =? 34)%nat
      then if String.eqb s' "" then Some EmptyString else None
      else if plain_char c then option_map (String c) (quoted_tail s') else None
  end.

Definition parse_scalar (text : string) : option JsValue :=
  if String.eqb text "null" then Some VNull
  else if String.eqb text "true" then Some (VBool true)
  else if String.eqb text "false" then Some (VBool false)
  else match text with
       | String c rest =>
           if (nat_of_ascii c =? 34)%nat
           then option_map VStr (quoted_tail rest)
           else option_map VNum (parse_integer text)
       | EmptyString => None
       end.

(** [s] cut before the first character that satisfies [stop]. *)
Fixpoint span_until (stop : ascii -> bool) (s : string) : string * string :=
  match s with
  | EmptyString => (EmptyString, EmptyString)
  | String c s' =>
      if stop c then (EmptyString, s)
      else let (l, r) := span_until stop s' in (String c l, r)
  end.

Definition parse_url (text : string) : option URL :=
  let scheme :=
    if Text.starts_with "http://" text then Some "http://"
    else if Text.starts_with "https://" text then Some "https://"
    else None in
  match scheme with
  | None => None
  | Some scheme =>
      let rest := Text.drop (String.length scheme) text in
      let (host, rest) :=
        span_until (fun c => Text.mem_char c "/\?#") rest in
      if String.eqb host "" then None
      else
        let (rawPath, rest) := span_until (fun c => Text.mem_char c "?#") rest in
        let (query, fragment) := span_until (fun c => Ascii.eqb c "#") rest in
        Some (mkURL (scheme ++ host)
                    (WebURL.parse_path rawPath)
                    (if String.eqb query "?" then EmptyString else query)
                    (if String.eqb fragment "#" then EmptyString else fragment))
  end.

#[export] Instance platform : Platform := {|
  URL_parse := parse_url;
  JSON_parse := parse_scalar;
  RegExp_replace_all := fun pattern _ _ =>
    Throw (VError "SyntaxError" ("Invalid regular expression: /" ++ pattern ++ "/"))
|}.

End Reference.

(** ** The argument block over a store of shared objects

    The values above are trees: they say what an object holds, not which
    object it is.  Whether the generated function writes to the object
    its caller passed is a question about identity, so the block that
    resolves the arguments is given a second time over a store in which
    objects live at locations and values refer to them. *)

Module Shared.

Definition Loc : Type := positive.

Inductive HValue : Type :=
| HUndefined
| HNull
| HBool (b : bool)
| HNum (n : Z)
| HStr (s : string)
| HRef (l : Loc).

Inductive HObject : Type :=
| OPlain (props : list (string * HValue))
| OArray (items : list HValue)
| OFile (name : string)
| OError (name message : string).

Abbreviation Store := (gmap Loc HObject).

(** The own enumerable properties of the object at a location. *)
Definition entries_at (σ : Store) (l : Loc) : list (string * HValue) :=
  match σ !! l with
  | Some (OPlain props) => props
  | Some (OArray items) => indexed 0 items
  | Some (OFile _) | Some (OError _ _) | None => []
  end.

(** [typeof v === 'object' && v !== null] *)
Definition is_object (v : HValue) : bool :=
  match v with HRef _ => true | _ => false end.

(** How the block ends: with the two sources, or by throwing the Error
    that names the offending key and value of [$params]. *)
Inductive Resolution : Type :=
| Resolved (pathParamsSource payloadSource : HValue)
| Invalid (key : string) (value : HValue).

Definition resolveArguments (σ : Store) (idOrParamsPayload directPayload : HValue)
    : Store * Resolution :=
  match directPayload with
  | HUndefined =>
      match idOrParamsPayload with
      | HRef l =>
          (* const singleArgObject = { ...idOrParamsPayload } *)
          let singleArgObject := fresh (dom σ) in
          let copied := entries_at σ l in
          let σ := <[singleArgObject := OPlain copied]> σ in
          match prop_lookup "$params" copied with
          | Some (HRef params) =>
              match find (fun kv => is_object (snd kv)) (entries_at σ params) with
              | Some (key, value) => (σ, Invalid key value)
              | None =>
                  (* delete singleArgObject.$params *)
                  (<[singleArgObject := OPlain (prop_delete "$params" copied)]> σ,
                   Resolved (HRef params) (HRef singleArgObject))
              end
          | _ => (σ, Resolved HUndefined (HRef singleArgObject))
          end
      | _ => (σ, Resolved idOrParamsPayload HUndefined)
      end
  | _ => (σ, Resolved idOrParamsPayload directPayload)
  end.

(** The tree a stored value stands for. *)
#[local] Unset Elimination Schemes.
Inductive represents (σ : Store) : HValue -> JsValue -> Prop :=
| rep_undefined : represents σ HUndefined VUndefined
| rep_null : represents σ HNull VNull
| rep_bool b : represents σ (HBool b) (VBool b)
| rep_num n : represents σ (HNum n) (VNum n)
| rep_str s : represents σ (HStr s) (VStr s)
| rep_file l name :
    σ !! l = Some (OFile name) -> represents σ (HRef l) (VFile name)
| rep_error l name message :
    σ !! l = Some (OError name message) ->
    represents σ (HRef l) (VError name message)
| rep_array l items values :
    σ !! l = Some (OArray items) ->
    Forall2 (represents σ) items values ->
    represents σ (HRef l) (VArr values)
| rep_plain l props entries :
    σ !! l = Some (OPlain props) ->
    Forall2 (fun p e => fst p = fst e /\ represents σ (snd p) (snd e)) props entries ->
    represents σ (HRef l) (VObj entries).
#[local] Set Elimination Schemes.

(** Entries of a stored object and of a value that agree key by key. *)
Definition entries_represent (σ : Store) (stored : list (string * HValue))
    (entries : list (string * JsValue)) : Prop :=
  Forall2 (fun p e => fst p = fst e /\ represents σ (snd p) (snd e)) stored entries.

End Shared.

(** ** Notions of the specification *)

(** A binary file anywhere inside a value, at any depth. *)
Fixpoint containsFile (v : JsValue) : bool :=
  match v with
  | VFile _ => true
  | VArr items => existsb containsFile items
  | VObj props => existsb (fun kv => containsFile (snd kv)) props
  | _ => false
  end.

(** A leaf of an endpoint tree: an object with a string [path] and a
    string [method]. *)
Definition is_leaf (v : JsValue) : bool :=
  match v with
  | VObj props =>
      String.eqb (typeof (default VUndefined (prop_lookup "path" props))) "string"
      && String.eqb (typeof (default VUndefined (prop_lookup "method" props))) "string"
  | _ => false
  end.

(** A primitive that is neither [undefined] nor [null]. *)
Definition is_plain_primitive (v : JsValue) : bool :=
  match v with
  | VBool _ | VNum _ | VStr _ => true
  | _ => false
  end.

(** The names of the properties of [Object.prototype]. *)
Definition inherited_name (key : string) : bool :=
  existsb (String.eqb key)
    ["__proto__"; "constructor"; "hasOwnProperty"; "isPrototypeOf";
     "propertyIsEnumerable"; "toLocaleString"; "toString"; "valueOf";
     "__defineGetter__"; "__defineSetter__"; "__lookupGetter__"; "__lookupSetter__"].

(** Keys that are the object's own: none is an inherited name. *)
Definition own_names {A : Type} (props : list (string * A)) : bool :=
  forallb (fun kv => negb (inherited_name (fst kv))) props.

Fixpoint distinct_keys {A : Type} (props : list (string * A)) : bool :=
  match props with
  | [] => true
  | (k, _) :: rest =>
      match prop_lookup k rest with
      | Some _ => false
      | None => distinct_keys rest
      end
  end.

(** An endpoint tree whose nodes are leaves, groups, or primitives that
    are not [undefined] or [null]; keys are unique per level and none is
    an inherited name. *)
Fixpoint walkable (v : JsValue) : bool :=
  match v with
  | VObj props =>
      distinct_keys props && own_names props
      && forallb (fun kv => is_leaf (snd kv) || is_plain_primitive (snd kv) || walkable (snd kv))
                 props
  | _ => false
  end.

(** A valid endpoint tree: every node is a leaf or a group. *)
Fixpoint valid_tree (v : JsValue) : bool :=
  match v with
  | VObj props =>
      distinct_keys props && own_names props
      && forallb (fun kv => is_leaf (snd kv) || valid_tree (snd kv)) props
  | _ => false
  end.

Definition keyPath (parentKeyPath key : string) : string :=
  if String.eqb parentKeyPath "" then key else parentKeyPath ++ "." ++ key.

(** The client the specification describes for a tree: the same names
    and nesting, a function for each leaf, an object for each group, and
    nothing for a node that is neither. *)
Fixpoint mirror (parentKeyPath : string) (v : JsValue) : ClientNode :=
  match v with
  | VObj props =>
      Node None
        (flat_map
           (fun kv =>
              let currentPath := keyPath parentKeyPath (fst kv) in
              if is_leaf (snd kv)
              then [(fst kv, Node (Some (endpoint_of (snd kv), currentPath)) [])]
              else if is_object (snd kv)
              then [(fst kv, mirror currentPath (snd kv))]
              else [])
           props)
  | _ => empty_object
  end.

(** The warnings the specification describes for a tree, in the order
    the nodes are met. *)
Fixpoint warnings (parentKeyPath : string) (v : JsValue) : list Event :=
  match v with
  | VObj props =>
      flat_map
        (fun kv =>
           let currentPath := keyPath parentKeyPath (fst kv) in
           if is_leaf (snd kv) then []
           else if is_object (snd kv) then warnings currentPath (snd kv)
           else [EvWarn ("[SDKBuilder] Invalid configuration for endpoint key: "
                          ++ currentPath ++ ". Expected an object or EndpointConfig.")])
        props
  | _ => []
  end.

(** A client with the key structure of a tree: the same names in the
    same order at every depth, a function without members for a leaf, an
    object that is not a function for a group. *)
#[local] Unset Elimination Schemes.
Inductive same_shape : JsValue -> ClientNode -> Prop :=
| shape_leaf v generated :
    is_leaf v = true -> same_shape v (Node (Some generated) [])
| shape_group props members :
    is_leaf (VObj props) = false ->
    Forall2 (fun kv km => fst kv = fst km /\ same_shape (snd kv) (snd km)) props members ->
    same_shape (VObj props) (Node None members).
#[local] Set Elimination Schemes.

(** The query parameters the specification describes for a payload. *)
Definition queryPairs (entries : list (string * JsValue)) : list (string * string) :=
  flat_map
    (fun kv =>
       match snd kv with
       | VUndefined | VNull => []
       | VArr items =>
           flat_map (fun item => match item with
                                 | VNull => []
                                 | _ => [(fst kv, ToString item)]
                                 end) items
       | val => [(fst kv, ToString val)]
       end)
    entries.

(** A computation that touches nothing outside. *)
Definition silent {A : Type} (m : Eff A) : Prop := trace m = [].

(** The methods whose payload is a body: all but GET and DELETE. *)
Definition sends_body (m : string) : bool :=
  negb (String.eqb m "GET" || String.eqb m "DELETE").


(** The requests a trace shows. *)
Definition requests (t : list Event) : list Request :=
  flat_map (fun ev => match ev with EvFetch r => [r] | _ => [] end) t.

(** The envelopes [onInvalidCredential] was called with. *)
Definition callbackCalls (t : list Event) : list CustomApiResponse :=
  flat_map (fun ev => match ev with EvCallback e => [e] | _ => [] end) t.

(** Whether the platform accepts every header a call writes: the
    default headers and, when the session holds a token, the bearer
    token.  (What the encoder sets is always accepted.) *)
Definition headers_accepted (this : SDKBuilder) (sessionData : JsValue) : bool :=
  forallb (fun kv => WebHeaders.accepts (fst kv) (snd kv)) (defaultHeaders this)
  && match sessionToken sessionData with
     | VStr t =>
         negb (truthy (VStr t)) || WebHeaders.accepts "Authorization" ("Bearer " ++ t)
     | _ => true
     end.

(** A storage none of whose items is named like a property every
    object inherits. *)
Definition plain_storage (w : World) : bool :=
  match localStorage w with
  | Some items => own_names items
  | None => true
  end.



(** A text of visible ASCII characters, [!] to [~]. *)
Definition visible (s : string) : bool :=
  Text.all_chars
    (fun c => let n := nat_of_ascii c in ((33 <=? n) && (n <=? 126))%nat) s.

(** ** The methods on the storage *)

(** [localStorage.setItem(key, value)] and [localStorage.removeItem(key)]
    on the items of a storage that has room.  The order in which a
    storage lists its keys is its own; nothing below depends on it. *)
Definition setItem (key value : string) (items : list (string * string))
    : list (string * string) :=
  prop_set key value items.

Definition removeItem (key : string) (items : list (string * string))
    : list (string * string) :=
  prop_delete key items.

(** What [store] writes for a value that is not [undefined] or [null]. *)
Definition itemText (value : JsValue) : string :=
  if String.eqb (typeof value) "object"
  then default "undefined" (JSON_stringify value)
  else ToString value.

(** [store]; the storage is [None] when [localStorage] is not defined. *)
Definition store (data : JsValue) (storage : option (list (string * string)))
    : Completion (option (list (string * string))) :=
  match storage with
  | None => Normal None
  | Some items =>
      match Object_entries data with
      | Throw e => Throw e
      | Normal entries =>
          Normal (Some (forEach_props
                          (fun key value items =>
                             if is_nullish value then removeItem key items
                             else setItem key (itemText value) items)
                          entries items))
      end
  end.

(** [dispose] *)
Definition dispose (keys : list string) (storage : option (list (string * string)))
    : option (list (string * string)) :=
  match storage with
  | None => None
  | Some items => Some (fold_left (fun items key => removeItem key items) keys items)
  end.

(** [clearAllPersistentData] *)
Definition clearAllPersistentData (storage : option (list (string * string)))
    : option (list (string * string)) :=
  match storage with
  | None => None
  | Some _ => Some []
  end.

(** [callback] *)
Definition callback : Eff (Promise unit) :=
  async (
    _ ← emit (EvWarn ("[SDKBuilder] The 'callback' method is deprecated. "
                       ++ "Use async/await or .then()/.catch() on fetch calls instead."));
    throw (VError "Error" "The 'callback' method is deprecated.")).

(** The surroundings of a call once the storage is [storage]. *)
Definition with_storage (storage : option (list (string * string))) (w : World) : World :=
  mkWorld storage (transport w).

(** What [session] makes of an item: its JSON value, or the item itself
    when it is not JSON text. *)
Definition itemValue `{Platform} (item : string) : JsValue :=
  match JSON_parse item with
  | Some parsed => parsed
  | None => VStr item
  end.

(** The callback of the [forEach] in [_createFormDataFromObject]. *)
Definition appendField (parentKey : option string) (key : string) (value : JsValue)
    (formData : FormData) : FormData :=
  let currentKey :=
    match parentKey with
    | Some parent =>
        if String.eqb parent "" then key else parent ++ "[" ++ key ++ "]"
    | None => key
    end in
  match value with
  | VFile name => (formData ++ [(currentKey, FFile name)])%list
  | VArr items =>
      forEach_items
        (fun index item formData =>
           let arrayKey := currentKey ++ "[" ++ index ++ "]" in
           if is_object item && negb (instanceof_File item)
           then _createFormDataFromObject item formData (Some arrayKey)
           else if negb (is_nullish item)
           then (formData
                 ++ [(arrayKey, match item with
                                | VFile name => FFile name
                                | _ => FText (ToString item)
                                end)])%list
           else formData)
        0 items formData
  | VObj _ | VError _ _ => _createFormDataFromObject value formData (Some currentKey)
  | VUndefined | VNull => formData
  | VBool _ | VNum _ | VStr _ => (formData ++ [(currentKey, FText (ToString value))])%list
  end.

(** ** Notions used to state what the encoders keep *)

(** The files of a form, in order. *)
Definition form_files (form : FormData) : list string :=
  flat_map (fun part => match snd part with FFile name => [name] | FText _ => [] end) form.

(** The files inside a value, at any depth, in the order of its
    entries. *)
Fixpoint files_of (v : JsValue) : list string :=
  match v with
  | VFile name => [name]
  | VArr items => flat_map files_of items
  | VObj props => flat_map (fun kv => files_of (snd kv)) props
  | _ => []
  end.

(** The part a flat field becomes: none for [undefined] and [null], a
    file for a File, the text of anything else. *)
Definition flat_field (kv : string * JsValue) : list (string * FormEntry) :=
  match snd kv with
  | VUndefined | VNull => []
  | VFile name => [(fst kv, FFile name)]
  | value => [(fst kv, FText (ToString value))]
  end.

(** A value that is no array and no plain object. *)
Definition is_flat (v : JsValue) : bool :=
  match v with
  | VArr _ | VObj _ | VError _ _ => false
  | _ => true
  end.



(** ** Example inputs *)

Module Example.

(** [base = 'http://h/api'], as [new URL] parses it. *)
Definition api : URL := mkURL "http://h" "/api" "" "".

Definition getById : EndpointConfig := mkEndpoint "/users/:id" "GET".
Definition update : EndpointConfig := mkEndpoint "/users/:id" "POST".
Definition create : EndpointConfig := mkEndpoint "/users" "POST".

(** [{ users: { getById: { path: '/users/:id', method: 'GET' } } }] *)
Definition tree : JsValue :=
  VObj [("users",
         VObj [("getById", VObj [("path", VStr "/users/:id"); ("method", VStr "GET")])])].

(** The same tree with a [null] beside the group. *)
Definition tree_with_null : JsValue :=
  VObj [("legacy", VNull);
        ("users",
         VObj [("getById", VObj [("path", VStr "/users/:id"); ("method", VStr "GET")])])].

Definition client : ClientNode :=
  Node None [("users", Node None [("getById", Node (Some (getById, "users.getById")) [])])].

(** Callbacks: the default one, one that throws, one whose promise is
    rejected. *)
Definition quiet (result : CustomApiResponse) : CallbackRun :=
  mkCallbackRun result (Normal (RetPromise (Fulfilled tt))).
Definition throwing (result : CustomApiResponse) : CallbackRun :=
  mkCallbackRun result (Throw (VError "Error" "redirect failed")).
Definition rejecting (result : CustomApiResponse) : CallbackRun :=
  mkCallbackRun result (Normal (RetPromise (Rejected (VError "Error" "refresh failed")))).

Definition sdk (callback : CustomApiResponse -> CallbackRun) : SDKBuilder :=
  mkSDK api callback [("Accept", "application/json")] 30000 client.

(** The exception of [AbortSignal.timeout]. *)
Definition timeoutError : JsValue := VError "TimeoutError" "The operation timed out.".

(** A 401 with a JSON body. *)
Definition unauthorized : Response :=
  mkResponse 401 (Some "application/json") true
             (Fulfilled (VObj [("error", VObj [("message", VStr "token expired")])]))
             (Fulfilled "").

(** A 200 whose body is still arriving when the delay runs out: reading
    it is rejected with the exception of the timeout. *)
Definition slow_body : Response :=
  mkResponse 200 (Some "application/json") true (Rejected timeoutError)
             (Rejected timeoutError).

(** A transport that answers every request with [response], and one
    that refuses every request with [error]; no [localStorage]. *)
Definition answering (response : Response) : World :=
  mkWorld None (fun _ => Fulfilled response).
Definition refusing (error : JsValue) : World :=
  mkWorld None (fun _ => Rejected error).

(** The same with a storage. *)
Definition stored (storage : list (string * string)) (response : Response) : World :=
  mkWorld (Some storage) (fun _ => Fulfilled response).

Definition no_content : Response := mkResponse 204 None false (Fulfilled VNull) (Fulfilled "").

(** [{ avatar: { file: <File> } }] *)
Definition nested_file : JsValue := VObj [("avatar", VObj [("file", VFile "me.png")])].

(** [{ $params: { id: {} } }] and [{ $params: { id: 2 }, name: 'x' }] *)
Definition bad_params : JsValue := VObj [("$params", VObj [("id", VObj [])])].
Definition bag : JsValue := VObj [("$params", VObj [("id", VNum 2)]); ("name", VStr "x")].

(** [{ tags: ['a', 'b'], q: 'hi' }] *)
Definition search : JsValue := VObj [("tags", VArr [VStr "a"; VStr "b"]); ("q", VStr "hi")].

(** A store in which [bag] lives at location 1 and its [$params] at 2. *)
Definition store : gmap Shared.Loc Shared.HObject :=
  <[1%positive := Shared.OPlain [("$params", Shared.HRef 2%positive);
                                  ("name", Shared.HStr "x")]]>
    (<[2%positive := Shared.OPlain [("id", Shared.HNum 2)]]> ∅).

(** The request of [getById(2)] without a session. *)
Definition request_getById_2 : Request :=
  mkRequest "http://h/api/users/2" "GET" [("accept", "application/json")] BodyNone
            30000 "include".

(** The request of [create(payload)] sent as JSON [text]. *)
Definition request_create_json (text : string) : Request :=
  mkRequest "http://h/api/users" "POST"
            [("accept", "application/json"); ("content-type", "application/json")]
            (BodyText text) 30000 "include".

End Example.

(** ** More example inputs *)

Module Sample.

(** [new SDKBuilder({ base: 'http://h/api', endpoints: tree })] *)
Definition config : SDKBuilderConfig := mkConfig "http://h/api" Example.tree None None None.


(** [{ token: 'abc', user: { id: 7 }, old: null }] *)
Definition session_data : list (string * JsValue) :=
  [("token", VStr "abc"); ("user", VObj [("id", VNum 7)]); ("old", VNull)].

(** [{ title: 'hi', n: 3, gone: null, doc: <File> }] *)
Definition upload : list (string * JsValue) :=
  [("title", VStr "hi"); ("n", VNum 3); ("gone", VNull); ("doc", VFile "a.pdf")].

(** The request of [getById(2)] with [token = abc] in the storage. *)
Definition request_with_token : Request :=
  mkRequest "http://h/api/users/2" "GET"
            [("accept", "application/json"); ("authorization", "Bearer abc")]
            BodyNone 30000 "include".

(** Templates the setter of [pathname] changes: one that starts with a
    backslash, one that climbs out of the base path. *)
Definition backslashed : EndpointConfig := mkEndpoint "\users/:id" "GET".
Definition climbing : EndpointConfig := mkEndpoint "/../users/:id" "GET".


(** The request of [update(2, 'hello')]. *)
Definition request_raw : Request :=
  mkRequest "http://h/api/users/2" "POST" [("accept", "application/json")]
            (BodyText "hello") 30000 "include".


End Sample.

(** * Properties *)

(** ** Values *)

(** Induction over a value and the values inside it. *)
Lemma JsValue_induction (P : JsValue -> Prop) :
  P VUndefined -> P VNull -> (forall b, P (VBool b)) -> (forall n, P (VNum n)) ->
  (forall s, P (VStr s)) -> (forall name, P (VFile name)) ->
  (forall name message, P (VError name message)) ->
  (forall items, Forall P items -> P (VArr items)) ->
  (forall props, Forall (fun kv => P (snd kv)) props -> P (VObj props)) ->
  forall v, P v.
Proof.
  intros Hundef Hnull Hbool Hnum Hstr Hfile Herror Harr Hobj.
  fix IH 1. intros [| |b|n|s|name|name message|items|props].
  - exact Hundef.
  - exact Hnull.
  - apply Hbool.
  - apply Hnum.
  - apply Hstr.
  - apply Hfile.
  - apply Herror.
  - apply Harr.
    exact ((fix all (l : list JsValue) : Forall P l :=
              match l with
              | [] => List.Forall_nil P
              | x :: rest => @List.Forall_cons _ P x rest (IH x) (all rest)
              end) items).
  - apply Hobj.
    exact ((fix all (l : list (string * JsValue)) : Forall (fun kv => P (snd kv)) l :=
              match l with
              | [] => List.Forall_nil _
              | kv :: rest => @List.Forall_cons _ _ kv rest (IH (snd kv)) (all rest)
              end) props).
Qed.

(** ** Computations *)

Lemma eff_eta {A : Type} (m : Eff A) : mkEff (trace m) (outcome m) = m.
Proof. destruct m; reflexivity. Qed.

Lemma bind_unfold {A B : Type} (m : Eff A) (k : A -> Eff B) :
  m ≫= k = eff_bind m k.
Proof. reflexivity. Qed.

Lemma bind_normal {A B : Type} (m : Eff A) (k : A -> Eff B) (a : A) :
  outcome m = Normal a ->
  m ≫= k = mkEff (trace m ++ trace (k a)) (outcome (k a)).
Proof. intros Hm. rewrite bind_unfold. unfold eff_bind. rewrite Hm. reflexivity. Qed.

Lemma bind_throw {A B : Type} (m : Eff A) (k : A -> Eff B) (e : JsValue) :
  outcome m = Throw e ->
  m ≫= k = mkEff (trace m) (Throw e).
Proof. intros Hm. rewrite bind_unfold. unfold eff_bind. rewrite Hm. reflexivity. Qed.

Lemma bind_ret {A B : Type} (a : A) (k : A -> Eff B) : mret a ≫= k = k a.
Proof. rewrite (bind_normal _ _ a) by reflexivity. apply eff_eta. Qed.

Lemma bind_pure {A B : Type} (a : A) (k : A -> Eff B) :
  mkEff [] (Normal a) ≫= k = k a.
Proof. apply bind_ret. Qed.

Lemma bind_emit {B : Type} (ev : Event) (k : unit -> Eff B) :
  emit ev ≫= k = mkEff (ev :: trace (k tt)) (outcome (k tt)).
Proof. rewrite (bind_normal _ _ tt) by reflexivity. reflexivity. Qed.

Lemma bind_lift_normal {A B : Type} (a : A) (k : A -> Eff B) :
  lift (Normal a) ≫= k = k a.
Proof. apply bind_ret. Qed.

Lemma bind_lift_throw {A B : Type} (e : JsValue) (k : A -> Eff B) :
  lift (Throw e) ≫= k = throw e.
Proof. reflexivity. Qed.

Lemma silent_ret {A : Type} (a : A) : silent (mret a : Eff A).
Proof. reflexivity. Qed.

Lemma silent_lift {A : Type} (c : Completion A) : silent (lift c).
Proof. reflexivity. Qed.

Lemma silent_throw {A : Type} (e : JsValue) : silent (throw e : Eff A).
Proof. reflexivity. Qed.

Lemma silent_bind {A B : Type} (m : Eff A) (k : A -> Eff B) :
  silent m -> (forall a, silent (k a)) -> silent (m ≫= k).
Proof.
  intros Hm Hk. unfold silent in *. rewrite bind_unfold. unfold eff_bind.
  destruct (outcome m) as [a|e]; simpl.
  - rewrite Hm, (Hk a). reflexivity.
  - exact Hm.
Qed.


Lemma async_bind_silent {A B : Type} (m : Eff A) (k : A -> Eff B) :
  silent m ->
  async (m ≫= k) =
  match outcome m with
  | Normal a => async (k a)
  | Throw e => mkEff [] (Normal (Rejected e))
  end.
Proof.
  unfold silent. destruct m as [t [a|e]]; simpl; intros ->.
  - rewrite bind_pure. reflexivity.
  - reflexivity.
Qed.

Lemma silent_forEach_props {St : Type} (f : string -> JsValue -> Eff St -> Eff St)
    (props : list (string * JsValue)) (acc : Eff St) :
  (forall k v m, silent m -> silent (f k v m)) ->
  silent acc -> silent (forEach_props f props acc).
Proof.
  intros Hf. revert acc. induction props as [|[k v] rest IH]; intros acc Hacc; simpl.
  - exact Hacc.
  - apply IH, Hf, Hacc.
Qed.

Section Call.
Context `{Platform}.

Lemma silent_resolveArguments a b : silent (resolveArguments a b).
Proof.
  unfold resolveArguments.
  destruct (negb (is_undefined b)); [apply silent_ret|].
  destruct (is_object a); [|apply silent_ret].
  destruct (truthy _ && _); [|apply silent_ret].
  apply silent_bind; [|intros; apply silent_ret].
  apply silent_forEach_props; [|apply silent_ret].
  intros k v m Hm. apply silent_bind; [exact Hm|].
  intros _. destruct (is_object v); [apply silent_throw|apply silent_ret].
Qed.

Lemma silent_substitutePath tempPath source : silent (substitutePath tempPath source).
Proof.
  unfold substitutePath.
  destruct (negb (is_nullish source)); [|apply silent_ret].
  assert (Hobj : silent
    (if String.eqb (typeof source) "object"
     then forEach_props
            (fun key value acc =>
               tempPath ← acc;
               let placeholder := ":" ++ key in
               let text := Text.encodeURIComponent (ToString (js_coalesce value (VStr ""))) in
               if Text.includes placeholder tempPath
               then if regexp_literal placeholder
                    then mret (Text.replace_all placeholder text tempPath)
                    else lift (RegExp_replace_all placeholder tempPath text)
               else mret tempPath)
            (own_entries source) (mret tempPath)
     else mret tempPath)).
  { destruct (String.eqb _ _); [|apply silent_ret].
    apply silent_forEach_props; [|apply silent_ret].
    intros k v m Hm. apply silent_bind; [exact Hm|].
    intros t. simpl. destruct (Text.includes _ _); [|apply silent_ret].
    destruct (regexp_literal _); [apply silent_ret|apply silent_lift]. }
  destruct source; try exact Hobj;
    destruct (Text.match_placeholder tempPath); apply silent_ret.
Qed.

Lemma silent_buildUrl this ep source : silent (_buildUrl this ep source).
Proof.
  unfold _buildUrl. apply silent_bind; [apply silent_substitutePath|].
  intros; apply silent_ret.
Qed.

Lemma session_snapshot w : session w = mret (snapshot w).
Proof. unfold snapshot, session. destruct (localStorage w); reflexivity. Qed.

(** The encoder sets no header but [Content-Type]. *)
Lemma prepared_headers m url payloadSource :
  prep_headers (_prepareRequestBodyAndHeaders m url payloadSource) = []
  \/ prep_headers (_prepareRequestBodyAndHeaders m url payloadSource)
     = [("Content-Type", "application/json")].
Proof.
  unfold _prepareRequestBodyAndHeaders.
  destruct (negb (truthy payloadSource)); [left; reflexivity|].
  destruct (String.eqb m "GET" || String.eqb m "DELETE").
  { destruct (String.eqb (typeof payloadSource) "object"); left; reflexivity. }
  destruct (String.eqb (typeof payloadSource) "object").
  { destruct (hasFiles payloadSource); [left|right]; reflexivity. }
  destruct payloadSource; try (left; reflexivity).
  simpl. destruct (JSON_parse s); [right|left]; reflexivity.
Qed.

(** What the encoder sets is accepted and written as it is. *)
Lemma setAll_encoder m url payloadSource (h : Headers) :
  setAll (prep_headers (_prepareRequestBodyAndHeaders m url payloadSource)) h
  = Normal (fold_left (fun h nv => WebHeaders.set (fst nv) (snd nv) h)
                      (prep_headers (_prepareRequestBodyAndHeaders m url payloadSource)) h).
Proof.
  destruct (prepared_headers m url payloadSource) as [-> | ->]; reflexivity.
Qed.

(** The headers of a call: refused with a TypeError exactly when the
    platform refuses one of them, and otherwise those of
    [requestHeadersFor]. *)
Lemma headers_written this m url payloadSource sessionData :
  let encoderHeaders := prep_headers (_prepareRequestBodyAndHeaders m url payloadSource) in
  match headersBefore this encoderHeaders with
  | Throw e => headers_accepted this sessionData = false /\ exists message, e = TypeError message
  | Normal requestHeaders =>
      match authorize sessionData requestHeaders with
      | Throw e =>
          headers_accepted this sessionData = false /\ exists message, e = TypeError message
      | Normal requestHeaders' =>
          headers_accepted this sessionData = true
          /\ requestHeaders' = requestHeadersFor this encoderHeaders sessionData
      end
  end.
Proof.
  cbv zeta. unfold headersBefore, headers_accepted, WebHeaders.create.
  destruct (forallb _ (defaultHeaders this)).
  - rewrite setAll_encoder. unfold authorize, requestHeadersFor.
    destruct (sessionToken sessionData) as [| |?|?|t|?|? ?|?|?];
      try (split; reflexivity).
    destruct (truthy (VStr t)); [|split; reflexivity].
    unfold WebHeaders.checked_set. cbn [negb orb andb].
    destruct (WebHeaders.accepts "Authorization" ("Bearer " ++ t)).
    + split; reflexivity.
    + split; [reflexivity|eexists; reflexivity].
  - split; [reflexivity|eexists; reflexivity].
Qed.

(** The stages of a call, one after the other: the arguments are
    resolved, the URL is built and the headers are made without
    touching anything outside; the session is read; the bearer token is
    written; the request is dispatched. *)
Lemma call_stages this ep debugPath a b w :
  _generateFetchFunction this ep debugPath a b w =
  match outcome (resolveArguments a b) with
  | Throw e => mkEff [] (Normal (Rejected e))
  | Normal (pathParamsSource, payloadSource) =>
      match outcome (_buildUrl this ep pathParamsSource) with
      | Throw e => mkEff [] (Normal (Rejected e))
      | Normal url =>
          let prepared := _prepareRequestBodyAndHeaders (method ep) url payloadSource in
          let sessionData := snapshot w in
          match headersBefore this (prep_headers prepared) with
          | Throw e => mkEff [] (Normal (Rejected e))
          | Normal requestHeaders =>
              match authorize sessionData requestHeaders with
              | Throw e => mkEff [EvSession sessionData] (Normal (Rejected e))
              | Normal requestHeaders =>
                  let sent :=
                    dispatch this ep debugPath (prep_url prepared) requestHeaders
                             (prep_body prepared) w in
                  async (mkEff (EvSession sessionData :: trace sent) (outcome sent))
              end
          end
      end
  end.
Proof.
  unfold _generateFetchFunction.
  rewrite async_bind_silent by apply silent_resolveArguments.
  destruct (outcome (resolveArguments a b)) as [[p q]|e]; [|reflexivity].
  rewrite async_bind_silent by apply silent_buildUrl.
  destruct (outcome (_buildUrl this ep p)) as [url|e]; [|reflexivity].
  cbv zeta.
  destruct (headersBefore this _) as [requestHeaders|e]; [|reflexivity].
  rewrite bind_lift_normal, session_snapshot, bind_ret, bind_emit.
  destruct (authorize (snapshot w) requestHeaders) as [requestHeaders'|e]; [|reflexivity].
  rewrite bind_lift_normal. reflexivity.
Qed.

(** The same when the platform accepts the headers. *)
Lemma call_stages_accepted this ep debugPath a b w p q url :
  outcome (resolveArguments a b) = Normal (p, q) ->
  outcome (_buildUrl this ep p) = Normal url ->
  headers_accepted this (snapshot w) = true ->
  let prepared := _prepareRequestBodyAndHeaders (method ep) url q in
  let sent :=
    dispatch this ep debugPath (prep_url prepared)
             (requestHeadersFor this (prep_headers prepared) (snapshot w))
             (prep_body prepared) w in
  _generateFetchFunction this ep debugPath a b w
  = async (mkEff (EvSession (snapshot w) :: trace sent) (outcome sent)).
Proof.
  intros Hargs Hurl Haccepted. cbv zeta. rewrite call_stages, Hargs, Hurl. cbv zeta.
  pose proof (headers_written this (method ep) url q (snapshot w)) as Hheaders.
  cbv zeta in Hheaders.
  destruct (headersBefore this _) as [h|e]; [|destruct Hheaders; congruence].
  destruct (authorize (snapshot w) h) as [h'|e]; [|destruct Hheaders; congruence].
  destruct Hheaders as [_ ->]. reflexivity.
Qed.

(** And when it refuses one: the call is rejected with a TypeError and
    nothing is sent. *)
Lemma call_stages_refused this ep debugPath a b w p q url :
  outcome (resolveArguments a b) = Normal (p, q) ->
  outcome (_buildUrl this ep p) = Normal url ->
  headers_accepted this (snapshot w) = false ->
  exists events message,
    _generateFetchFunction this ep debugPath a b w
    = mkEff events (Normal (Rejected (TypeError message)))
    /\ (events = [] \/ events = [EvSession (snapshot w)]).
Proof.
  intros Hargs Hurl Hrefused. rewrite call_stages, Hargs, Hurl. cbv zeta.
  pose proof (headers_written this (method ep) url q (snapshot w)) as Hheaders.
  cbv zeta in Hheaders.
  destruct (headersBefore this _) as [h|e].
  - destruct (authorize (snapshot w) h) as [h'|e]; [destruct Hheaders; congruence|].
    destruct Hheaders as [_ [message ->]]. eexists _, message. split; [reflexivity|].
    right. reflexivity.
  - destruct Hheaders as [_ [message ->]]. eexists _, message. split; [reflexivity|].
    left. reflexivity.
Qed.
End Call.

(** ** Property tables and headers *)

Lemma prop_lookup_set_eq {A : Type} (key : string) (v : A) (props : list (string * A)) :
  prop_lookup key (prop_set key v props) = Some v.
Proof.
  induction props as [|[k w] rest IH]; simpl.
  - rewrite String.eqb_refl. reflexivity.
  - destruct (String.eqb k key) eqn:Hk; simpl; rewrite Hk; [reflexivity|exact IH].
Qed.

Lemma prop_lookup_set_ne {A : Type} (key key' : string) (v : A)
    (props : list (string * A)) :
  key' <> key ->
  prop_lookup key (prop_set key' v props) = prop_lookup key props.
Proof.
  intros Hne. induction props as [|[k w] rest IH]; simpl.
  - destruct (String.eqb key' key) eqn:Hk; [|reflexivity].
    apply String.eqb_eq in Hk. contradiction.
  - destruct (String.eqb k key') eqn:Hk; simpl.
    + apply String.eqb_eq in Hk. subst k.
      destruct (String.eqb key' key) eqn:Hk'; [|reflexivity].
      apply String.eqb_eq in Hk'. contradiction.
    + destruct (String.eqb k key); [reflexivity|exact IH].
Qed.

Lemma headers_get_set (name value : string) (h : Headers) :
  WebHeaders.get name (WebHeaders.set name value h) = Some (WebHeaders.stored value).
Proof. apply prop_lookup_set_eq. Qed.

Lemma headers_get_set_other (name name' value : string) (h : Headers) :
  Text.to_lower name' <> Text.to_lower name ->
  WebHeaders.get name (WebHeaders.set name' value h) = WebHeaders.get name h.
Proof. apply prop_lookup_set_ne. Qed.

(** ** The dispatcher *)

Lemma requests_app t1 t2 : requests (t1 ++ t2) = (requests t1 ++ requests t2)%list.
Proof. unfold requests. apply flat_map_app. Qed.

Lemma callbackCalls_app t1 t2 :
  callbackCalls (t1 ++ t2) = (callbackCalls t1 ++ callbackCalls t2)%list.
Proof. unfold callbackCalls. apply flat_map_app. Qed.

Section Dispatch.
Context `{Platform}.

(** Reading the body never throws: a failed read is replaced by
    [null].  It shows as at most one [EvReadBody]. *)
Lemma readBody_total httpResponse :
  readBody httpResponse = mret (bodyData httpResponse)
  \/ exists json,
       readBody httpResponse = mkEff [EvReadBody json] (Normal (bodyData httpResponse)).
Proof.
  unfold bodyData, readBody.
  destruct (negb _ && _); [|left; reflexivity].
  destruct (resp_content_type httpResponse) as [contentType|]; [|left; reflexivity].
  destruct (Text.includes "application/json" contentType).
  { right. exists true. destruct (resp_json httpResponse); reflexivity. }
  destruct (Text.includes "text/" contentType); [|left; reflexivity].
  right. exists false. destruct (resp_text httpResponse); reflexivity.
Qed.

Lemma readBody_outcome httpResponse :
  outcome (readBody httpResponse) = Normal (bodyData httpResponse).
Proof. destruct (readBody_total httpResponse) as [->|[json ->]]; reflexivity. Qed.

Lemma readBody_requests httpResponse : requests (trace (readBody httpResponse)) = [].
Proof. destruct (readBody_total httpResponse) as [->|[json ->]]; reflexivity. Qed.

Lemma readBody_callbackCalls httpResponse :
  callbackCalls (trace (readBody httpResponse)) = [].
Proof. destruct (readBody_total httpResponse) as [->|[json ->]]; reflexivity. Qed.

Lemma get_prop_defined v key :
  is_nullish v = false -> get_prop v key = Normal (get_prop_opt v key).
Proof.
  unfold get_prop_opt.
  destruct v; simpl; intros Hv; try discriminate;
    repeat destruct (String.eqb _ _); reflexivity.
Qed.

Lemma networkErrorEnvelope_cases ep debugPath url error :
  exists message,
    networkErrorEnvelope ep debugPath url error =
    mkEff [EvError message error]
          (if is_nullish error
           then Throw (TypeError ("Cannot read properties of "
                                  ++ ToString error ++ " (reading 'name')"))
           else Normal (failureEnvelope error)).
Proof.
  unfold networkErrorEnvelope. eexists. rewrite bind_emit.
  destruct (is_nullish error) eqn:Hnull.
  - destruct error; try discriminate; reflexivity.
  - rewrite !(get_prop_defined _ _ Hnull), bind_lift_normal.
    unfold failureEnvelope, failureMessage.
    destruct (strict_eq_str _ _).
    + rewrite bind_ret. reflexivity.
    + rewrite bind_lift_normal, bind_ret. reflexivity.
Qed.

Lemma interceptCredential_cases this result :
  interceptCredential this result =
  if status result =? 401
  then
    let run := onInvalidCredential this result in
    match cb_completion run with
    | Throw e => mkEff [EvCallback result] (Throw e)
    | Normal (RetPromise (Rejected e)) =>
        mkEff [EvCallback result; EvAwaitCallback (RetPromise (Rejected e))] (Throw e)
    | Normal returned =>
        mkEff [EvCallback result; EvAwaitCallback returned] (Normal (cb_envelope run))
    end
  else mret result.
Proof.
  unfold interceptCredential. destruct (status result =? 401); [|reflexivity].
  rewrite bind_emit. cbv zeta.
  destruct (cb_completion (onInvalidCredential this result)) as [[|[u|e]]|e];
    reflexivity.
Qed.

Lemma attempt_cases this ep url requestHeaders body w :
  attempt this ep url requestHeaders body w =
  if valid_timeout (requestTimeout this)
  then
    let request :=
      mkRequest (WebURL.href url) (method ep) requestHeaders body
                (requestTimeout this) "include" in
    match transport w request with
    | Rejected e => mkEff [EvFetch request] (Throw e)
    | Fulfilled httpResponse =>
        let result :=
          mkEnvelope (resp_ok httpResponse) (resp_ok httpResponse)
                     (normalizeErrorMessage (bodyData httpResponse))
                     (resp_status httpResponse) in
        mkEff (EvFetch request
               :: trace (readBody httpResponse) ++ trace (interceptCredential this result))
              (outcome (interceptCredential this result))
    end
  else throw (TypeError "Value is outside the 'unsigned long long' value range.").
Proof.
  unfold attempt, AbortSignal_timeout, valid_timeout.
  destruct (_ && _); [|reflexivity].
  rewrite bind_ret, bind_emit. cbv zeta.
  destruct (transport w _) as [httpResponse|e]; [|reflexivity].
  simpl await. rewrite bind_ret.
  rewrite (bind_normal _ _ _ (readBody_outcome httpResponse)). reflexivity.
Qed.

Lemma try_catch_normal {A : Type} (t : list Event) (a : A) handler :
  try_catch (mkEff t (Normal a)) handler = mkEff t (Normal a).
Proof. reflexivity. Qed.

Lemma try_catch_throw {A : Type} (t : list Event) (e : JsValue)
    (handler : JsValue -> Eff A) :
  try_catch (mkEff t (Throw e)) handler =
  mkEff (t ++ trace (handler e)) (outcome (handler e)).
Proof. reflexivity. Qed.

(** Every way the [try] statement can go. *)
Lemma dispatch_cases this ep debugPath url requestHeaders body w :
  let request :=
    mkRequest (WebURL.href url) (method ep) requestHeaders body
              (requestTimeout this) "include" in
  dispatch this ep debugPath url requestHeaders body w =
  if valid_timeout (requestTimeout this)
  then
    match transport w request with
    | Rejected e => caught ep debugPath url [EvFetch request] e
    | Fulfilled httpResponse =>
        let result := envelopeOf httpResponse in
        let sofar := EvFetch request :: trace (readBody httpResponse) in
        if status result =? 401
        then
          let run := onInvalidCredential this result in
          match cb_completion run with
          | Throw e => caught ep debugPath url (sofar ++ [EvCallback result]) e
          | Normal (RetPromise (Rejected e)) =>
              caught ep debugPath url
                (sofar ++ [EvCallback result; EvAwaitCallback (RetPromise (Rejected e))]) e
          | Normal returned =>
              mkEff (sofar ++ [EvCallback result; EvAwaitCallback returned])
                    (Normal (cb_envelope run))
          end
        else mkEff sofar (Normal result)
    end
  else caught ep debugPath url []
         (TypeError "Value is outside the 'unsigned long long' value range.").
Proof.
  cbv zeta. unfold dispatch. rewrite attempt_cases.
  destruct (valid_timeout (requestTimeout this)); [|reflexivity].
  cbv zeta. destruct (transport w _) as [httpResponse|e]; [|reflexivity].
  fold (envelopeOf httpResponse).
  rewrite interceptCredential_cases.
  destruct (status (envelopeOf httpResponse) =? 401).
  - cbv zeta.
    destruct (cb_completion _) as [[|[u|e]]|e]; simpl trace; simpl outcome;
      rewrite ?try_catch_normal, ?try_catch_throw; unfold caught;
      rewrite <- ?app_comm_cons; reflexivity.
  - simpl trace. simpl outcome. rewrite try_catch_normal, app_nil_r. reflexivity.
Qed.

Lemma caught_requests ep debugPath url before error :
  requests (trace (caught ep debugPath url before error)) = requests before.
Proof.
  unfold caught. destruct (networkErrorEnvelope_cases ep debugPath url error) as [m ->].
  simpl trace. rewrite requests_app. simpl. apply app_nil_r.
Qed.

Lemma caught_callbackCalls ep debugPath url before error :
  callbackCalls (trace (caught ep debugPath url before error)) = callbackCalls before.
Proof.
  unfold caught. destruct (networkErrorEnvelope_cases ep debugPath url error) as [m ->].
  simpl trace. rewrite callbackCalls_app. simpl. apply app_nil_r.
Qed.

Lemma caught_outcome ep debugPath url before error :
  is_nullish error = false ->
  outcome (caught ep debugPath url before error) = Normal (failureEnvelope error).
Proof.
  intros Hnull. unfold caught.
  destruct (networkErrorEnvelope_cases ep debugPath url error) as [m ->].
  simpl. rewrite Hnull. reflexivity.
Qed.

(** A call sends at most one request, and only with a valid delay. *)
Lemma dispatch_requests this ep debugPath url requestHeaders body w :
  requests (trace (dispatch this ep debugPath url requestHeaders body w)) =
  if valid_timeout (requestTimeout this)
  then [mkRequest (WebURL.href url) (method ep) requestHeaders body
                  (requestTimeout this) "include"]
  else [].
Proof.
  rewrite dispatch_cases. cbv zeta.
  destruct (valid_timeout _); [|apply caught_requests].
  destruct (transport w _) as [httpResponse|e]; [|apply caught_requests].
  assert (Hsofar : forall request tail,
             requests tail = [] ->
             requests ((EvFetch request :: trace (readBody httpResponse)) ++ tail)
             = [request]).
  { intros request tail Htail. rewrite requests_app, Htail, app_nil_r.
    change (requests (EvFetch request :: ?t)) with (request :: requests t).
    rewrite readBody_requests. reflexivity. }
  destruct (status _ =? 401).
  - destruct (cb_completion _) as [[|[u|e]]|e]; rewrite ?caught_requests;
      try (simpl trace); apply Hsofar; reflexivity.
  - simpl trace. rewrite <- (app_nil_r (_ :: _)). apply Hsofar. reflexivity.
Qed.
End Dispatch.

(** ** Calls *)

Section Calls.
Context `{Platform}.

(** A request shows in the trace of a call only when the arguments were
    resolved, the URL was built and the delay is valid; it is then the
    request of the resolved payload, and the call is the session read
    followed by the [try] statement. *)
Lemma call_sends this ep debugPath a b w request :
  In request (requests (trace (_generateFetchFunction this ep debugPath a b w))) ->
  exists pathParamsSource payloadSource url,
    outcome (resolveArguments a b) = Normal (pathParamsSource, payloadSource)
    /\ outcome (_buildUrl this ep pathParamsSource) = Normal url
    /\ valid_timeout (requestTimeout this) = true
    /\ request = requestFor this ep url payloadSource (snapshot w)
    /\ let prepared := _prepareRequestBodyAndHeaders (method ep) url payloadSource in
       let sent :=
         dispatch this ep debugPath (prep_url prepared) (req_headers request)
                  (prep_body prepared) w in
       _generateFetchFunction this ep debugPath a b w =
       async (mkEff (EvSession (snapshot w) :: trace sent) (outcome sent)).
Proof.
  destruct (outcome (resolveArguments a b)) as [[p q]|e] eqn:Hargs;
    [|rewrite call_stages, Hargs; intros []].
  destruct (outcome (_buildUrl this ep p)) as [url|e] eqn:Hurl;
    [|rewrite call_stages, Hargs, Hurl; intros []].
  destruct (headers_accepted this (snapshot w)) eqn:Haccepted.
  - rewrite (call_stages_accepted _ _ _ _ _ _ _ _ _ Hargs Hurl Haccepted).
    cbv zeta. unfold async. cbn [trace].
    change (requests (EvSession ?s :: ?t)) with (requests t).
    rewrite dispatch_requests.
    destruct (valid_timeout (requestTimeout this)); [|intros []].
    intros [<-|[]]. exists p, q, url.
    split; [first [exact Hargs|reflexivity]|].
    split; [first [exact Hurl|reflexivity]|].
    repeat split; reflexivity.
  - destruct (call_stages_refused _ _ debugPath _ _ _ _ _ _ Hargs Hurl Haccepted)
      as (events & message & -> & [-> | ->]); intros [].
Qed.

(** A call that does not get as far as the request leaves no trace of
    one: its promise is rejected before anything is read or sent. *)
Lemma call_rejected_early this ep debugPath a b w e :
  outcome (resolveArguments a b) = Throw e ->
  _generateFetchFunction this ep debugPath a b w = mkEff [] (Normal (Rejected e)).
Proof. intros He. rewrite call_stages, He. reflexivity. Qed.

(** What a call does once its request was answered or refused: the
    [try] statement run on that very request. *)
Lemma call_after_request this ep debugPath a b w request :
  In request (requests (trace (_generateFetchFunction this ep debugPath a b w))) ->
  exists url,
    valid_timeout (requestTimeout this) = true
    /\ request = mkRequest (WebURL.href url) (method ep) (req_headers request)
                           (req_body request) (requestTimeout this) "include"
    /\ let sent :=
         dispatch this ep debugPath url (req_headers request) (req_body request) w in
       _generateFetchFunction this ep debugPath a b w =
       async (mkEff (EvSession (snapshot w) :: trace sent) (outcome sent)).
Proof.
  intros Hin.
  destruct (call_sends _ _ _ _ _ _ _ Hin) as (p & q & url & _ & _ & Hvalid & Hreq & Hcall).
  exists (prep_url (_prepareRequestBodyAndHeaders (method ep) url q)).
  split; [exact Hvalid|]. split.
  - subst request. reflexivity.
  - cbv zeta in *. rewrite Hcall. subst request. reflexivity.
Qed.

(** C1 (as amended).  When the response of a call has status 401,
    [onInvalidCredential] is called exactly once, with an envelope whose
    [status] is 401 and whose [success] and [ok] are false.  When the
    callback returns, what it returned is awaited.  Unless the awaited
    promise is rejected, that await is the last thing the call does and
    the call resolves with the envelope object the callback was handed,
    as the callback left it.  When the awaited promise is rejected, the
    [catch] block runs after the await: it logs the exception, and the
    call resolves with the envelope of a client-side failure (or, for
    an exception that is [undefined] or [null], is rejected with the
    TypeError of the [catch] block). *)
Theorem unauthorized_calls_back_once_and_awaits this ep debugPath a b w request httpResponse :
  let call := _generateFetchFunction this ep debugPath a b w in
  In request (requests (trace call)) ->
  transport w request = Fulfilled httpResponse ->
  resp_status httpResponse = 401 ->
  let result := envelopeOf httpResponse in
  let run := onInvalidCredential this result in
  status result = 401 /\ success result = false /\ ok result = false
  /\ callbackCalls (trace call) = [result]
  /\ forall returned,
       cb_completion run = Normal returned ->
       exists before,
         match returned with
         | RetPromise (Rejected e) =>
             exists message,
               trace call
               = (before ++ [EvCallback result; EvAwaitCallback returned;
                             EvError message e])%list
               /\ outcome call
                  = if is_nullish e
                    then Normal (Rejected (TypeError ("Cannot read properties of "
                                                      ++ ToString e
                                                      ++ " (reading 'name')")))
                    else Normal (Fulfilled
                                   (mkEnvelope false false
                                      (VObj [("message", failureMessage e);
                                             ("errorDetails", e)]) 0))
         | _ =>
             trace call = (before ++ [EvCallback result; EvAwaitCallback returned])%list
             /\ outcome call = Normal (Fulfilled (cb_envelope run))
         end.
Proof.
  intros call Hin Hresp Hstatus result run.
  assert (Hres : status result = 401) by exact Hstatus.
  assert (Hok : resp_ok httpResponse = false).
  { unfold resp_ok. rewrite Hstatus. reflexivity. }
  split; [exact Hres|]. split; [exact Hok|]. split; [exact Hok|].
  destruct (call_after_request _ _ _ _ _ _ _ Hin) as (url & Hvalid & Hreq & Hcall).
  cbv zeta in Hcall. subst call. rewrite Hcall. clear Hcall Hin.
  rewrite dispatch_cases. cbv zeta. rewrite Hvalid, <- Hreq, Hresp.
  fold result. rewrite Hres. simpl (401 =? 401). cbv iota. fold run.
  assert (Hcalls : forall tail,
             callbackCalls tail = [] ->
             callbackCalls
               (EvSession (snapshot w)
                :: ((EvFetch request :: trace (readBody httpResponse))
                    ++ EvCallback result :: tail)) = [result]).
  { intros tail Htail.
    change (callbackCalls (EvSession ?s :: ?t)) with (callbackCalls t).
    rewrite callbackCalls_app.
    change (callbackCalls (EvFetch ?r :: ?t)) with (callbackCalls t).
    rewrite readBody_callbackCalls.
    change (callbackCalls (EvCallback ?r :: ?t)) with (r :: callbackCalls t).
    rewrite Htail. reflexivity. }
  unfold async.
  destruct (cb_completion run) as [returned|e] eqn:Hrun.
  - destruct returned as [|[u|e]]; cbn [trace outcome].
    + split; [apply Hcalls; reflexivity|].
      intros returned [= <-].
      exists (EvSession (snapshot w) :: EvFetch request :: trace (readBody httpResponse)).
      split; reflexivity.
    + split; [apply Hcalls; reflexivity|].
      intros returned [= <-].
      exists (EvSession (snapshot w) :: EvFetch request :: trace (readBody httpResponse)).
      split; reflexivity.
    + split.
      * change (callbackCalls (EvSession ?s :: ?t)) with (callbackCalls t).
        rewrite caught_callbackCalls.
        change (callbackCalls ?t) with (callbackCalls (EvSession (snapshot w) :: t)).
        apply Hcalls. reflexivity.
      * intros returned [= <-]. unfold caught.
        destruct (networkErrorEnvelope_cases ep debugPath url e) as [message ->].
        cbn [trace outcome].
        exists (EvSession (snapshot w) :: EvFetch request :: trace (readBody httpResponse)).
        exists message. split.
        -- cbn [app]. rewrite <- !app_assoc. reflexivity.
        -- destruct (is_nullish e); reflexivity.
  - cbn [trace outcome]. split.
    + change (callbackCalls (EvSession ?s :: ?t)) with (callbackCalls t).
      rewrite caught_callbackCalls.
      change (callbackCalls ?t) with (callbackCalls (EvSession (snapshot w) :: t)).
      apply Hcalls. reflexivity.
    + intros returned [=].
Qed.

(** C2 (as amended).  The call of [onInvalidCredential] stands inside
    the [try] block.  When the callback throws, or the promise it
    returned is rejected, on a 401 response, the [catch] block of the
    generated function takes the exception: the call resolves with the
    envelope of a client-side failure, whose [status] is 0, whose
    [success] and [ok] are false and whose [response] holds the
    exception as [errorDetails].  Only an exception that is [undefined]
    or [null] gets past the block: reading its [name] throws a TypeError
    there, and the promise of the call is rejected with that. *)
Theorem callback_failure_is_caught this ep debugPath a b w request httpResponse e :
  let call := _generateFetchFunction this ep debugPath a b w in
  In request (requests (trace call)) ->
  transport w request = Fulfilled httpResponse ->
  resp_status httpResponse = 401 ->
  let run := onInvalidCredential this (envelopeOf httpResponse) in
  cb_completion run = Throw e \/ cb_completion run = Normal (RetPromise (Rejected e)) ->
  if is_nullish e
  then outcome call
       = Normal (Rejected (TypeError ("Cannot read properties of " ++ ToString e
                                      ++ " (reading 'name')")))
  else outcome call
       = Normal (Fulfilled
                   (mkEnvelope false false
                      (VObj [("message", failureMessage e); ("errorDetails", e)]) 0)).
Proof.
  intros call Hin Hresp Hstatus run Hrun.
  destruct (call_after_request _ _ _ _ _ _ _ Hin) as (url & Hvalid & Hreq & Hcall).
  cbv zeta in Hcall. subst call. rewrite Hcall. clear Hcall Hin.
  rewrite dispatch_cases. cbv zeta. rewrite Hvalid, <- Hreq, Hresp.
  change (status (envelopeOf httpResponse)) with (resp_status httpResponse).
  rewrite Hstatus. simpl (401 =? 401). cbv iota. fold run.
  assert (Hcaught : forall before,
             outcome (async (mkEff (EvSession (snapshot w)
                                    :: trace (caught ep debugPath url before e))
                                   (outcome (caught ep debugPath url before e))))
             = if is_nullish e
               then Normal (Rejected (TypeError ("Cannot read properties of "
                                                 ++ ToString e ++ " (reading 'name')")))
               else Normal (Fulfilled (failureEnvelope e))).
  { intros before. unfold async, caught. cbn [outcome].
    destruct (networkErrorEnvelope_cases ep debugPath url e) as [m ->].
    cbn [outcome]. destruct (is_nullish e); reflexivity. }
  destruct Hrun as [-> | ->]; rewrite Hcaught; destruct (is_nullish e); reflexivity.
Qed.

(** C5 (as amended).  When [fetch] itself is rejected, by the timeout or
    by any other failure, with an exception that is an object, the call
    resolves with an envelope whose [status] is 0 and whose [success] and
    [ok] are false.  Its [response.message] is 'Request timed out' when
    the [name] of the exception is 'TimeoutError'; otherwise it is the
    [message] of the exception, or 'A client-side error occurred.' when
    that message is missing or empty. *)
Theorem rejected_fetch_resolves_with_status_zero this ep debugPath a b w request e :
  let call := _generateFetchFunction this ep debugPath a b w in
  In request (requests (trace call)) ->
  transport w request = Rejected e ->
  is_nullish e = false ->
  outcome call
  = Normal (Fulfilled
      (mkEnvelope false false
         (VObj [("message",
                 if strict_eq_str (get_prop_opt e "name") "TimeoutError"
                 then VStr "Request timed out"
                 else if truthy (get_prop_opt e "message")
                      then get_prop_opt e "message"
                      else VStr "A client-side error occurred.");
                ("errorDetails", e)])
         0)).
Proof.
  intros call Hin Hresp Hnull.
  destruct (call_after_request _ _ _ _ _ _ _ Hin) as (url & Hvalid & Hreq & Hcall).
  cbv zeta in Hcall. subst call. rewrite Hcall. clear Hcall Hin.
  rewrite dispatch_cases. cbv zeta. rewrite Hvalid, <- Hreq, Hresp.
  unfold async. cbn [outcome]. rewrite (caught_outcome _ _ _ _ _ Hnull).
  reflexivity.
Qed.

(** The first thing the [try] statement does with a valid delay is to
    call [fetch]. *)
Lemma dispatch_starts_with_fetch this ep debugPath url requestHeaders body w :
  valid_timeout (requestTimeout this) = true ->
  exists rest,
    trace (dispatch this ep debugPath url requestHeaders body w)
    = EvFetch (mkRequest (WebURL.href url) (method ep) requestHeaders body
                         (requestTimeout this) "include") :: rest.
Proof.
  intros Hvalid. rewrite dispatch_cases. cbv zeta. rewrite Hvalid.
  destruct (transport w _) as [httpResponse|e].
  - destruct (status _ =? 401).
    + destruct (cb_completion _) as [[|[u|e]]|e]; unfold caught; cbn [trace];
        rewrite <- ?app_comm_cons; eauto.
    + cbn [trace]. eauto.
  - unfold caught. cbn [trace]. rewrite <- app_comm_cons. eauto.
Qed.

(** A request is sent only when the platform accepted the headers. *)
Lemma call_sends_accepted this ep debugPath a b w request :
  In request (requests (trace (_generateFetchFunction this ep debugPath a b w))) ->
  headers_accepted this (snapshot w) = true.
Proof.
  intros Hin.
  destruct (outcome (resolveArguments a b)) as [[p q]|e] eqn:Hargs;
    [|rewrite call_stages, Hargs in Hin; destruct Hin].
  destruct (outcome (_buildUrl this ep p)) as [url|e] eqn:Hurl;
    [|rewrite call_stages, Hargs, Hurl in Hin; destruct Hin].
  destruct (headers_accepted this (snapshot w)) eqn:Haccepted; [reflexivity|].
  destruct (call_stages_refused _ _ debugPath _ _ _ _ _ _ Hargs Hurl Haccepted)
    as (events & message & Hcall & [-> | ->]); rewrite Hcall in Hin; destruct Hin.
Qed.

(** Values the platform stores as they are. *)
Lemma byte_string_ascii (s : string) :
  Text.all_chars (fun c => (nat_of_ascii c <? 128)%nat) s = true ->
  WebHeaders.byte_string s = Some s.
Proof.
  induction s as [|c s IH]; [reflexivity|].
  cbn [Text.all_chars WebHeaders.byte_string]. intros Hs.
  apply andb_true_iff in Hs. destruct Hs as [Hc Hs].
  rewrite Hc, (IH Hs). reflexivity.
Qed.

Lemma strip_trailing_append (p t : string) :
  WebHeaders.strip_trailing t <> "" ->
  WebHeaders.strip_trailing (p ++ t) = p ++ WebHeaders.strip_trailing t.
Proof.
  intros Ht. induction p as [|c p IH]; [reflexivity|].
  change (String c p ++ t) with (String c (p ++ t)).
  cbn [WebHeaders.strip_trailing]. rewrite IH.
  destruct (WebHeaders.strip_trailing t) as [|d r]; [contradiction|].
  destruct p; reflexivity.
Qed.

Lemma strip_trailing_visible (t : string) :
  visible t = true -> WebHeaders.strip_trailing t = t.
Proof.
  unfold visible. induction t as [|c t IH]; [reflexivity|].
  cbn [Text.all_chars WebHeaders.strip_trailing]. intros Ht.
  apply andb_true_iff in Ht. destruct Ht as [Hc Ht]. rewrite (IH Ht).
  destruct t as [|d t]; [|reflexivity].
  assert (Hws : WebHeaders.is_whitespace c = false).
  { unfold WebHeaders.is_whitespace. apply andb_true_iff in Hc. destruct Hc as [Hlow _].
    apply Nat.leb_le in Hlow.
    repeat (apply orb_false_iff; split); apply Nat.eqb_neq; lia. }
  rewrite Hws. reflexivity.
Qed.

Lemma visible_ascii (t : string) :
  visible t = true ->
  Text.all_chars (fun c => (nat_of_ascii c <? 128)%nat) t = true.
Proof.
  unfold visible. induction t as [|c t IH]; [reflexivity|].
  cbn [Text.all_chars]. intros Ht. apply andb_true_iff in Ht.
  destruct Ht as [Hc Ht]. rewrite (IH Ht), andb_true_r.
  apply andb_true_iff in Hc. destruct Hc as [_ Hhigh].
  apply Nat.leb_le in Hhigh. apply Nat.ltb_lt. lia.
Qed.

(** The bearer header of a token of visible characters is the text
    [Bearer], a space and the token. *)
Lemma stored_bearer (t : string) :
  visible t = true -> t <> "" -> WebHeaders.stored ("Bearer " ++ t) = "Bearer " ++ t.
Proof.
  intros Hvisible Ht. unfold WebHeaders.stored.
  assert (Hbytes : WebHeaders.byte_string ("Bearer " ++ t) = Some ("Bearer " ++ t)).
  { apply byte_string_ascii.
    change ("Bearer " ++ t)
      with (String "B" (String "e" (String "a" (String "r" (String "e" (String "r"
              (String " " t))))))).
    cbn [Text.all_chars]. exact (visible_ascii t Hvisible). }
  rewrite Hbytes.
  change (default ("Bearer " ++ t) (Some ("Bearer " ++ t))) with ("Bearer " ++ t).
  unfold WebHeaders.normalize.
  change (WebHeaders.strip_leading ("Bearer " ++ t)) with ("Bearer " ++ t).
  rewrite strip_trailing_append, (strip_trailing_visible t Hvisible); [reflexivity|].
  rewrite (strip_trailing_visible t Hvisible). exact Ht.
Qed.

(** C9 (as amended).  A call that sends a request, with a storage none
    of whose items is named like a property every object inherits.
    Before the request is sent the session is read.  When the [token]
    of the snapshot is the non-empty string [t], and also when [token]
    is missing or falsy and [access_token] is the non-empty string [t],
    the platform had accepted [Bearer t] as a header value and the
    request carries it under [Authorization] as the platform stores it:
    the bytes of the text without whitespace at either end, which for a
    token of visible ASCII characters is [Bearer t] itself.  When
    neither field is a non-empty string, the headers of the request are
    the default headers with what the encoder set and nothing else.  (A
    [token] that is truthy but not a string is not covered by the first
    two cases.) *)
Theorem bearer_token_from_session this ep debugPath a b w request :
  let call := _generateFetchFunction this ep debugPath a b w in
  In request (requests (trace call)) ->
  plain_storage w = true ->
  let sessionData := snapshot w in
  let token := get_prop_opt sessionData "token" in
  let access_token := get_prop_opt sessionData "access_token" in
  exists encoderHeaders rest,
    trace call = EvSession sessionData :: EvFetch request :: rest
    /\ (encoderHeaders = [] \/ encoderHeaders = [("Content-Type", "application/json")])
    /\ let merged :=
         fold_left (fun h nv => WebHeaders.set (fst nv) (snd nv) h) encoderHeaders
                   (WebHeaders.of_record (defaultHeaders this)) in
       let bearer := fun t =>
         req_headers request = WebHeaders.set "Authorization" ("Bearer " ++ t) merged
         /\ WebHeaders.accepts "Authorization" ("Bearer " ++ t) = true
         /\ WebHeaders.get "Authorization" (req_headers request)
            = Some (WebHeaders.stored ("Bearer " ++ t))
         /\ (visible t = true ->
             WebHeaders.get "Authorization" (req_headers request)
             = Some ("Bearer " ++ t)) in
       (forall t, token = VStr t -> t <> "" -> bearer t)
       /\ (forall t, truthy token = false -> access_token = VStr t -> t <> "" -> bearer t)
       /\ ((forall t, token = VStr t -> t = "") ->
           (forall t, access_token = VStr t -> t = "") ->
           req_headers request = merged).
Proof.
  intros call Hin _ sessionData token access_token.
  pose proof (call_sends_accepted _ _ _ _ _ _ _ Hin) as Haccepted.
  destruct (call_sends _ _ _ _ _ _ _ Hin)
    as (p & q & url & _ & _ & Hvalid & Hreq & Hcall).
  cbv zeta in Hcall.
  set (prepared := _prepareRequestBodyAndHeaders (method ep) url q) in *.
  destruct (dispatch_starts_with_fetch this ep debugPath (prep_url prepared)
              (req_headers request) (prep_body prepared) w Hvalid) as [rest Hrest].
  exists (prep_headers prepared), rest.
  split.
  { subst call. rewrite Hcall. unfold async. cbn [trace]. rewrite Hrest.
    do 2 f_equal. subst request. reflexivity. }
  split; [apply prepared_headers|].
  cbv zeta.
  assert (Hh : req_headers request
               = requestHeadersFor this (prep_headers prepared) sessionData).
  { subst request. reflexivity. }
  rewrite Hh. unfold requestHeadersFor, sessionToken.
  unfold headers_accepted, sessionToken in Haccepted.
  apply andb_true_iff in Haccepted. destruct Haccepted as [_ Haccepted].
  fold sessionData token access_token in Haccepted |- *.
  assert (Hnonempty : forall t, t <> "" -> truthy (VStr t) = true).
  { intros t Ht. simpl. destruct (String.eqb t "") eqn:E; [|reflexivity].
    apply String.eqb_eq in E. contradiction. }
  assert (Hbearer : forall t (h : Headers),
             t <> "" -> js_or token access_token = VStr t ->
             WebHeaders.accepts "Authorization" ("Bearer " ++ t) = true
             /\ WebHeaders.get "Authorization"
                  (WebHeaders.set "Authorization" ("Bearer " ++ t) h)
                = Some (WebHeaders.stored ("Bearer " ++ t))
             /\ (visible t = true ->
                 WebHeaders.get "Authorization"
                   (WebHeaders.set "Authorization" ("Bearer " ++ t) h)
                 = Some ("Bearer " ++ t))).
  { intros t h Ht Hor. rewrite Hor, (Hnonempty t Ht) in Haccepted.
    split; [exact Haccepted|]. split; [apply headers_get_set|].
    intros Hvisible. rewrite headers_get_set, (stored_bearer t Hvisible Ht). reflexivity. }
  split; [|split].
  - intros t Htoken Ht.
    assert (Hor : js_or token access_token = VStr t).
    { unfold js_or. rewrite Htoken, (Hnonempty t Ht). reflexivity. }
    rewrite Hor, (Hnonempty t Ht). split; [reflexivity|]. apply Hbearer; assumption.
  - intros t Htoken Haccess Ht.
    assert (Hor : js_or token access_token = VStr t).
    { unfold js_or. rewrite Htoken. exact Haccess. }
    rewrite Hor, (Hnonempty t Ht). split; [reflexivity|]. apply Hbearer; assumption.
  - intros Htoken Haccess. unfold js_or.
    destruct (truthy token) eqn:Htruthy.
    + destruct token as [| |?|?|t|?|? ?|?|?]; try reflexivity.
      rewrite (Htoken t eq_refl) in Htruthy. discriminate.
    + destruct access_token as [| |?|?|t|?|? ?|?|?]; try reflexivity.
      rewrite (Haccess t eq_refl). reflexivity.
Qed.

(** ** The argument resolver *)

(** The error thrown for a value of [$params] that is an object. *)
Lemma check_params_cases (entries : list (string * JsValue)) :
  forEach_props
    (fun key value (acc : Eff unit) =>
       _ ← acc;
       if is_object value
       then throw (VError "Error"
              ("Path parameter '" ++ key
               ++ "' in $params cannot be an object. Received: "
               ++ default EmptyString (JSON_stringify value)))
       else mret tt)
    entries (mret tt)
  = match find (fun kv => is_object (snd kv)) entries with
    | Some (key, value) =>
        throw (VError "Error"
                 ("Path parameter '" ++ key
                  ++ "' in $params cannot be an object. Received: "
                  ++ default EmptyString (JSON_stringify value)))
    | None => mret tt
    end.
Proof.
  set (f := fun key value (acc : Eff unit) => _).
  assert (Hthrow : forall l e, forEach_props f l (throw e) = throw e).
  { induction l as [|[k v] rest IH]; intros e; simpl; [reflexivity|].
    unfold f at 2. rewrite (bind_throw _ _ e) by reflexivity. apply IH. }
  induction entries as [|[k v] rest IH]; simpl; [reflexivity|].
  unfold f at 2. rewrite bind_ret.
  destruct (is_object v); [apply Hthrow|exact IH].
Qed.

(** The block on a single object argument whose [$params] is an
    object. *)
Lemma resolveArguments_with_params arg params :
  is_object arg = true ->
  prop_lookup "$params" (spread arg) = Some params ->
  is_object params = true ->
  resolveArguments arg VUndefined
  = match find (fun kv => is_object (snd kv)) (own_entries params) with
    | Some (key, value) =>
        throw (VError "Error"
                 ("Path parameter '" ++ key
                  ++ "' in $params cannot be an object. Received: "
                  ++ default EmptyString (JSON_stringify value)))
    | None => mret (params, VObj (prop_delete "$params" (spread arg)))
    end.
Proof.
  intros Harg Hparams Hobj.
  unfold resolveArguments. simpl (negb _). cbv iota. rewrite Harg, Hparams.
  simpl (default _ _).
  assert (Htest : truthy params && String.eqb (typeof params) "object" = true)
    by (destruct params; try discriminate; reflexivity).
  rewrite Htest, check_params_cases.
  destruct (find _ _) as [[key value]|]; [reflexivity|].
  rewrite bind_ret. reflexivity.
Qed.

(** The block on a single object argument without a [$params] that is
    an object. *)
Lemma resolveArguments_without_params arg :
  is_object arg = true ->
  is_object (default VUndefined (prop_lookup "$params" (spread arg))) = false ->
  resolveArguments arg VUndefined = mret (VUndefined, VObj (spread arg)).
Proof.
  intros Harg Hparams.
  unfold resolveArguments. simpl (negb _). cbv iota. rewrite Harg.
  destruct (default VUndefined (prop_lookup "$params" (spread arg))) as [| |b|n|s| | | |];
    try discriminate; try reflexivity.
  - destruct b; reflexivity.
  - simpl. destruct (negb (n =? 0)); reflexivity.
  - simpl. destruct (negb (String.eqb s "")); reflexivity.
Qed.

(** The block on an argument that is not an object, or with a second
    argument. *)
Lemma resolveArguments_scalar a :
  is_object a = false -> resolveArguments a VUndefined = mret (a, VUndefined).
Proof. intros Ha. unfold resolveArguments. simpl (negb _). cbv iota. rewrite Ha. reflexivity. Qed.

Lemma resolveArguments_direct a b :
  is_undefined b = false -> resolveArguments a b = mret (a, b).
Proof. intros Hb. unfold resolveArguments. rewrite Hb. reflexivity. Qed.

(** C7 (as amended).  A call with a single object argument whose
    [$params] is an object.  When a value under [$params] is itself an
    object or array, the generated function, being [async], does not
    throw: it returns a promise rejected with the validation Error that
    names the first such key.  Nothing was read or sent by then: the
    trace of the call is empty.  When every value under [$params] is a
    scalar, [$params] is the source of path parameters and the payload
    is a copy of the argument without the key [$params]. *)
Theorem params_validated_before_any_activity this ep debugPath arg params w :
  is_object arg = true ->
  prop_lookup "$params" (spread arg) = Some params ->
  is_object params = true ->
  match find (fun kv => is_object (snd kv)) (own_entries params) with
  | Some (key, value) =>
      _generateFetchFunction this ep debugPath arg VUndefined w
      = mkEff []
          (Normal (Rejected
             (VError "Error"
                ("Path parameter '" ++ key
                 ++ "' in $params cannot be an object. Received: "
                 ++ default EmptyString (JSON_stringify value)))))
  | None =>
      resolveArguments arg VUndefined
      = mret (params, VObj (prop_delete "$params" (spread arg)))
  end.
Proof.
  intros Harg Hparams Hobj.
  pose proof (resolveArguments_with_params arg params Harg Hparams Hobj) as Hres.
  destruct (find _ _) as [[key value]|]; [|exact Hres].
  apply call_rejected_early. rewrite Hres. reflexivity.
Qed.

(** ** The payload encoder *)

Lemma fold_left_flat_map {A B C : Type} (f : A -> B -> A) (g : C -> list B)
    (l : list C) (a : A) :
  fold_left f (flat_map g l) a = fold_left (fun a x => fold_left f (g x) a) l a.
Proof.
  revert a. induction l as [|x rest IH]; intros a; simpl; [reflexivity|].
  rewrite fold_left_app. apply IH.
Qed.

(** The [forEach] of the GET and DELETE branch makes, in order, one
    [append] for each pair the specification lists. *)
Lemma appendQuery_queryPairs payloadSource url :
  appendQuery payloadSource url
  = fold_left (fun u kv => WebURL.searchParams_append (fst kv) (snd kv) u)
              (queryPairs (own_entries payloadSource)) url.
Proof.
  unfold appendQuery, queryPairs. rewrite fold_left_flat_map.
  generalize (own_entries payloadSource) as entries. intros entries. revert url.
  induction entries as [|[key val] rest IH]; intros url; simpl; [reflexivity|].
  rewrite IH. f_equal.
  destruct val as [| |?|?|?|?|? ?|items|?]; try reflexivity.
  simpl. rewrite fold_left_flat_map. revert url.
  induction items as [|item items IHitems]; intros url; simpl; [reflexivity|].
  rewrite IHitems. f_equal. destruct item; reflexivity.
Qed.

(** A File among the values of an object, or in an array among them, is
    a File inside the object. *)
Lemma hasFiles_containsFile props :
  hasFiles (VObj props) = true -> containsFile (VObj props) = true.
Proof.
  unfold hasFiles. simpl. induction props as [|[k v] rest IH]; simpl; [discriminate|].
  intros Hfiles. apply orb_true_iff in Hfiles. apply orb_true_iff.
  destruct Hfiles as [Hv|Hrest]; [left|right; exact (IH Hrest)].
  apply orb_true_iff in Hv. destruct Hv as [Hv|Hv].
  - destruct v; try discriminate. reflexivity.
  - destruct v as [| |?|?|?|?|? ?|items|?]; try discriminate. simpl.
    induction items as [|item items IHitems]; simpl in *; [discriminate|].
    apply orb_true_iff in Hv. apply orb_true_iff.
    destruct Hv as [Hitem|Hitems]; [left|right; exact (IHitems Hitems)].
    destruct item; try discriminate. reflexivity.
Qed.

(** An object payload with a File among its values, or in an array
    among them, is encoded as multipart form data, and [Content-Type] is
    left to the transport. *)
Lemma shallow_file_is_multipart m url props :
  sends_body m = true ->
  hasFiles (VObj props) = true ->
  _prepareRequestBodyAndHeaders m url (VObj props)
  = mkPrepared url (BodyForm (_createFormDataFromObject (VObj props) [] None)) [].
Proof.
  unfold sends_body, _prepareRequestBodyAndHeaders. intros Hm Hfiles.
  simpl (negb (truthy _)). cbv iota.
  destruct (_ || _); [discriminate|]. simpl (String.eqb (typeof _) _). cbv iota.
  rewrite Hfiles. reflexivity.
Qed.

(** An object payload with no File anywhere inside it is encoded as its
    JSON text, with [Content-Type: application/json]. *)
Lemma no_file_is_json m url props :
  sends_body m = true ->
  containsFile (VObj props) = false ->
  exists text,
    JSON_stringify (VObj props) = Some text
    /\ _prepareRequestBodyAndHeaders m url (VObj props)
       = mkPrepared url (BodyText text) [("Content-Type", "application/json")].
Proof.
  unfold sends_body, _prepareRequestBodyAndHeaders. intros Hm Hnone.
  simpl (negb (truthy _)). cbv iota.
  destruct (_ || _); [discriminate|]. simpl (String.eqb (typeof _) _). cbv iota.
  destruct (hasFiles (VObj props)) eqn:Hfiles.
  - apply hasFiles_containsFile in Hfiles. congruence.
  - eexists. split; reflexivity.
Qed.

(** C8 (as amended).  What a call sends as its body.  With a payload
    that is absent ([undefined], [null] or another falsy value such as
    the empty string) no body is sent.  A GET or DELETE call never sends
    a body; the entries of an object payload become query parameters,
    appended in order: none for an entry that is [undefined] or [null],
    one per element that is not [null] for an array, one otherwise.  A
    call with another method whose payload is the empty object does send
    a body: the JSON text of the empty object, with [Content-Type:
    application/json]. *)
Theorem body_of_absent_or_query_payload this ep debugPath a b w request :
  let call := _generateFetchFunction this ep debugPath a b w in
  In request (requests (trace call)) ->
  exists pathParamsSource payloadSource url,
    outcome (resolveArguments a b) = Normal (pathParamsSource, payloadSource)
    /\ outcome (_buildUrl this ep pathParamsSource) = Normal url
    /\ (truthy payloadSource = false ->
        req_body request = BodyNone /\ req_url request = WebURL.href url)
    /\ (sends_body (method ep) = false ->
        req_body request = BodyNone
        /\ req_url request
           = WebURL.href
               (if String.eqb (typeof payloadSource) "object" && truthy payloadSource
                then fold_left
                       (fun u kv => WebURL.searchParams_append (fst kv) (snd kv) u)
                       (queryPairs (own_entries payloadSource)) url
                else url))
    /\ (sends_body (method ep) = true -> payloadSource = VObj [] ->
        req_body request = BodyText "{}"
        /\ WebHeaders.get "Content-Type" (req_headers request)
           = Some "application/json").
Proof.
  intros call Hin.
  destruct (call_sends _ _ _ _ _ _ _ Hin)
    as (p & q & url & Hargs & Hurl & _ & Hreq & _).
  exists p, q, url. split; [exact Hargs|]. split; [exact Hurl|].
  subst request. unfold requestFor. cbn [req_body req_url req_headers].
  split; [|split].
  - intros Hfalsy. unfold _prepareRequestBodyAndHeaders. rewrite Hfalsy.
    split; reflexivity.
  - unfold sends_body. intros Hm. apply negb_false_iff in Hm.
    unfold _prepareRequestBodyAndHeaders. rewrite Hm.
    destruct (truthy q); simpl (negb _); cbv iota.
    + destruct (String.eqb (typeof q) "object"); simpl (_ && _); cbv iota;
        cbn [prep_body prep_url]; rewrite ?appendQuery_queryPairs;
        split; reflexivity.
    + rewrite andb_false_r. split; reflexivity.
  - unfold sends_body. intros Hm ->. apply negb_true_iff in Hm.
    unfold _prepareRequestBodyAndHeaders. rewrite Hm.
    simpl (negb (truthy _)). cbv iota. simpl (String.eqb (typeof _) _). cbv iota.
    simpl (hasFiles _). cbv iota. cbn [prep_body prep_headers].
    split; [reflexivity|].
    unfold requestHeadersFor. cbn [fold_left fst snd].
    destruct (sessionToken (snapshot w)) as [| |?|?|t|?|? ?|?|?];
      try apply headers_get_set.
    destruct (truthy (VStr t)); [|apply headers_get_set].
    rewrite headers_get_set_other by discriminate. apply headers_get_set.
Qed.

(** ** The URL builder *)

#[local] Arguments String.append !s1 s2 : simpl nomatch.





Lemma starts_with_append (p s : string) : Text.starts_with p (p ++ s) = true.
Proof.
  induction p as [|c p IH]; simpl; [reflexivity|].
  rewrite Ascii.eqb_refl. exact IH.
Qed.





Lemma mem_char_append (c : ascii) (s t : string) :
  Text.mem_char c (s ++ t) = Text.mem_char c s || Text.mem_char c t.
Proof.
  induction s as [|d s IH]; [reflexivity|].
  change (String d s ++ t) with (String d (s ++ t)).
  cbn [Text.mem_char]. rewrite IH. apply orb_assoc.
Qed.

(** [encodeURIComponent] escapes the dollar sign, so what it returns is
    a replacement text that [replace] inserts as it is. *)
Lemma encodeURIComponent_has_no_dollar (s : string) :
  Text.mem_char "$" (Text.encodeURIComponent s) = false.
Proof.
  induction s as [|c s IH]; [reflexivity|].
  cbn [Text.encodeURIComponent]. rewrite mem_char_append, IH, orb_false_r.
  destruct c as [[] [] [] [] [] [] [] []]; reflexivity.
Qed.


(** *** Paths the setter leaves as they are *)











End Calls.

(** ** The argument block and the object of the caller *)

Lemma prop_lookup_delete_ne {A : Type} (key key' : string) (props : list (string * A)) :
  key <> key' ->
  prop_lookup key (prop_delete key' props) = prop_lookup key props.
Proof.
  intros Hne. induction props as [|[k v] rest IH]; simpl; [reflexivity|].
  destruct (String.eqb k key') eqn:Hk'.
  - apply String.eqb_eq in Hk'. subst k.
    destruct (String.eqb key' key) eqn:Hk; [|exact IH].
    apply String.eqb_eq in Hk. congruence.
  - simpl. destruct (String.eqb k key); [reflexivity|exact IH].
Qed.

Lemma prop_lookup_delete_eq {A : Type} (key : string) (props : list (string * A)) :
  prop_lookup key (prop_delete key props) = None.
Proof.
  induction props as [|[k v] rest IH]; simpl; [reflexivity|].
  destruct (String.eqb k key) eqn:Hk; [exact IH|]. simpl. rewrite Hk. exact IH.
Qed.

Section SharedStore.

(** The block writes only to the object it allocates. *)
Lemma resolveArguments_writes_fresh (σ : Shared.Store) (a b : Shared.HValue) :
  forall l o, σ !! l = Some o -> (Shared.resolveArguments σ a b).1 !! l = Some o.
Proof.
  intros l o Hl. unfold Shared.resolveArguments.
  assert (Hfresh : σ !! fresh (dom σ) = None).
  { apply not_elem_of_dom. apply is_fresh. }
  assert (Hne : fresh (dom σ) <> l) by congruence.
  destruct b; try exact Hl.
  destruct a as [| | | | |la]; try exact Hl.
  destruct (prop_lookup "$params" (Shared.entries_at σ la)) as [[| | | | |params]|]; simpl;
    try (rewrite lookup_insert_ne by exact Hne; exact Hl).
  destruct (find _ _) as [[key value]|]; simpl;
    rewrite ?lookup_insert_ne by exact Hne; exact Hl.
Qed.

(** C10.  A call with a single object argument does not write to that
    object: the argument block copies its entries into a new object,
    removes [$params] from the copy and makes the copy the payload.
    After the block the object of the caller is what it was, with its
    [$params] and every other entry, and so is every object that existed
    before; the payload is an object that did not exist before and holds
    the entries of the argument other than a [$params] that was taken as
    the source of path parameters. *)
Theorem argument_object_is_not_mutated (σ : Shared.Store) (l : Shared.Loc) (o : Shared.HObject) :
  σ !! l = Some o ->
  let σ' := (Shared.resolveArguments σ (Shared.HRef l) Shared.HUndefined).1 in
  σ' !! l = Some o
  /\ Shared.entries_at σ' l = Shared.entries_at σ l
  /\ (forall l' o', σ !! l' = Some o' -> σ' !! l' = Some o')
  /\ match (Shared.resolveArguments σ (Shared.HRef l) Shared.HUndefined).2 with
     | Shared.Resolved pathParamsSource payloadSource =>
         exists copy,
           payloadSource = Shared.HRef copy
           /\ σ !! copy = None
           /\ (forall key, key <> "$params" ->
                 prop_lookup key (Shared.entries_at σ' copy) = prop_lookup key (Shared.entries_at σ l))
           /\ (pathParamsSource = Shared.HUndefined /\ Shared.entries_at σ' copy = Shared.entries_at σ l
               \/ prop_lookup "$params" (Shared.entries_at σ l) = Some pathParamsSource
                  /\ prop_lookup "$params" (Shared.entries_at σ' copy) = None)
     | Shared.Invalid key value => True
     end.
Proof.
  intros Hl σ'.
  assert (Hkeep : forall l' o', σ !! l' = Some o' -> σ' !! l' = Some o')
    by apply resolveArguments_writes_fresh.
  split; [exact (Hkeep l o Hl)|].
  split; [unfold Shared.entries_at; rewrite (Hkeep l o Hl), Hl; reflexivity|].
  split; [exact Hkeep|].
  assert (Hfresh : σ !! fresh (dom σ) = None).
  { apply not_elem_of_dom. apply is_fresh. }
  subst σ'. unfold Shared.resolveArguments.
  set (copy := fresh (dom σ)) in *.
  set (copied := Shared.entries_at σ l).
  assert (Hcopy : forall props (τ : Shared.Store), Shared.entries_at (<[copy := Shared.OPlain props]> τ) copy = props).
  { intros props τ. unfold Shared.entries_at. rewrite lookup_insert_eq. reflexivity. }
  destruct (prop_lookup "$params" copied) as [params|] eqn:Hparams.
  - destruct params as [| | | | |params];
      try (simpl; exists copy; rewrite Hcopy;
           split; [reflexivity|]; split; [exact Hfresh|]; split;
           [reflexivity|left; split; reflexivity]).
    destruct (find _ _) as [[key value]|]; simpl; [exact I|].
    exists copy. rewrite Hcopy.
    split; [reflexivity|]. split; [exact Hfresh|]. split.
    + intros key Hkey. apply prop_lookup_delete_ne. exact Hkey.
    + right. split; [reflexivity|apply prop_lookup_delete_eq].
  - simpl. exists copy. rewrite Hcopy.
    split; [reflexivity|]. split; [exact Hfresh|]. split;
      [reflexivity|left; split; reflexivity].
Qed.

(** *** The block over the store agrees with the block over values *)

Lemma represents_is_undefined σ v t :
  Shared.represents σ v t ->
  is_undefined t = match v with Shared.HUndefined => true | _ => false end.
Proof. destruct 1; reflexivity. Qed.

Lemma represents_is_object σ v t :
  Shared.represents σ v t -> is_object t = Shared.is_object v.
Proof. destruct 1; reflexivity. Qed.

Lemma indexed_represent σ items values i :
  Forall2 (Shared.represents σ) items values ->
  Shared.entries_represent σ (indexed i items) (indexed i values).
Proof.
  intros Hitems. revert i. induction Hitems as [|v t items values Hv _ IH]; intros i.
  - constructor.
  - constructor; [split; [reflexivity|exact Hv]|apply IH].
Qed.

(** A value that stands for a location lists the entries stored there. *)
Lemma represents_entries σ l t :
  Shared.represents σ (Shared.HRef l) t -> Shared.entries_represent σ (Shared.entries_at σ l) (own_entries t).
Proof.
  unfold Shared.entries_at. inversion 1 as [| | | | |? ? Hl|? ? ? Hl|? ? ? Hl Hitems|? ? ? Hl Hprops];
    subst; rewrite Hl.
  - constructor.
  - constructor.
  - apply indexed_represent. exact Hitems.
  - exact Hprops.
Qed.

(** What a value stands for stays so when the store only grows. *)
Lemma represents_mono (σ σ' : Shared.Store) :
  (forall l o, σ !! l = Some o -> σ' !! l = Some o) ->
  forall t v, Shared.represents σ v t -> Shared.represents σ' v t.
Proof.
  intros Hgrow.
  induction t as [| | | | | | |values IH|entries IH] using JsValue_induction;
    intros v Hv; inversion Hv as [| | | | |? ? Hl|? ? ? Hl|? ? ? Hl Hitems|? ? ? Hl Hprops];
    subst; try constructor.
  - apply Hgrow. exact Hl.
  - apply Hgrow. exact Hl.
  - eapply Shared.rep_array; [apply Hgrow; exact Hl|].
    clear Hl Hv. induction Hitems as [|x y xs ys Hxy _ IHitems]; [constructor|].
    apply Forall_cons_1 in IH. destruct IH as [IHy IHys].
    constructor; [apply IHy; exact Hxy|apply IHitems; exact IHys].
  - eapply Shared.rep_plain; [apply Hgrow; exact Hl|].
    clear Hl Hv. induction Hprops as [|x y xs ys [Hkey Hxy] _ IHprops]; [constructor|].
    apply Forall_cons_1 in IH. destruct IH as [IHy IHys].
    constructor; [split; [exact Hkey|apply IHy; exact Hxy]|apply IHprops; exact IHys].
Qed.

Lemma entries_represent_mono (σ σ' : Shared.Store) stored entries :
  (forall l o, σ !! l = Some o -> σ' !! l = Some o) ->
  Shared.entries_represent σ stored entries -> Shared.entries_represent σ' stored entries.
Proof.
  intros Hgrow Hentries. induction Hentries as [|x y xs ys [Hkey Hxy] _ IH]; constructor.
  - split; [exact Hkey|]. exact (represents_mono σ σ' Hgrow _ _ Hxy).
  - exact IH.
Qed.

Lemma entries_represent_lookup σ stored entries key :
  Shared.entries_represent σ stored entries ->
  match prop_lookup key stored, prop_lookup key entries with
  | Some v, Some t => Shared.represents σ v t
  | None, None => True
  | _, _ => False
  end.
Proof.
  induction 1 as [|[k v] [k' t] xs ys [Hkey Hv] _ IH]; simpl in *; [exact I|].
  subst k'. destruct (String.eqb k key); [exact Hv|exact IH].
Qed.

Lemma entries_represent_delete σ stored entries key :
  Shared.entries_represent σ stored entries ->
  Shared.entries_represent σ (prop_delete key stored) (prop_delete key entries).
Proof.
  induction 1 as [|[k v] [k' t] xs ys [Hkey Hv] _ IH]; simpl in *; [constructor|].
  subst k'. destruct (String.eqb k key); [exact IH|].
  constructor; [split; [reflexivity|exact Hv]|exact IH].
Qed.

Lemma entries_represent_find σ stored entries :
  Shared.entries_represent σ stored entries ->
  match find (fun kv => Shared.is_object (snd kv)) stored,
        find (fun kv => is_object (snd kv)) entries with
  | Some (key, v), Some (key', t) => key = key' /\ Shared.represents σ v t
  | None, None => True
  | _, _ => False
  end.
Proof.
  induction 1 as [|[k v] [k' t] xs ys [Hkey Hv] _ IH]; simpl in *; [exact I|].
  subst k'. rewrite (represents_is_object _ _ _ Hv).
  destruct (Shared.is_object v); [split; [reflexivity|exact Hv]|exact IH].
Qed.

(** The two embeddings of the argument block agree.  Run on stored
    arguments that stand for the values [a] and [b], the block over the
    store ends as the block over values does: with sources that stand,
    in the store it leaves, for the sources computed from [a] and [b],
    or with the Error for the same key and value. *)
Theorem shared_block_agrees_with_values `{Platform} (σ : Shared.Store)
    (idOrParamsPayload directPayload : Shared.HValue) (a b : JsValue) :
  Shared.represents σ idOrParamsPayload a ->
  Shared.represents σ directPayload b ->
  match (Shared.resolveArguments σ idOrParamsPayload directPayload).2 with
  | Shared.Resolved pathParamsSource payloadSource =>
      exists p q,
        resolveArguments a b = mret (p, q)
        /\ Shared.represents (Shared.resolveArguments σ idOrParamsPayload directPayload).1
                      pathParamsSource p
        /\ Shared.represents (Shared.resolveArguments σ idOrParamsPayload directPayload).1
                      payloadSource q
  | Shared.Invalid key value =>
      exists t,
        Shared.represents (Shared.resolveArguments σ idOrParamsPayload directPayload).1 value t
        /\ resolveArguments a b
           = throw (VError "Error"
                      ("Path parameter '" ++ key
                       ++ "' in $params cannot be an object. Received: "
                       ++ default EmptyString (JSON_stringify t)))
  end.
Proof.
  intros Ha Hb.
  pose proof (represents_is_undefined _ _ _ Hb) as Hundef.
  assert (Hdirect : directPayload <> Shared.HUndefined ->
                    Shared.resolveArguments σ idOrParamsPayload directPayload
                    = (σ, Shared.Resolved idOrParamsPayload directPayload)).
  { destruct directPayload; try reflexivity. congruence. }
  assert (Hcases : directPayload = Shared.HUndefined \/ directPayload <> Shared.HUndefined).
  { destruct directPayload; (left; reflexivity) || (right; discriminate). }
  destruct Hcases as [->|Hdef].
  2:{ rewrite (Hdirect Hdef). cbn [fst snd]. exists a, b.
      split; [|split; assumption].
      apply resolveArguments_direct. rewrite Hundef.
      destruct directPayload; try reflexivity. congruence. }
  inversion Hb; subst. clear Hb Hundef Hdirect.
  pose proof (represents_is_object _ _ _ Ha) as Hobject.
  destruct idOrParamsPayload as [| | | | |l];
    try (cbn [Shared.resolveArguments fst snd]; eexists _, _;
         split; [apply resolveArguments_scalar; exact Hobject|];
         split; [exact Ha|constructor]).
  pose proof (represents_entries _ _ _ Ha) as Hentries.
  unfold Shared.resolveArguments.
  set (copy := fresh (dom σ)).
  assert (Hfresh : σ !! copy = None).
  { apply not_elem_of_dom. apply is_fresh. }
  set (copied := Shared.entries_at σ l) in *.
  set (σ1 := <[copy := Shared.OPlain copied]> σ).
  assert (Hgrow1 : forall l' o, σ !! l' = Some o -> σ1 !! l' = Some o).
  { intros l' o Hl'. unfold σ1. rewrite lookup_insert_ne by congruence. exact Hl'. }
  assert (Hcopy1 : Shared.represents σ1 (Shared.HRef copy) (VObj (spread a))).
  { eapply Shared.rep_plain; [apply lookup_insert_eq|].
    exact (entries_represent_mono _ _ _ _ Hgrow1 Hentries). }
  pose proof (entries_represent_lookup _ _ _ "$params" Hentries) as Hparams.
  fold (spread a) in Hparams.
  destruct (prop_lookup "$params" copied) as [stored|] eqn:Hstored;
    destruct (prop_lookup "$params" (spread a)) as [params|] eqn:Hvalue;
    try contradiction.
  2:{ cbn [fst snd]. exists VUndefined, (VObj (spread a)).
      split; [|split; [constructor|exact Hcopy1]].
      apply resolveArguments_without_params; [exact Hobject|].
      rewrite Hvalue. reflexivity. }
  pose proof (represents_is_object _ _ _ Hparams) as Hparams_object.
  destruct stored as [| | | | |lp];
    try (cbn [fst snd]; exists VUndefined, (VObj (spread a));
         split; [|split; [constructor|exact Hcopy1]];
         apply resolveArguments_without_params; [exact Hobject|];
         rewrite Hvalue; exact Hparams_object).
  assert (Hlp : Shared.entries_at σ1 lp = Shared.entries_at σ lp).
  { unfold Shared.entries_at, σ1.
    assert (copy <> lp).
    { intros ->. inversion Hparams; congruence. }
    rewrite lookup_insert_ne by assumption. reflexivity. }
  rewrite Hlp.
  pose proof (entries_represent_find _ _ _ (represents_entries _ _ _ Hparams)) as Hfind.
  rewrite (resolveArguments_with_params a params Hobject Hvalue Hparams_object).
  destruct (find _ (Shared.entries_at σ lp)) as [[key value]|];
    destruct (find _ (own_entries params)) as [[key' t]|]; try contradiction.
  - destruct Hfind as [<- Hvalue_rep]. cbn [fst snd]. exists t.
    split; [exact (represents_mono _ _ Hgrow1 _ _ Hvalue_rep)|reflexivity].
  - cbn [fst snd].
    set (σ2 := <[copy := Shared.OPlain (prop_delete "$params" copied)]> σ1).
    assert (Hgrow2 : forall l' o, σ !! l' = Some o -> σ2 !! l' = Some o).
    { intros l' o Hl'. unfold σ2, σ1. rewrite !lookup_insert_ne by congruence. exact Hl'. }
    exists params, (VObj (prop_delete "$params" (spread a))).
    split; [reflexivity|]. split.
    + exact (represents_mono _ _ Hgrow2 _ _ Hparams).
    + eapply Shared.rep_plain; [apply lookup_insert_eq|].
      apply entries_represent_delete.
      exact (entries_represent_mono _ _ _ _ Hgrow2 Hentries).
Qed.

End SharedStore.

(** ** The endpoint tree walker *)

(** No decimal numeral is the name [path] or [method]. *)
Lemma of_nat_not_path (n : nat) : Text.of_nat n <> "path".
Proof.
  unfold Text.of_nat, Text.of_Z.
  destruct (Z.to_int (Z.of_nat n)) as [d|d]; destruct d; discriminate.
Qed.

Lemma of_nat_not_method (n : nat) : Text.of_nat n <> "method".
Proof.
  unfold Text.of_nat, Text.of_Z.
  destruct (Z.to_int (Z.of_nat n)) as [d|d]; destruct d; discriminate.
Qed.

Lemma prop_lookup_indexed_none {A : Type} (key : string) (items : list A) (i : nat) :
  (forall n, Text.of_nat n <> key) -> prop_lookup key (indexed i items) = None.
Proof.
  intros Hkey. revert i. induction items as [|x rest IH]; intros i; simpl; [reflexivity|].
  destruct (String.eqb (Text.of_nat i) key) eqn:E; [|apply IH].
  apply String.eqb_eq in E. destruct (Hkey i E).
Qed.

Lemma prop_set_absent {A : Type} (key : string) (v : A) (props : list (string * A)) :
  prop_lookup key props = None -> prop_set key v props = (props ++ [(key, v)])%list.
Proof.
  induction props as [|[k w] rest IH]; simpl; [reflexivity|].
  destruct (String.eqb k key); [discriminate|]. intros Hrest. rewrite (IH Hrest).
  reflexivity.
Qed.

Lemma prop_lookup_app {A : Type} (key : string) (l1 l2 : list (string * A)) :
  prop_lookup key (l1 ++ l2)
  = match prop_lookup key l1 with
    | Some v => Some v
    | None => prop_lookup key l2
    end.
Proof.
  induction l1 as [|[k w] rest IH]; simpl; [reflexivity|].
  destruct (String.eqb k key); [reflexivity|exact IH].
Qed.

Lemma warnings_cons parentKeyPath key configValue rest :
  warnings parentKeyPath (VObj ((key, configValue) :: rest))
  = (warnings parentKeyPath (VObj [(key, configValue)])
     ++ warnings parentKeyPath (VObj rest))%list.
Proof. cbn [warnings flat_map]. rewrite app_nil_r. reflexivity. Qed.

Lemma mirror_cons parentKeyPath key configValue rest :
  node_members (mirror parentKeyPath (VObj ((key, configValue) :: rest)))
  = (node_members (mirror parentKeyPath (VObj [(key, configValue)]))
     ++ node_members (mirror parentKeyPath (VObj rest)))%list.
Proof. cbn [mirror flat_map node_members]. rewrite app_nil_r. reflexivity. Qed.

Section Walker.
Context `{Platform}.

(** On a value that is not [undefined] or [null], the test of
    [_isActualEndpointConfig] is the test for a leaf. *)
Lemma isActualEndpointConfig_is_leaf (config : JsValue) :
  is_nullish config = false ->
  _isActualEndpointConfig config = mret (is_leaf config).
Proof.
  intros Hnull. unfold _isActualEndpointConfig.
  destruct config as [| |b|n|s|name|name message|items|props]; try discriminate;
    simpl get_prop.
  - reflexivity.
  - reflexivity.
  - rewrite (prop_lookup_indexed_none "path" _ 0 of_nat_not_path). reflexivity.
  - reflexivity.
  - reflexivity.
  - rewrite (prop_lookup_indexed_none "path" _ 0 of_nat_not_path). reflexivity.
  - rewrite bind_lift_normal. unfold is_leaf.
    destruct (String.eqb (typeof (default VUndefined (prop_lookup "path" props))) "string");
      [|reflexivity].
    rewrite bind_lift_normal. reflexivity.
Qed.

(** On [null] and [undefined] the test throws. *)
Lemma isActualEndpointConfig_nullish (config : JsValue) :
  is_nullish config = true ->
  _isActualEndpointConfig config
  = throw (TypeError ("Cannot read properties of " ++ ToString config
                      ++ " (reading 'path')")).
Proof. destruct config; try discriminate; reflexivity. Qed.

Lemma initializeEndpoints_object props branch parentKeyPath :
  _initializeEndpoints (VObj props) branch parentKeyPath
  = forEach_props
      (fun key configValue acc =>
         branch ← acc;
         visitEndpoint (_initializeEndpoints configValue) parentKeyPath key configValue branch)
      props (mret branch).
Proof. reflexivity. Qed.

(** One turn of the loop of [_initializeEndpoints] on an entry whose
    value is a leaf, a primitive, or a group the walker mirrors. *)
Lemma visitEndpoint_mirrors parentKeyPath key configValue members :
  is_leaf configValue || is_plain_primitive configValue || walkable configValue = true ->
  (walkable configValue = true ->
   forall parent,
     _initializeEndpoints configValue empty_object parent
     = mkEff (warnings parent configValue) (Normal (mirror parent configValue))) ->
  prop_lookup key members = None ->
  visitEndpoint (_initializeEndpoints configValue) parentKeyPath key configValue
                (Node None members)
  = mkEff (warnings parentKeyPath (VObj [(key, configValue)]))
          (Normal (Node None
                     (members
                      ++ node_members (mirror parentKeyPath (VObj [(key, configValue)]))))).
Proof.
  intros Hkind IH Hfree.
  assert (Hnull : is_nullish configValue = false).
  { destruct configValue; try reflexivity; discriminate. }
  unfold visitEndpoint. rewrite (isActualEndpointConfig_is_leaf _ Hnull), bind_ret.
  fold (keyPath parentKeyPath key).
  cbn [warnings mirror flat_map fst snd node_members]. rewrite !app_nil_r.
  destruct (is_leaf configValue) eqn:Hleaf.
  - unfold node_set. rewrite (prop_set_absent _ _ _ Hfree). reflexivity.
  - destruct (is_object configValue) eqn:Hobject.
    + assert (Hwalk : walkable configValue = true).
      { destruct configValue; try discriminate; exact Hkind. }
      unfold node_get. cbn [node_members]. rewrite Hfree. cbn [default].
      rewrite (IH Hwalk), (bind_normal _ _ (mirror (keyPath parentKeyPath key) configValue))
        by reflexivity.
      cbn [trace outcome]. unfold node_set.
      rewrite (prop_set_absent _ _ _ Hfree), app_nil_r. reflexivity.
    + rewrite bind_emit. rewrite app_nil_r. reflexivity.
Qed.

(** The loop of [_initializeEndpoints] over the entries of a walkable
    object adds the members and gives the warnings the specification
    describes, entry by entry. *)
Lemma forEach_mirrors parentKeyPath props :
  Forall (fun kv =>
            walkable (snd kv) = true ->
            forall parent,
              _initializeEndpoints (snd kv) empty_object parent
              = mkEff (warnings parent (snd kv)) (Normal (mirror parent (snd kv))))
         props ->
  distinct_keys props = true ->
  forallb (fun kv => is_leaf (snd kv) || is_plain_primitive (snd kv) || walkable (snd kv))
          props = true ->
  forall t members,
    (forall key, prop_lookup key members = None \/ prop_lookup key props = None) ->
    forEach_props
      (fun key configValue acc =>
         branch ← acc;
         visitEndpoint (_initializeEndpoints configValue) parentKeyPath key configValue branch)
      props (mkEff t (Normal (Node None members)))
    = mkEff (t ++ warnings parentKeyPath (VObj props))
            (Normal (Node None
                       (members ++ node_members (mirror parentKeyPath (VObj props))))).
Proof.
  induction 1 as [|[key configValue] rest IHv _ IH]; intros Hdistinct Hkinds t members Hfree.
  - cbn [forEach_props warnings mirror flat_map node_members]. rewrite !app_nil_r.
    reflexivity.
  - cbn [distinct_keys] in Hdistinct. cbn [forallb snd] in Hkinds.
    apply andb_true_iff in Hkinds. destruct Hkinds as [Hkind Hkinds].
    destruct (prop_lookup key rest) eqn:Hrest; [discriminate|].
    assert (Hkey : prop_lookup key members = None).
    { destruct (Hfree key) as [Hm|Hp]; [exact Hm|].
      cbn [prop_lookup] in Hp. rewrite String.eqb_refl in Hp. discriminate. }
    cbn [forEach_props].
    rewrite (bind_normal _ _ (Node None members)) by reflexivity.
    cbn [snd] in IHv.
    rewrite (visitEndpoint_mirrors parentKeyPath key configValue members Hkind IHv Hkey).
    cbn [trace outcome].
    rewrite (IH Hdistinct Hkinds).
    + rewrite (warnings_cons parentKeyPath key configValue rest),
        (mirror_cons parentKeyPath key configValue rest), <- !app_assoc.
      reflexivity.
    + intros key'. destruct (prop_lookup key' rest) eqn:Hkey'; [left|right; reflexivity].
      assert (Hne : key <> key') by (intros ->; congruence).
      rewrite prop_lookup_app.
      destruct (Hfree key') as [->|Hp].
      * cbn [mirror flat_map fst snd node_members]. rewrite app_nil_r.
        destruct (is_leaf configValue); [|destruct (is_object configValue)];
          cbn [prop_lookup]; try reflexivity;
          destruct (String.eqb key key') eqn:E; try reflexivity;
          apply String.eqb_eq in E; contradiction.
      * cbn [prop_lookup] in Hp. destruct (String.eqb key key') eqn:E; [discriminate|].
        congruence.
Qed.

(** The walker on a tree of leaves, groups and primitives: it builds
    the client the specification describes, with the same names at the
    same depth, a function for each leaf and an object for each group;
    a primitive is left out with a warning; nothing is thrown. *)
Theorem initializeEndpoints_mirrors (endpointsConfig : JsValue) :
  walkable endpointsConfig = true ->
  forall parentKeyPath,
    _initializeEndpoints endpointsConfig empty_object parentKeyPath
    = mkEff (warnings parentKeyPath endpointsConfig)
            (Normal (mirror parentKeyPath endpointsConfig)).
Proof.
  induction endpointsConfig as [| | | | | | | |props IH] using JsValue_induction;
    try discriminate.
  intros Hwalk parentKeyPath.
  cbn [walkable] in Hwalk. apply andb_true_iff in Hwalk. destruct Hwalk as [Hkeys Hkinds].
  apply andb_true_iff in Hkeys. destruct Hkeys as [Hdistinct _].
  rewrite initializeEndpoints_object.
  change (mret empty_object : Eff ClientNode) with (mkEff [] (Normal (Node None []))).
  rewrite (forEach_mirrors parentKeyPath props IH Hdistinct Hkinds [] []).
  - cbn [app]. destruct (mirror parentKeyPath (VObj props)) eqn:Hm.
    cbn [mirror] in Hm. injection Hm as <- <-. reflexivity.
  - intros key. left. reflexivity.
Qed.

(** A valid tree is walkable and draws no warning. *)
Lemma valid_tree_walkable (v : JsValue) :
  valid_tree v = true ->
  walkable v = true /\ forall parent, warnings parent v = [].
Proof.
  induction v as [| | | | | | | |props IH] using JsValue_induction; try discriminate.
  cbn [valid_tree walkable]. intros Hvalid.
  apply andb_true_iff in Hvalid. destruct Hvalid as [Hkeys Hkinds].
  rewrite Hkeys. cbn [andb]. clear Hkeys.
  induction IH as [|[key value] rest IHvalue _ IHrest]; [split; reflexivity|].
  cbn [forallb snd] in *. apply andb_true_iff in Hkinds. destruct Hkinds as [Hkind Hkinds].
  destruct (IHrest Hkinds) as [Hwalk Hwarn]. rewrite Hwalk, andb_true_r.
  destruct (is_leaf value) eqn:Hleaf.
  - split; [reflexivity|]. intros parent. specialize (Hwarn parent).
    cbn [warnings flat_map fst snd] in *. rewrite Hleaf, Hwarn. reflexivity.
  - cbn [orb] in Hkind. destruct (IHvalue Hkind) as [Hv Hw]. rewrite Hv, orb_true_r.
    split; [reflexivity|]. intros parent. specialize (Hwarn parent).
    cbn [warnings flat_map fst snd] in *. rewrite Hleaf, Hwarn.
    assert (Hobject : is_object value = true) by (destruct value; try discriminate; reflexivity).
    rewrite Hobject, Hw. reflexivity.
Qed.

(** The client the specification describes for a valid tree has the key
    structure of the tree. *)
Lemma mirror_same_shape (v : JsValue) :
  valid_tree v = true ->
  forall parent,
    exists members,
      mirror parent v = Node None members
      /\ Forall2 (fun kv km => fst kv = fst km /\ same_shape (snd kv) (snd km))
                 (own_entries v) members.
Proof.
  induction v as [| | | | | | | |props IH] using JsValue_induction; try discriminate.
  cbn [valid_tree]. intros Hvalid parent.
  apply andb_true_iff in Hvalid. destruct Hvalid as [_ Hkinds].
  exists (node_members (mirror parent (VObj props))). split; [reflexivity|].
  cbn [own_entries Object_entries].
  induction IH as [|[key value] rest IHvalue _ IHrest]; [constructor|].
  cbn [forallb snd] in Hkinds. apply andb_true_iff in Hkinds.
  destruct Hkinds as [Hkind Hkinds]. specialize (IHrest Hkinds).
  rewrite mirror_cons. cbn [mirror flat_map fst snd node_members]. rewrite app_nil_r.
  cbn [snd] in IHvalue.
  destruct (is_leaf value) eqn:Hleaf.
  - constructor; [split; [reflexivity|apply shape_leaf; exact Hleaf]|exact IHrest].
  - cbn [orb] in Hkind.
    assert (Hobject : is_object value = true) by (destruct value; try discriminate; reflexivity).
    rewrite Hobject. cbn [app].
    constructor; [|exact IHrest]. split; [reflexivity|]. cbn [snd].
    destruct (IHvalue Hkind (keyPath parent key)) as (members & -> & Hmembers).
    destruct value as [| | | | | | | |inner]; try discriminate.
    apply shape_group; [exact Hleaf|exact Hmembers].
Qed.

(** For a valid endpoint tree the walker throws nothing, warns of
    nothing, and builds a client with the key structure of the tree. *)
Theorem valid_tree_is_mirrored (endpointsConfig : JsValue) :
  valid_tree endpointsConfig = true ->
  exists members,
    _initializeEndpoints endpointsConfig empty_object "" = mret (Node None members)
    /\ Forall2 (fun kv km => fst kv = fst km /\ same_shape (snd kv) (snd km))
               (own_entries endpointsConfig) members.
Proof.
  intros Hvalid.
  destruct (valid_tree_walkable _ Hvalid) as [Hwalk Hwarn].
  destruct (mirror_same_shape _ Hvalid "") as (members & Hmirror & Hshape).
  exists members. split; [|exact Hshape].
  rewrite (initializeEndpoints_mirrors _ Hwalk), Hwarn, Hmirror. reflexivity.
Qed.

End Walker.

(** * More of the class *)

(** ** What a call resolves with *)

Section Answers.
Context `{Platform}.




(** X3.  A call sends at most one request, whatever the answer: there
    is no retry after a 401, a refusal or a timeout.  The request names
    the method of the endpoint, includes credentials and carries the
    delay of the instance. *)
Theorem call_sends_at_most_one_request this ep debugPath a b w :
  let sent := requests (trace (_generateFetchFunction this ep debugPath a b w)) in
  (length sent <= 1)%nat
  /\ forall request,
       In request sent ->
       req_method request = method ep
       /\ req_credentials request = "include"
       /\ req_timeout request = requestTimeout this.
Proof.
  cbv zeta.
  destruct (outcome (resolveArguments a b)) as [[p q]|e] eqn:Hargs;
    [|rewrite call_stages, Hargs; split; [simpl; lia|intros ? []]].
  destruct (outcome (_buildUrl this ep p)) as [url|e] eqn:Hurl;
    [|rewrite call_stages, Hargs, Hurl; split; [simpl; lia|intros ? []]].
  destruct (headers_accepted this (snapshot w)) eqn:Haccepted.
  - rewrite (call_stages_accepted _ _ _ _ _ _ _ _ _ Hargs Hurl Haccepted).
    cbv zeta. unfold async. cbn [trace].
    change (requests (EvSession ?s :: ?t)) with (requests t).
    rewrite dispatch_requests.
    destruct (valid_timeout (requestTimeout this)).
    + split; [simpl; lia|]. intros request [<-|[]]. repeat split; reflexivity.
    + split; [simpl; lia|intros ? []].
  - destruct (call_stages_refused _ _ debugPath _ _ _ _ _ _ Hargs Hurl Haccepted)
      as (events & message & -> & [-> | ->]); (split; [simpl; lia|intros ? []]).
Qed.


End Answers.

(** ** The error message of a response *)

Lemma of_nat_not_error (n : nat) : Text.of_nat n <> "error".
Proof.
  unfold Text.of_nat, Text.of_Z.
  destruct (Z.to_int (Z.of_nat n)) as [d|d]; destruct d; discriminate.
Qed.

(** Only a plain object can have its message lifted. *)
Lemma normalizeErrorMessage_other (v : JsValue) :
  (forall props, v <> VObj props) -> normalizeErrorMessage v = v.
Proof.
  intros Hv. unfold normalizeErrorMessage.
  destruct v as [| |b|n|s|name|name message|items|props];
    try reflexivity; try (rewrite andb_false_r; reflexivity).
  - cbn [truthy typeof andb]. rewrite String.eqb_refl.
    assert (Herr : get_prop_opt (VArr items) "error" = VUndefined).
    { unfold get_prop_opt, get_prop. cbn [String.eqb Ascii.eqb Bool.eqb].
      rewrite prop_lookup_indexed_none by apply of_nat_not_error. reflexivity. }
    rewrite Herr. reflexivity.
  - destruct (Hv props eq_refl).
Qed.

(** X5.  Lifting [error.message] to [message] happens once and touches
    nothing else: normalizing again changes nothing, every property
    other than [message] reads as before, and [message] becomes the
    inner message exactly when the body is an object without a
    [message] whose [error.message] is truthy. *)
Theorem error_message_is_lifted_once (responseData : JsValue) :
  let normalized := normalizeErrorMessage responseData in
  normalizeErrorMessage normalized = normalized
  /\ (forall key, key <> "message" ->
                  get_prop_opt normalized key = get_prop_opt responseData key)
  /\ get_prop_opt normalized "message"
     = (let message := get_prop_opt responseData "message" in
        let inner := get_prop_opt (get_prop_opt responseData "error") "message" in
        if is_object responseData && is_undefined message && truthy inner
        then inner else message).
Proof.
  cbv zeta.
  assert (Hinner : forall error,
             (if is_nullish error then VUndefined else get_prop_opt error "message")
             = get_prop_opt error "message").
  { intros error. destruct error; reflexivity. }
  destruct (match responseData with VObj _ => true | _ => false end) eqn:Hkind.
  - destruct responseData as [| | | | | | | |props]; try discriminate. clear Hkind.
    set (inner := get_prop_opt (get_prop_opt (VObj props) "error") "message").
    set (message := get_prop_opt (VObj props) "message").
    assert (Hnorm : forall entries,
               get_prop_opt (get_prop_opt (VObj entries) "error") "message" = inner ->
               get_prop_opt (VObj entries) "message" = message ->
               normalizeErrorMessage (VObj entries)
               = if is_undefined message && truthy inner
                 then VObj (prop_set "message" inner entries) else VObj entries).
    { intros entries Hi Hm. unfold normalizeErrorMessage.
      cbn [truthy typeof andb]. rewrite String.eqb_refl, Hinner, Hi, Hm.
      rewrite (andb_comm (truthy inner)). reflexivity. }
    rewrite (Hnorm props eq_refl eq_refl). cbn [is_object andb].
    destruct (is_undefined message && truthy inner) eqn:Hlift.
    + apply andb_true_iff in Hlift. destruct Hlift as [_ Htruthy].
      assert (Hset : get_prop_opt (VObj (prop_set "message" inner props)) "message" = inner).
      { unfold get_prop_opt, get_prop. rewrite prop_lookup_set_eq. reflexivity. }
      assert (Hframe : forall key, key <> "message" ->
                 get_prop_opt (VObj (prop_set "message" inner props)) key
                 = get_prop_opt (VObj props) key).
      { intros key Hkey. unfold get_prop_opt, get_prop.
        rewrite prop_lookup_set_ne by congruence. reflexivity. }
      split; [|split; [exact Hframe|exact Hset]].
      unfold normalizeErrorMessage. cbn [truthy typeof andb]. rewrite String.eqb_refl.
      rewrite Hset.
      replace (is_undefined inner) with false
        by (destruct inner; try reflexivity; discriminate).
      rewrite andb_false_r. reflexivity.
    + split; [|split; [reflexivity|reflexivity]].
      rewrite (Hnorm props eq_refl eq_refl). reflexivity.
  - assert (Hother : normalizeErrorMessage responseData = responseData).
    { apply normalizeErrorMessage_other. intros props ->. discriminate. }
    rewrite !Hother. split; [reflexivity|]. split; [reflexivity|].
    replace (is_object responseData
             && is_undefined (get_prop_opt responseData "message")
             && truthy (get_prop_opt (get_prop_opt responseData "error") "message"))
      with false; [reflexivity|].
    destruct responseData as [| |b|n|s|name|name message|items|props];
      try reflexivity; try discriminate.
    symmetry. apply andb_false_iff. right.
    unfold get_prop_opt at 2. unfold get_prop. cbn [String.eqb Ascii.eqb Bool.eqb].
    rewrite prop_lookup_indexed_none by apply of_nat_not_error. reflexivity.
Qed.

(** ** The storage and the session *)

(** What a run of [store] leaves under a key. *)
Lemma store_lookup (props : list (string * JsValue)) (items : list (string * string))
    (key : string) :
  distinct_keys props = true ->
  prop_lookup key
    (forEach_props
       (fun key value items =>
          if is_nullish value then removeItem key items
          else setItem key (itemText value) items)
       props items)
  = match prop_lookup key props with
    | Some value => if is_nullish value then None else Some (itemText value)
    | None => prop_lookup key items
    end.
Proof.
  revert items. induction props as [|[k v] rest IH]; intros items Hkeys; [reflexivity|].
  cbn [distinct_keys] in Hkeys.
  destruct (prop_lookup k rest) eqn:Hfresh; [discriminate|].
  cbn [forEach_props prop_lookup]. rewrite (IH _ Hkeys).
  destruct (String.eqb k key) eqn:Hk.
  - apply String.eqb_eq in Hk. subst k. rewrite Hfresh.
    destruct (is_nullish v).
    + apply prop_lookup_delete_eq.
    + apply prop_lookup_set_eq.
  - apply String.eqb_neq in Hk.
    destruct (prop_lookup key rest); [reflexivity|].
    destruct (is_nullish v).
    + apply prop_lookup_delete_ne. congruence.
    + apply prop_lookup_set_ne. exact Hk.
Qed.

Lemma dispose_lookup (keys : list string) (items : list (string * string)) (key : string) :
  prop_lookup key (fold_left (fun items key => removeItem key items) keys items)
  = if existsb (String.eqb key) keys then None else prop_lookup key items.
Proof.
  revert items. induction keys as [|k rest IH]; intros items; [reflexivity|].
  cbn [fold_left existsb]. rewrite IH.
  destruct (String.eqb key k) eqn:Hk.
  - apply String.eqb_eq in Hk. subst k. cbn [orb].
    unfold removeItem. rewrite prop_lookup_delete_eq.
    destruct (existsb _ rest); reflexivity.
  - apply String.eqb_neq in Hk. cbn [orb].
    unfold removeItem. rewrite prop_lookup_delete_ne by exact Hk. reflexivity.
Qed.

Section Storage.
Context `{Platform}.

Lemma not_inherited_not_proto (key : string) :
  inherited_name key = false -> String.eqb key "__proto__" = false.
Proof.
  intros Hkey. destruct (String.eqb key "__proto__") eqn:E; [|reflexivity].
  apply String.eqb_eq in E. subst key. discriminate.
Qed.

(** What the snapshot holds under a key that is not a name every object
    inherits. *)
Lemma snapshot_lookup w key :
  inherited_name key = false ->
  get_prop_opt (snapshot w) key
  = match localStorage w with
    | Some items =>
        match prop_lookup key items with
        | Some item => itemValue item
        | None => VUndefined
        end
    | None => VUndefined
    end.
Proof.
  intros Hkey. apply not_inherited_not_proto in Hkey.
  unfold snapshot, session. destruct (localStorage w) as [storage|]; [|reflexivity].
  cbn [outcome mret Eff_ret]. unfold get_prop_opt, get_prop.
  set (step := fun (sessionData : list (string * JsValue)) (entry : string * string) => _).
  assert (Hfold : forall l acc,
             prop_lookup key (fold_left step l acc)
             = if existsb (fun entry => String.eqb (fst entry) key) l
               then match prop_lookup key storage with
                    | Some item => Some (itemValue item)
                    | None => prop_lookup key acc
                    end
               else prop_lookup key acc).
  { induction l as [|[k item] rest IH]; intros acc; [reflexivity|].
    cbn [fold_left existsb fst]. rewrite IH.
    destruct (String.eqb k key) eqn:Hk.
    - apply String.eqb_eq in Hk. subst k. cbn [orb].
      assert (Hstep : prop_lookup key (step acc (key, item))
                      = match prop_lookup key storage with
                        | Some stored => Some (itemValue stored)
                        | None => prop_lookup key acc
                        end).
      { unfold step. cbn [fst]. rewrite Hkey.
        destruct (prop_lookup key storage); [|reflexivity].
        apply prop_lookup_set_eq. }
      rewrite Hstep.
      destruct (prop_lookup key storage); destruct (existsb _ rest); reflexivity.
    - apply String.eqb_neq in Hk. cbn [orb].
      assert (Hstep : prop_lookup key (step acc (k, item)) = prop_lookup key acc).
      { unfold step. cbn [fst]. destruct (prop_lookup k storage); [|reflexivity].
        destruct (String.eqb k "__proto__"); [reflexivity|].
        apply prop_lookup_set_ne. exact Hk. }
      rewrite Hstep. reflexivity. }
  rewrite Hfold. cbn [prop_lookup].
  assert (Hhit : existsb (fun entry : string * string => String.eqb (fst entry) key) storage
                 = match prop_lookup key storage with Some _ => true | None => false end).
  { clear. induction storage as [|[k item] rest IH]; [reflexivity|].
    cbn [existsb prop_lookup fst]. destruct (String.eqb k key); [reflexivity|exact IH]. }
  rewrite Hhit. destruct (prop_lookup key storage); reflexivity.
Qed.

(** X6.  [session] never fails and reads every item of a storage none
    of whose items is named like a property every object inherits:
    under each key that is no such name the snapshot holds the JSON
    value of the item, or the item itself when it is not JSON text; a
    key the storage lacks is [undefined], and without a storage the
    snapshot is empty. *)
Theorem session_reads_every_item w :
  plain_storage w = true ->
  exists sessionData,
    session w = mret sessionData
    /\ forall key,
         inherited_name key = false ->
         get_prop_opt sessionData key
         = match localStorage w with
           | Some items =>
               match prop_lookup key items with
               | Some item => itemValue item
               | None => VUndefined
               end
           | None => VUndefined
           end.
Proof.
  intros _. exists (snapshot w). split; [apply session_snapshot|].
  intros key Hkey. apply snapshot_lookup, Hkey.
Qed.

(** X7.  What [store] wrote is what [session] reads back, key by key,
    when no key of the data and no item of the storage is named like a
    property every object inherits, for every key that is no such
    name: a value that is [undefined] or [null] removes the key; any
    other value is read back as the JSON value of the text written for
    it (its JSON text for an object, [String(value)] otherwise), or as
    that text when it is not JSON.  So a string comes back unchanged
    when it is not JSON text, and as the value it denotes when it is;
    keys that [store] was not given are left as they were. *)
Theorem stored_value_is_read_back props items w :
  distinct_keys props = true ->
  own_names props = true ->
  own_names items = true ->
  exists items',
    store (VObj props) (Some items) = Normal (Some items')
    /\ forall key,
         inherited_name key = false ->
         get_prop_opt (snapshot (with_storage (Some items') w)) key
         = match prop_lookup key props with
           | Some value => if is_nullish value then VUndefined else itemValue (itemText value)
           | None => get_prop_opt (snapshot (with_storage (Some items) w)) key
           end.
Proof.
  intros Hkeys _ _. eexists. split; [reflexivity|].
  intros key Hkey. rewrite !(snapshot_lookup _ _ Hkey). cbn [localStorage with_storage].
  rewrite (store_lookup props items key Hkeys).
  destruct (prop_lookup key props) as [value|]; [|reflexivity].
  destruct (is_nullish value); reflexivity.
Qed.

(** X8.  [dispose] removes the keys it is given and no other, in a
    storage none of whose items is named like a property every object
    inherits: after it the snapshot has [undefined] under each of them
    and what it had before under every other key, for every key that is
    no such name. *)
Theorem dispose_removes_only_the_keys keys w key :
  plain_storage w = true ->
  inherited_name key = false ->
  get_prop_opt (snapshot (with_storage (dispose keys (localStorage w)) w)) key
  = if existsb (String.eqb key) keys then VUndefined else get_prop_opt (snapshot w) key.
Proof.
  intros _ Hkey.
  rewrite !(snapshot_lookup _ _ Hkey). cbn [localStorage with_storage]. unfold dispose.
  destruct (localStorage w) as [items|].
  - rewrite dispose_lookup. destruct (existsb _ keys); reflexivity.
  - destruct (existsb _ keys); reflexivity.
Qed.

Lemma requestHeadersFor_token this encoderHeaders sessionData t :
  sessionToken sessionData = VStr t -> t <> "" ->
  WebHeaders.get "Authorization" (requestHeadersFor this encoderHeaders sessionData)
  = Some (WebHeaders.stored ("Bearer " ++ t)).
Proof.
  intros Htoken Ht. unfold requestHeadersFor. rewrite Htoken.
  assert (Htruthy : truthy (VStr t) = true).
  { simpl. destruct (String.eqb t "") eqn:E; [|reflexivity].
    apply String.eqb_eq in E. contradiction. }
  rewrite Htruthy. apply headers_get_set.
Qed.

Lemma requestHeadersFor_no_token this encoderHeaders sessionData :
  truthy (sessionToken sessionData) = false ->
  requestHeadersFor this encoderHeaders sessionData
  = fold_left (fun h nv => WebHeaders.set (fst nv) (snd nv) h) encoderHeaders
              (WebHeaders.of_record (defaultHeaders this)).
Proof.
  intros Hfalsy. unfold requestHeadersFor.
  destruct (sessionToken sessionData); try reflexivity. rewrite Hfalsy. reflexivity.
Qed.

(** X9.  A token written with [store] is sent: when [token] was stored
    as a non-empty string that is not JSON text, every request of a
    later call carries it under [Authorization] as the platform stores
    the text [Bearer], a space and the token: its bytes without
    whitespace at either end, which for a token of visible ASCII
    characters is that text itself.  (The token is a property of the
    snapshot itself, whatever else the storage holds; a request is sent
    only when the platform accepts the value.) *)
Theorem stored_token_is_sent this ep debugPath a b w items items' token request :
  token <> "" ->
  JSON_parse token = None ->
  store (VObj [("token", VStr token)]) (Some items) = Normal (Some items') ->
  In request
     (requests (trace (_generateFetchFunction this ep debugPath a b
                         (with_storage (Some items') w)))) ->
  WebHeaders.accepts "Authorization" ("Bearer " ++ token) = true
  /\ WebHeaders.get "Authorization" (req_headers request)
     = Some (WebHeaders.stored ("Bearer " ++ token))
  /\ (visible token = true ->
      WebHeaders.get "Authorization" (req_headers request) = Some ("Bearer " ++ token)).
Proof.
  intros Htoken Hparse Hstore Hin.
  pose proof (call_sends_accepted _ _ _ _ _ _ _ Hin) as Haccepted.
  destruct (call_sends _ _ _ _ _ _ _ Hin) as (p & q & url & _ & _ & _ & Hreq & _).
  subst request. unfold requestFor. cbn [req_headers].
  assert (Hsession : sessionToken (snapshot (with_storage (Some items') w)) = VStr token).
  { unfold sessionToken. rewrite snapshot_lookup by reflexivity.
    cbn [localStorage with_storage].
    unfold store in Hstore. cbn [Object_entries forEach_props is_nullish] in Hstore.
    injection Hstore as <-. unfold setItem. rewrite prop_lookup_set_eq.
    unfold itemText, itemValue.
    cbn [typeof String.eqb Ascii.eqb Bool.eqb ToString]. rewrite Hparse.
    unfold js_or.
    assert (Htruthy : truthy (VStr token) = true).
    { simpl. destruct (String.eqb token "") eqn:E; [|reflexivity].
      apply String.eqb_eq in E. contradiction. }
    rewrite Htruthy. reflexivity. }
  rewrite (requestHeadersFor_token _ _ _ token Hsession Htoken).
  split; [|split; [reflexivity|]].
  - unfold headers_accepted in Haccepted. rewrite Hsession in Haccepted.
    apply andb_true_iff in Haccepted. destruct Haccepted as [_ Haccepted].
    assert (Htruthy : truthy (VStr token) = true).
    { simpl. destruct (String.eqb token "") eqn:E; [|reflexivity].
      apply String.eqb_eq in E. contradiction. }
    rewrite Htruthy in Haccepted. exact Haccepted.
  - intros Hvisible. rewrite (stored_bearer token Hvisible Htoken). reflexivity.
Qed.

(** X10.  After [clearAllPersistentData] the session is empty, and a
    call adds no [Authorization] header of its own: the headers of its
    request are the default headers with what the encoder set. *)
Theorem cleared_storage_sends_no_token this ep debugPath a b w request :
  let w' := with_storage (clearAllPersistentData (localStorage w)) w in
  snapshot w' = VObj []
  /\ (In request (requests (trace (_generateFetchFunction this ep debugPath a b w'))) ->
      exists encoderHeaders,
        (encoderHeaders = [] \/ encoderHeaders = [("Content-Type", "application/json")])
        /\ req_headers request
           = fold_left (fun h nv => WebHeaders.set (fst nv) (snd nv) h) encoderHeaders
                       (WebHeaders.of_record (defaultHeaders this))).
Proof.
  cbv zeta.
  assert (Hempty : snapshot (with_storage (clearAllPersistentData (localStorage w)) w)
                   = VObj []).
  { unfold snapshot, session, clearAllPersistentData. cbn [localStorage with_storage].
    destruct (localStorage w); reflexivity. }
  split; [exact Hempty|]. intros Hin.
  destruct (call_sends _ _ _ _ _ _ _ Hin) as (p & q & url & _ & _ & _ & Hreq & _).
  exists (prep_headers (_prepareRequestBodyAndHeaders (method ep) url q)).
  split; [apply prepared_headers|].
  subst request. unfold requestFor. cbn [req_headers]. rewrite Hempty.
  apply requestHeadersFor_no_token. reflexivity.
Qed.

End Storage.

(** ** The constructor and the instances it builds *)

Lemma prop_lookup_set {A : Type} (key key' : string) (v : A) (props : list (string * A)) :
  prop_lookup key (prop_set key' v props)
  = if String.eqb key' key then Some v else prop_lookup key props.
Proof.
  destruct (String.eqb key' key) eqn:Hk.
  - apply String.eqb_eq in Hk. subst key'. apply prop_lookup_set_eq.
  - apply String.eqb_neq in Hk. apply prop_lookup_set_ne. exact Hk.
Qed.

(** Once a header has a value, no later write takes the name away. *)
Lemma headers_set_keeps (name name' value : string) (h : Headers) :
  is_Some (WebHeaders.get name h) ->
  is_Some (WebHeaders.get name (WebHeaders.set name' value h)).
Proof.
  unfold WebHeaders.get, WebHeaders.set. rewrite prop_lookup_set.
  destruct (String.eqb _ _); [eexists; reflexivity|trivial].
Qed.

Lemma headers_append_keeps (name name' value : string) (h : Headers) :
  is_Some (WebHeaders.get name h) ->
  is_Some (WebHeaders.get name (WebHeaders.append name' value h)).
Proof.
  intros Hname. unfold WebHeaders.append.
  destruct (WebHeaders.get name' h).
  - unfold WebHeaders.get. rewrite prop_lookup_set.
    destruct (String.eqb _ _); [eexists; reflexivity|exact Hname].
  - unfold WebHeaders.get in *. rewrite prop_lookup_app.
    destruct Hname as [v ->]. eexists; reflexivity.
Qed.

Lemma headers_append_adds (name value : string) (h : Headers) :
  is_Some (WebHeaders.get name (WebHeaders.append name value h)).
Proof.
  unfold WebHeaders.append. destruct (WebHeaders.get name h) eqn:Hname.
  - unfold WebHeaders.get. rewrite prop_lookup_set_eq. eexists; reflexivity.
  - unfold WebHeaders.get in *. rewrite prop_lookup_app, Hname.
    cbn [prop_lookup]. rewrite String.eqb_refl. eexists; reflexivity.
Qed.

(** [new Headers(record)] has every name of the record. *)
Lemma of_record_has (name : string) (record : list (string * string)) :
  is_Some (prop_lookup name record) ->
  is_Some (WebHeaders.get name (WebHeaders.of_record record)).
Proof.
  unfold WebHeaders.of_record. generalize ([] : Headers) as h.
  induction record as [|[k v] rest IH]; intros h [x Hx]; [discriminate|].
  cbn [fold_left fst snd]. cbn [prop_lookup] in Hx.
  destruct (String.eqb k name) eqn:Hk.
  - apply String.eqb_eq in Hk. subst k.
    assert (Hkept : forall l h', is_Some (WebHeaders.get name h') ->
               is_Some (WebHeaders.get name
                          (fold_left (fun h kv => WebHeaders.append (fst kv) (snd kv) h) l h'))).
    { induction l as [|[k' v'] l IHl]; intros h' Hh'; [exact Hh'|].
      cbn [fold_left]. apply IHl, headers_append_keeps, Hh'. }
    apply Hkept, headers_append_adds.
  - apply IH. eexists; exact Hx.
Qed.

Section Construction.
Context `{Platform}.

(** The fields of an instance, read off the configuration. *)
Lemma constructor_fields config this :
  outcome (constructor config) = Normal this ->
  URL_parse (base config) = Some (baseUrl this)
  /\ onInvalidCredential this
     = default (fun result => mkCallbackRun result (Normal (RetPromise (Fulfilled tt))))
               (config_onInvalidCredential config)
  /\ defaultHeaders this
     = (let headers :=
          default [("Accept", "application/json")] (config_defaultHeaders config) in
        if String.eqb (default EmptyString (prop_lookup "Accept" headers)) ""
        then prop_set "Accept" "application/json" headers
        else headers)
  /\ requestTimeout this
     = match config_requestTimeout config with
       | Some t => if t =? 0 then 30000 else t
       | None => 30000
       end
  /\ _initializeEndpoints (endpoints config) empty_object ""
     = mkEff (trace (constructor config)) (Normal (fetch this)).
Proof.
  unfold constructor.
  destruct (String.eqb (base config) ""); [discriminate|].
  destruct (URL_parse (base config)) as [parsed|]; [|discriminate].
  cbv zeta.
  destruct (_initializeEndpoints (endpoints config) empty_object "") as [t [client|e]];
    [|discriminate].
  rewrite (bind_normal _ _ client) by reflexivity. cbn [outcome trace mret Eff_ret].
  intros [= <-]. cbn [baseUrl onInvalidCredential defaultHeaders requestTimeout fetch].
  rewrite app_nil_r. repeat split; reflexivity.
Qed.

(** X11.  Every request of an instance carries an [Accept] header:
    the constructor adds [application/json] when the configuration gives
    none (or an empty one), and neither the encoder nor the bearer token
    writes under that name.  With no default headers configured the
    value is [application/json].  (The default headers are those the
    instance was built with: the record the configuration passed is not
    changed afterwards.) *)
Theorem every_request_carries_accept config this ep debugPath a b w request :
  outcome (constructor config) = Normal this ->
  In request (requests (trace (_generateFetchFunction this ep debugPath a b w))) ->
  is_Some (WebHeaders.get "Accept" (req_headers request))
  /\ (config_defaultHeaders config = None ->
      WebHeaders.get "Accept" (req_headers request) = Some "application/json").
Proof.
  intros Hthis Hin.
  destruct (constructor_fields _ _ Hthis) as (_ & _ & Hheaders & _).
  destruct (call_sends _ _ _ _ _ _ _ Hin) as (p & q & url & _ & _ & _ & Hreq & _).
  subst request. unfold requestFor. cbn [req_headers].
  set (prepared := _prepareRequestBodyAndHeaders (method ep) url q).
  assert (Hwrites :
             WebHeaders.get "Accept" (requestHeadersFor this (prep_headers prepared)
                                                        (snapshot w))
             = WebHeaders.get "Accept" (WebHeaders.of_record (defaultHeaders this))).
  { unfold requestHeadersFor.
    assert (Hencoder :
              WebHeaders.get "Accept"
                (fold_left (fun h nv => WebHeaders.set (fst nv) (snd nv) h)
                           (prep_headers prepared)
                           (WebHeaders.of_record (defaultHeaders this)))
              = WebHeaders.get "Accept" (WebHeaders.of_record (defaultHeaders this))).
    { subst prepared.
      destruct (prepared_headers (method ep) url q) as [-> | ->]; [reflexivity|].
      cbn [fold_left fst snd]. apply headers_get_set_other. discriminate. }
    destruct (sessionToken (snapshot w)); try exact Hencoder.
    destruct (truthy _); [|exact Hencoder].
    rewrite headers_get_set_other by discriminate. exact Hencoder. }
  rewrite Hwrites. split.
  - apply of_record_has. rewrite Hheaders. cbv zeta.
    destruct (String.eqb _ "") eqn:Hempty.
    + rewrite prop_lookup_set_eq. eexists; reflexivity.
    + destruct (prop_lookup "Accept" _) as [v|]; [eexists; reflexivity|discriminate].
  - intros Hnone. rewrite Hheaders, Hnone. reflexivity.
Qed.

(** X12.  With a base that is not empty and that the platform parses,
    on a tree whose nodes are leaves, groups and primitives
    ([walkable]: at every level the keys are distinct and none is a
    name every object inherits, such as [constructor] or [toString]),
    the constructor succeeds: it logs one warning for each primitive
    node, in the order the nodes are met, and nothing else; the client
    has a function for every leaf and an object for every group; the
    delay of the instance is never zero. *)
Theorem constructor_builds_the_client config parsed :
  base config <> "" ->
  URL_parse (base config) = Some parsed ->
  walkable (endpoints config) = true ->
  exists this,
    constructor config = mkEff (warnings "" (endpoints config)) (Normal this)
    /\ baseUrl this = parsed
    /\ fetch this = mirror "" (endpoints config)
    /\ requestTimeout this <> 0.
Proof.
  intros Hbase Hparsed Hwalk. unfold constructor.
  destruct (String.eqb (base config) "") eqn:Hb;
    [apply String.eqb_eq in Hb; contradiction|].
  rewrite Hparsed. cbv zeta.
  rewrite (initializeEndpoints_mirrors _ Hwalk).
  rewrite (bind_normal _ _ (mirror "" (endpoints config))) by reflexivity.
  cbn [trace outcome mret Eff_ret]. rewrite app_nil_r.
  eexists. split; [reflexivity|].
  cbn [baseUrl fetch requestTimeout]. split; [reflexivity|]. split; [reflexivity|].
  destruct (config_requestTimeout config) as [t|]; [|discriminate].
  destruct (t =? 0) eqn:Ht; [discriminate|]. apply Z.eqb_neq. exact Ht.
Qed.

(** X13.  With no [onInvalidCredential] configured, a 401 is passed on
    as it is: the call resolves with the envelope of the answer, whose
    [status] is 401 and whose [success] and [ok] are false. *)
Theorem default_callback_keeps_the_401
    config this ep debugPath a b w request httpResponse :
  config_onInvalidCredential config = None ->
  outcome (constructor config) = Normal this ->
  let call := _generateFetchFunction this ep debugPath a b w in
  In request (requests (trace call)) ->
  transport w request = Fulfilled httpResponse ->
  resp_status httpResponse = 401 ->
  outcome call
  = Normal (Fulfilled
      (mkEnvelope false false (normalizeErrorMessage (bodyData httpResponse)) 401)).
Proof.
  intros Hnone Hthis call Hin Hresp Hstatus.
  destruct (constructor_fields _ _ Hthis) as (_ & Hcallback & _).
  rewrite Hnone in Hcallback. cbn [default] in Hcallback.
  destruct (call_after_request _ _ _ _ _ _ _ Hin) as (url & Hvalid & Hreq & Hcall).
  cbv zeta in Hcall. subst call. rewrite Hcall. clear Hcall Hin.
  rewrite dispatch_cases. cbv zeta. rewrite Hvalid, <- Hreq, Hresp.
  change (status (envelopeOf httpResponse)) with (resp_status httpResponse).
  rewrite Hstatus. simpl (401 =? 401). cbv iota. rewrite Hcallback.
  cbn [cb_completion cb_envelope]. unfold async. cbn [outcome].
  unfold envelopeOf, resp_ok. rewrite Hstatus. reflexivity.
Qed.

End Construction.

(** ** The URL of a request *)

Section Paths.
Context `{Platform}.
#[local] Arguments String.append !s1 s2 : simpl nomatch.

Lemma mem_char_join (c : ascii) (l : list string) :
  Text.mem_char c (Text.join "" l) = existsb (Text.mem_char c) l.
Proof.
  induction l as [|x rest IH]; [reflexivity|].
  destruct rest as [|y rest].
  - simpl. rewrite orb_false_r. reflexivity.
  - change (Text.join "" (x :: y :: rest)) with (x ++ "" ++ Text.join "" (y :: rest)).
    change ("" ++ Text.join "" (y :: rest)) with (Text.join "" (y :: rest)).
    rewrite mem_char_append, IH. reflexivity.
Qed.

(** The characters that end a path are escaped in every segment. *)
Lemma path_encode_has_no_delimiter (c : ascii) (s : string) :
  c = "?"%char \/ c = "#"%char -> Text.mem_char c (WebURL.path_encode s) = false.
Proof.
  intros Hc. induction s as [|d s IH]; [reflexivity|].
  cbn [WebURL.path_encode]. rewrite mem_char_append, IH, orb_false_r.
  destruct Hc as [-> | ->]; destruct d as [[] [] [] [] [] [] [] []]; reflexivity.
Qed.

Lemma normalize_segments_clean (c : ascii) (segs path : list string) :
  c = "?"%char \/ c = "#"%char ->
  existsb (Text.mem_char c) path = false ->
  existsb (Text.mem_char c) (WebURL.normalize_segments segs path) = false.
Proof.
  intros Hc. revert path. induction segs as [|seg rest IH]; intros path Hpath; [exact Hpath|].
  assert (Hremoved : existsb (Text.mem_char c) (removelast path) = false).
  { clear IH. induction path as [|x [|y path] IHpath]; [reflexivity|reflexivity|].
    cbn [existsb] in Hpath. apply orb_false_iff in Hpath. destruct Hpath as [Hx Hrest].
    change (removelast (x :: y :: path)) with (x :: removelast (y :: path)).
    cbn [existsb]. rewrite Hx. exact (IHpath Hrest). }
  assert (Hadd : forall p seg', existsb (Text.mem_char c) p = false ->
             Text.mem_char c seg' = false ->
             existsb (Text.mem_char c) (p ++ [seg']) = false).
  { intros p seg' Hp Hseg. rewrite existsb_app, Hp. cbn [existsb]. rewrite Hseg. reflexivity. }
  cbn [WebURL.normalize_segments].
  destruct (WebURL.is_double_dot seg).
  { apply IH. destruct rest; [apply Hadd; [exact Hremoved|]|exact Hremoved].
    destruct Hc as [-> | ->]; reflexivity. }
  destruct (WebURL.is_single_dot seg).
  { apply IH. destruct rest; [apply Hadd; [exact Hpath|]|exact Hpath].
    destruct Hc as [-> | ->]; reflexivity. }
  apply IH, Hadd; [exact Hpath|]. apply path_encode_has_no_delimiter, Hc.
Qed.

Lemma normalize_segments_nonempty (segs path : list string) :
  segs <> [] -> WebURL.normalize_segments segs path <> [].
Proof.
  revert path. induction segs as [|seg rest IH]; intros path Hsegs; [contradiction|].
  cbn [WebURL.normalize_segments].
  destruct rest as [|next rest].
  - destruct (WebURL.is_double_dot seg); [|destruct (WebURL.is_single_dot seg)];
      cbn [WebURL.normalize_segments]; intros Hnil; apply app_eq_nil in Hnil;
      destruct Hnil as [_ Hnil]; discriminate.
  - destruct (WebURL.is_double_dot seg); [|destruct (WebURL.is_single_dot seg)];
      apply IH; discriminate.
Qed.

Lemma path_segments_nonempty (s : string) : WebURL.path_segments s <> [].
Proof.
  destruct s as [|c s]; [discriminate|]. cbn [WebURL.path_segments].
  destruct (WebURL.is_path_sep c); [discriminate|].
  destruct (WebURL.path_segments s); discriminate.
Qed.

(** What the setter of [pathname] leaves: a path that starts with a
    slash and in which [?] and [#] are escaped. *)
Lemma parse_path_shape (value : string) :
  Text.starts_with "/" (WebURL.parse_path value) = true
  /\ Text.mem_char "?" (WebURL.parse_path value) = false
  /\ Text.mem_char "#" (WebURL.parse_path value) = false.
Proof.
  unfold WebURL.parse_path. cbv zeta.
  set (v := match WebURL.remove_tab_newline value with
            | String c v' => if WebURL.is_path_sep c then v' else _
            | EmptyString => _
            end).
  pose proof (normalize_segments_nonempty (WebURL.path_segments v) []
                (path_segments_nonempty v)) as Hnonempty.
  assert (Hclean : forall c, c = "?"%char \/ c = "#"%char ->
             Text.mem_char c
               (Text.join "" (map (fun seg => String "/" seg)
                                  (WebURL.normalize_segments (WebURL.path_segments v) [])))
             = false).
  { intros c Hc. rewrite mem_char_join.
    pose proof (normalize_segments_clean c (WebURL.path_segments v) [] Hc eq_refl) as Hsegs.
    revert Hsegs. generalize (WebURL.normalize_segments (WebURL.path_segments v) []).
    induction l as [|x rest IH]; [reflexivity|].
    cbn [existsb map Text.mem_char]. intros Hsegs. apply orb_false_iff in Hsegs.
    destruct Hsegs as [Hx Hrest]. rewrite Hx, (IH Hrest).
    destruct Hc as [-> | ->]; reflexivity. }
  split; [|split; apply Hclean; [left|right]; reflexivity].
  destruct (WebURL.normalize_segments (WebURL.path_segments v) []) as [|x [|y rest]];
    [contradiction|reflexivity|reflexivity].
Qed.

(** X14.  Building the URL of a request changes the path of the base
    URL and nothing else: scheme, host and port, query and fragment are
    those of the base.  The path starts with a slash and holds no [?]
    and no [#]: whatever the template and the path parameters are, they
    cannot start a query or a fragment. *)
Theorem built_url_changes_the_path_only this ep source url :
  outcome (_buildUrl this ep source) = Normal url ->
  url_authority url = url_authority (baseUrl this)
  /\ url_search url = url_search (baseUrl this)
  /\ url_hash url = url_hash (baseUrl this)
  /\ Text.starts_with "/" (url_pathname url) = true
  /\ Text.mem_char "?" (url_pathname url) = false
  /\ Text.mem_char "#" (url_pathname url) = false.
Proof.
  unfold _buildUrl. cbv zeta.
  match goal with
  | |- context [substitutePath ?t source] =>
      destruct (outcome (substitutePath t source)) as [tempPath|e] eqn:Hpath
  end.
  - rewrite (bind_normal _ _ _ Hpath). cbn [outcome mret Eff_ret].
    intros [= <-]. cbn [url_authority url_search url_hash url_pathname WebURL.set_pathname].
    destruct (parse_path_shape tempPath) as (Hslash & Hquery & Hhash).
    repeat split; assumption.
  - rewrite (bind_throw _ _ _ Hpath). discriminate.
Qed.

(** Replacing a text that does not occur changes nothing. *)
Lemma replace_all_absent (needle repl s : string) :
  Text.includes needle s = false -> Text.replace_all needle repl s = s.
Proof.
  unfold Text.replace_all. induction s as [|c s IH]; [reflexivity|].
  cbn [Text.includes Text.replace_all_from]. intros Hnone.
  apply orb_false_iff in Hnone. destruct Hnone as [Hhead Htail].
  rewrite Hhead, (IH Htail). reflexivity.
Qed.

Lemma replace_all_skip (needle repl p s : string) :
  Text.replace_all_from needle repl (String.length p) (p ++ s)
  = Text.replace_all needle repl s.
Proof.
  induction p as [|c p IH]; [destruct s; reflexivity|].
  change (String c p ++ s) with (String c (p ++ s)). exact IH.
Qed.

Lemma includes_no_colon (key s : string) :
  Text.mem_char ":" s = false -> Text.includes (":" ++ key) s = false.
Proof.
  induction s as [|c s IH]; [reflexivity|].
  cbn [Text.mem_char]. intros Hs. apply orb_false_iff in Hs. destruct Hs as [Hc Hs].
  change (":" ++ key) with (String ":" key).
  cbn [Text.includes Text.starts_with]. rewrite Hc. cbn [andb orb]. exact (IH Hs).
Qed.

(** Every occurrence is replaced, left to right. *)
Lemma replace_all_pieces (key repl : string) (pieces : list string) :
  Forall (fun piece => Text.mem_char ":" piece = false) pieces ->
  Text.replace_all (":" ++ key) repl (Text.join (":" ++ key) pieces)
  = Text.join repl pieces.
Proof.
  intros Hpieces. induction Hpieces as [|piece rest Hpiece Hrest IH]; [reflexivity|].
  destruct rest as [|next rest].
  { apply replace_all_absent, includes_no_colon, Hpiece. }
  change (Text.join (":" ++ key) (piece :: next :: rest))
    with (piece ++ (":" ++ key) ++ Text.join (":" ++ key) (next :: rest)).
  change (Text.join repl (piece :: next :: rest))
    with (piece ++ repl ++ Text.join repl (next :: rest)).
  rewrite <- IH. clear IH Hrest.
  generalize (Text.join (":" ++ key) (next :: rest)) as tail. intros tail.
  unfold Text.replace_all.
  induction piece as [|c piece IHpiece].
  - change ("" ++ ?s) with s.
    change ((":" ++ key) ++ tail) with (String ":" (key ++ tail)).
    cbn [Text.replace_all_from].
    change (String ":" (key ++ tail)) with ((":" ++ key) ++ tail).
    rewrite starts_with_append.
    change (String.length (":" ++ key) - 1)%nat with (String.length key - 0)%nat.
    rewrite Nat.sub_0_r, replace_all_skip. reflexivity.
  - cbn [Text.mem_char] in Hpiece. apply orb_false_iff in Hpiece.
    destruct Hpiece as [Hc Hpiece].
    change (String c piece ++ ?s) with (String c (piece ++ s)).
    cbn [Text.replace_all_from].
    change (":" ++ key) with (String ":" key) at 1.
    cbn [Text.starts_with]. rewrite Hc. cbn [andb].
    rewrite (IHpiece Hpiece). reflexivity.
Qed.

(** X15.  A path parameter given by name replaces its placeholder at
    every place the template has it: for a template made of pieces
    without a colon joined by [:key], the path is the pieces joined by
    the URI-encoded text of the value, the empty text for a value that
    is [undefined] or [null].  What follows a placeholder is not looked
    at: [:id] is also replaced at the head of [:idx]. *)
Theorem named_placeholder_is_replaced_everywhere key value pieces :
  regexp_literal (":" ++ key) = true ->
  Forall (fun piece => Text.mem_char ":" piece = false) pieces ->
  substitutePath (Text.join (":" ++ key) pieces) (VObj [(key, value)])
  = mret (Text.join (Text.encodeURIComponent (ToString (js_coalesce value (VStr ""))))
                    pieces).
Proof.
  intros Hliteral Hpieces. unfold substitutePath.
  cbn [is_nullish negb typeof own_entries Object_entries forEach_props].
  rewrite String.eqb_refl, bind_ret. cbv zeta. rewrite Hliteral.
  set (text := Text.encodeURIComponent (ToString (js_coalesce value (VStr "")))).
  rewrite <- (replace_all_pieces key text pieces Hpieces).
  destruct (Text.includes _ _) eqn:Hoccurs; [reflexivity|].
  rewrite (replace_all_absent _ _ _ Hoccurs). reflexivity.
Qed.

End Paths.

(** ** Query parameters *)

Section Query.
Context `{Platform}.
#[local] Arguments String.append !s1 s2 : simpl nomatch.

Lemma plus_to_space_append (s t : string) :
  WebURL.plus_to_space (s ++ t) = WebURL.plus_to_space s ++ WebURL.plus_to_space t.
Proof.
  induction s as [|c s IH]; [reflexivity|].
  change (String c s ++ t) with (String c (s ++ t)).
  cbn [WebURL.plus_to_space]. rewrite IH. reflexivity.
Qed.

(** Decoding undoes the encoding of a name or value. *)
Lemma form_decode_encode (s : string) :
  WebURL.percent_decode (WebURL.plus_to_space (WebURL.form_encode s)) = s.
Proof.
  induction s as [|c s IH]; [reflexivity|].
  cbn [WebURL.form_encode]. rewrite plus_to_space_append.
  rewrite <- IH at 2.
  generalize (WebURL.plus_to_space (WebURL.form_encode s)) as rest. intros rest.
  destruct c as [[] [] [] [] [] [] [] []]; reflexivity.
Qed.

(** An encoded name or value holds neither [&] nor [=]. *)
Lemma form_encode_has_no_separator (c : ascii) (s : string) :
  c = "&"%char \/ c = "="%char -> Text.mem_char c (WebURL.form_encode s) = false.
Proof.
  intros Hc. induction s as [|d s IH]; [reflexivity|].
  cbn [WebURL.form_encode]. rewrite mem_char_append, IH, orb_false_r.
  destruct Hc as [-> | ->]; destruct d as [[] [] [] [] [] [] [] []]; reflexivity.
Qed.

Lemma split_on_piece (sep : ascii) (piece rest : string) :
  Text.mem_char sep piece = false ->
  WebURL.split_on sep (piece ++ String sep rest) = piece :: WebURL.split_on sep rest.
Proof.
  induction piece as [|c piece IH]; intros Hpiece.
  - change ("" ++ String sep rest) with (String sep rest).
    cbn [WebURL.split_on]. rewrite Ascii.eqb_refl. reflexivity.
  - cbn [Text.mem_char] in Hpiece. apply orb_false_iff in Hpiece.
    destruct Hpiece as [Hc Hpiece].
    change (String c piece ++ String sep rest) with (String c (piece ++ String sep rest)).
    cbn [WebURL.split_on]. rewrite Ascii.eqb_sym, Hc, (IH Hpiece). reflexivity.
Qed.

Lemma split_on_last (sep : ascii) (piece : string) :
  Text.mem_char sep piece = false -> WebURL.split_on sep piece = [piece].
Proof.
  induction piece as [|c piece IH]; intros Hpiece; [reflexivity|].
  cbn [Text.mem_char] in Hpiece. apply orb_false_iff in Hpiece.
  destruct Hpiece as [Hc Hpiece].
  cbn [WebURL.split_on]. rewrite Ascii.eqb_sym, Hc, (IH Hpiece). reflexivity.
Qed.

Lemma cut_at_first (sep : ascii) (l r : string) :
  Text.mem_char sep l = false -> WebURL.cut_at sep (l ++ String sep r) = (l, r).
Proof.
  induction l as [|c l IH]; intros Hl.
  - change ("" ++ String sep r) with (String sep r).
    cbn [WebURL.cut_at]. rewrite Ascii.eqb_refl. reflexivity.
  - cbn [Text.mem_char] in Hl. apply orb_false_iff in Hl. destruct Hl as [Hc Hl].
    change (String c l ++ String sep r) with (String c (l ++ String sep r)).
    cbn [WebURL.cut_at]. rewrite Ascii.eqb_sym, Hc, (IH Hl). reflexivity.
Qed.

(** Parsing a serialized list of pairs gives the list back. *)
Lemma form_parse_serialize (pairs : list (string * string)) :
  WebURL.form_parse (WebURL.form_serialize pairs) = pairs.
Proof.
  unfold WebURL.form_parse, WebURL.form_serialize.
  set (piece := fun kv : string * string =>
                  WebURL.form_encode (fst kv) ++ "=" ++ WebURL.form_encode (snd kv)).
  assert (Hclean : forall kv, Text.mem_char "&" (piece kv) = false).
  { intros kv. unfold piece. rewrite !mem_char_append.
    rewrite !form_encode_has_no_separator by (left; reflexivity). reflexivity. }
  assert (Hone : forall kv,
             (if String.eqb (piece kv) ""
              then []
              else let (k, v) := WebURL.cut_at "=" (piece kv) in
                   [(WebURL.percent_decode (WebURL.plus_to_space k),
                     WebURL.percent_decode (WebURL.plus_to_space v))])
             = [kv]).
  { intros [k v]. unfold piece. cbn [fst snd].
    change ("=" ++ WebURL.form_encode v) with (String "=" (WebURL.form_encode v)).
    rewrite cut_at_first by (apply form_encode_has_no_separator; right; reflexivity).
    rewrite !form_decode_encode.
    destruct (WebURL.form_encode k); reflexivity. }
  induction pairs as [|kv rest IH]; [reflexivity|].
  destruct rest as [|next rest].
  - cbn [map Text.join]. rewrite split_on_last by apply Hclean.
    cbn [flat_map]. rewrite Hone. reflexivity.
  - change (Text.join "&" (map piece (kv :: next :: rest)))
      with (piece kv ++ "&" ++ Text.join "&" (map piece (next :: rest))).
    change ("&" ++ Text.join "&" (map piece (next :: rest)))
      with (String "&" (Text.join "&" (map piece (next :: rest)))).
    rewrite split_on_piece by apply Hclean.
    cbn [flat_map]. rewrite Hone, IH. reflexivity.
Qed.

Lemma searchParams_of_append (key value : string) (u : URL) :
  WebURL.searchParams (WebURL.searchParams_append key value u)
  = (WebURL.searchParams u ++ [(key, value)])%list.
Proof.
  unfold WebURL.searchParams at 1. unfold WebURL.searchParams_append. cbn [url_search].
  change (Text.drop 1 ("?" ++ ?s)) with s. apply form_parse_serialize.
Qed.

(** X16.  On a GET or DELETE endpoint an object payload goes into the
    query and nowhere else: parsed back, the query of the request holds
    the pairs the URL already had, followed by one pair for every entry
    of the payload that is not [undefined] or [null] and for every
    element of an array entry that is not [null], in order, each with
    the key and the text of the value exactly as given; path, origin and
    fragment are unchanged and there is no body. *)
Theorem query_carries_the_payload m url payloadSource :
  sends_body m = false ->
  is_object payloadSource = true ->
  let prepared := _prepareRequestBodyAndHeaders m url payloadSource in
  WebURL.searchParams (prep_url prepared)
  = (WebURL.searchParams url ++ queryPairs (own_entries payloadSource))%list
  /\ url_authority (prep_url prepared) = url_authority url
  /\ url_pathname (prep_url prepared) = url_pathname url
  /\ url_hash (prep_url prepared) = url_hash url
  /\ prep_body prepared = BodyNone.
Proof.
  intros Hm Hobject. cbv zeta. unfold sends_body in Hm. apply negb_false_iff in Hm.
  unfold _prepareRequestBodyAndHeaders. rewrite Hm.
  assert (Htruthy : truthy payloadSource = true)
    by (destruct payloadSource; try discriminate; reflexivity).
  assert (Htype : String.eqb (typeof payloadSource) "object" = true)
    by (destruct payloadSource; try discriminate; reflexivity).
  rewrite Htruthy, Htype. cbn [negb prep_url prep_body].
  rewrite appendQuery_queryPairs.
  generalize (queryPairs (own_entries payloadSource)) as pairs. intros pairs.
  assert (Hfold : forall u,
             let u' := fold_left
                         (fun u kv => WebURL.searchParams_append (fst kv) (snd kv) u)
                         pairs u in
             WebURL.searchParams u' = (WebURL.searchParams u ++ pairs)%list
             /\ url_authority u' = url_authority u
             /\ url_pathname u' = url_pathname u
             /\ url_hash u' = url_hash u).
  { induction pairs as [|[k v] rest IH]; intros u; cbv zeta.
    - cbn [fold_left]. rewrite app_nil_r. repeat split; reflexivity.
    - cbn [fold_left fst snd].
      destruct (IH (WebURL.searchParams_append k v u)) as (Hq & Ha & Hp & Hh).
      rewrite Hq, Ha, Hp, Hh, searchParams_of_append, <- app_assoc.
      repeat split; reflexivity. }
  destruct (Hfold url) as (Hq & Ha & Hp & Hh). repeat split; assumption.
Qed.

End Query.

(** ** Bodies *)

Lemma form_files_app (f g : FormData) :
  form_files (f ++ g)%list = (form_files f ++ form_files g)%list.
Proof. unfold form_files. apply flat_map_app. Qed.

Lemma createFormData_unfold (obj : JsValue) (formData : FormData)
    (parentKey : option string) :
  _createFormDataFromObject obj formData parentKey
  = match obj with
    | VObj props => forEach_props (appendField parentKey) props formData
    | VArr items => forEach_items (appendField parentKey) 0 items formData
    | _ => formData
    end.
Proof. destruct obj; reflexivity. Qed.

(** The encoder only adds to the form, and what it adds for a value
    holds the files of the value. *)
Lemma createFormData_files (v : JsValue) :
  (forall formData parentKey,
     form_files (_createFormDataFromObject v formData parentKey)
     = (form_files formData
        ++ match v with VFile _ => [] | _ => files_of v end)%list)
  /\ (forall formData parentKey key,
        form_files (appendField parentKey key v formData)
        = (form_files formData ++ files_of v)%list).
Proof.
  induction v as [| |b|n|s|name|name message|items IH|props IH] using JsValue_induction;
    try (split; intros; cbn [_createFormDataFromObject appendField files_of];
         rewrite ?form_files_app, ?app_nil_r; reflexivity).
  - (* an array *)
    assert (Hobj : forall formData parentKey,
               form_files (_createFormDataFromObject (VArr items) formData parentKey)
               = (form_files formData ++ files_of (VArr items))%list).
    { intros formData parentKey. rewrite createFormData_unfold. cbn [files_of].
      generalize 0%nat as index. revert formData.
      induction IH as [|item rest [_ Hitem] _ IHrest]; intros formData index.
      - cbn [forEach_items flat_map]. rewrite app_nil_r. reflexivity.
      - cbn [forEach_items flat_map]. rewrite IHrest, Hitem, <- app_assoc. reflexivity. }
    split; [exact Hobj|]. clear Hobj.
    intros formData parentKey key. cbn [appendField files_of].
    generalize 0%nat as index. revert formData.
    induction IH as [|item rest [Hitem _] _ IHrest]; intros formData index.
    + cbn [forEach_items flat_map]. rewrite app_nil_r. reflexivity.
    + cbn [forEach_items flat_map]. rewrite IHrest, app_assoc. f_equal.
      destruct item; cbn [is_object instanceof_File is_nullish negb andb];
        rewrite ?Hitem, ?form_files_app, ?app_nil_r; reflexivity.
  - (* a plain object *)
    assert (Hobj : forall formData parentKey,
               form_files (_createFormDataFromObject (VObj props) formData parentKey)
               = (form_files formData ++ files_of (VObj props))%list).
    { intros formData parentKey. rewrite createFormData_unfold. cbn [files_of].
      revert formData.
      induction IH as [|[key value] rest [_ Hvalue] _ IHrest]; intros formData.
      - cbn [forEach_props flat_map]. rewrite app_nil_r. reflexivity.
      - cbn [forEach_props flat_map snd]. rewrite IHrest, Hvalue, <- app_assoc.
        reflexivity. }
    split; [exact Hobj|].
    intros formData parentKey key. cbn [appendField]. apply Hobj.
Qed.

(** X17.  The multipart encoder loses no file: the files of the form
    it builds for an object or array are the files inside it at any
    depth, in the order of its entries.  (A File nested below the first
    level is lost earlier, where [hasFiles] decides not to call the
    encoder.) *)
Theorem multipart_encoder_keeps_every_file obj parentKey :
  instanceof_File obj = false ->
  form_files (_createFormDataFromObject obj [] parentKey) = files_of obj.
Proof.
  intros Hfile. destruct (createFormData_files obj) as [Hobj _].
  rewrite Hobj. destruct obj; try reflexivity. discriminate.
Qed.

Section Bodies.
Context `{Platform}.

(** X18.  A payload without nesting that has a File among its values
    is sent as a form with one part per field, named by the key, in the
    order of the fields: the file for a File, the text of the value for
    a string, number or boolean, and no part for [undefined] or [null].
    The class sets no [Content-Type] for it. *)
Theorem flat_payload_becomes_one_part_per_field m url props :
  sends_body m = true ->
  forallb (fun kv => is_flat (snd kv)) props = true ->
  hasFiles (VObj props) = true ->
  _prepareRequestBodyAndHeaders m url (VObj props)
  = mkPrepared url (BodyForm (flat_map flat_field props)) [].
Proof.
  intros Hm Hflat Hfiles. rewrite (shallow_file_is_multipart m url props Hm Hfiles).
  do 2 f_equal. rewrite createFormData_unfold.
  assert (Hfold : forall formData,
             forEach_props (appendField None) props formData
             = (formData ++ flat_map flat_field props)%list).
  { clear Hfiles. induction props as [|[key value] rest IH]; intros formData.
    - cbn [forEach_props flat_map]. rewrite app_nil_r. reflexivity.
    - cbn [forallb snd] in Hflat. apply andb_true_iff in Hflat.
      destruct Hflat as [Hvalue Hrest].
      cbn [forEach_props flat_map]. rewrite (IH Hrest), app_assoc. f_equal.
      destruct value; try discriminate; cbn [appendField flat_field fst snd];
        rewrite ?app_nil_r; reflexivity. }
  apply Hfold.
Qed.

(** The bearer token is written under its own name only. *)
Lemma requestHeadersFor_other this encoderHeaders sessionData name :
  Text.to_lower "Authorization" <> Text.to_lower name ->
  WebHeaders.get name (requestHeadersFor this encoderHeaders sessionData)
  = WebHeaders.get name
      (fold_left (fun h nv => WebHeaders.set (fst nv) (snd nv) h) encoderHeaders
                 (WebHeaders.of_record (defaultHeaders this))).
Proof.
  intros Hname. unfold requestHeadersFor.
  destruct (sessionToken sessionData); try reflexivity.
  destruct (truthy _); [|reflexivity].
  apply headers_get_set_other. exact Hname.
Qed.

(** X19.  The body of a call with an object payload on an endpoint
    that is not GET or DELETE.  When no value of the payload is a File
    and no array among its values holds one, the body is the JSON text
    of the payload and the request says [Content-Type:
    application/json], whatever the default headers say.  Otherwise the
    body is the form of the multipart encoder and [Content-Type] is
    what the default headers have under that name, if anything. *)
Theorem body_of_an_object_payload this ep debugPath a b w request :
  In request (requests (trace (_generateFetchFunction this ep debugPath a b w))) ->
  sends_body (method ep) = true ->
  exists pathParamsSource payloadSource,
    outcome (resolveArguments a b) = Normal (pathParamsSource, payloadSource)
    /\ (is_object payloadSource = true ->
        if hasFiles payloadSource
        then req_body request
             = BodyForm (_createFormDataFromObject payloadSource [] None)
             /\ WebHeaders.get "Content-Type" (req_headers request)
                = WebHeaders.get "Content-Type"
                    (WebHeaders.of_record (defaultHeaders this))
        else exists text,
               JSON_stringify payloadSource = Some text
               /\ req_body request = BodyText text
               /\ WebHeaders.get "Content-Type" (req_headers request)
                  = Some "application/json").
Proof.
  intros Hin Hm.
  destruct (call_sends _ _ _ _ _ _ _ Hin) as (p & q & url & Hargs & _ & _ & Hreq & _).
  exists p, q. split; [exact Hargs|]. intros Hobject.
  subst request. unfold requestFor. cbn [req_body req_headers].
  rewrite requestHeadersFor_other by discriminate.
  unfold sends_body in Hm. apply negb_true_iff in Hm.
  unfold _prepareRequestBodyAndHeaders. rewrite Hm.
  assert (Htruthy : truthy q = true) by (destruct q; try discriminate; reflexivity).
  assert (Htype : String.eqb (typeof q) "object" = true)
    by (destruct q; try discriminate; reflexivity).
  rewrite Htruthy, Htype. cbn [negb].
  destruct (hasFiles q).
  - cbn [prep_body prep_headers fold_left]. split; reflexivity.
  - cbn [prep_body prep_headers fold_left fst snd].
    assert (Htext : exists text, JSON_stringify q = Some text).
    { destruct q as [| |?|?|?|?|? ?|items|props]; try discriminate;
        eexists; reflexivity. }
    destruct Htext as [text Htext]. exists text. rewrite Htext.
    split; [reflexivity|]. split; [reflexivity|apply headers_get_set].
Qed.

(** X20.  A second argument that is a non-empty string is the body as
    it is, on an endpoint that is not GET or DELETE.  The request says
    [Content-Type: application/json] when the string is JSON text;
    otherwise [Content-Type] is left to the default headers. *)
Theorem string_payload_is_sent_as_it_is this ep debugPath a text w request :
  In request
     (requests (trace (_generateFetchFunction this ep debugPath a (VStr text) w))) ->
  sends_body (method ep) = true ->
  text <> "" ->
  req_body request = BodyText text
  /\ WebHeaders.get "Content-Type" (req_headers request)
     = match JSON_parse text with
       | Some _ => Some "application/json"
       | None => WebHeaders.get "Content-Type"
                   (WebHeaders.of_record (defaultHeaders this))
       end.
Proof.
  intros Hin Hm Htext.
  destruct (call_sends _ _ _ _ _ _ _ Hin) as (p & q & url & Hargs & _ & _ & Hreq & _).
  rewrite resolveArguments_direct in Hargs by reflexivity.
  cbn [outcome mret Eff_ret] in Hargs. injection Hargs as <- <-.
  subst request. unfold requestFor. cbn [req_body req_headers].
  rewrite requestHeadersFor_other by discriminate.
  unfold sends_body in Hm. apply negb_true_iff in Hm.
  unfold _prepareRequestBodyAndHeaders. rewrite Hm.
  assert (Htruthy : truthy (VStr text) = true).
  { simpl. destruct (String.eqb text "") eqn:E; [|reflexivity].
    apply String.eqb_eq in E. contradiction. }
  rewrite Htruthy. cbn [negb typeof String.eqb Ascii.eqb Bool.eqb prep_body prep_headers].
  split; [reflexivity|].
  destruct (JSON_parse text); cbn [fold_left fst snd]; [apply headers_get_set|reflexivity].
Qed.

End Bodies.

(** ** An object as the only argument *)

Section Arguments.
Context `{Platform}.


End Arguments.

(** ** The deprecated method *)

(** [callback] does not throw: it warns and returns a rejected
    promise. *)
Lemma callback_is_rejected :
  exists warning,
    callback = mkEff [EvWarn warning]
                 (Normal (Rejected (VError "Error" "The 'callback' method is deprecated."))).
Proof. eexists. reflexivity. Qed.

(** ** Finding a generated function *)






(** ** Valid trees *)

(** X22.  With a base that is not empty and that the platform parses,
    for a valid endpoint tree ([valid_tree]: every node a leaf or a
    group, and at every level the keys distinct and none a name every
    object inherits, such as [constructor] or [toString]) the
    constructor succeeds without logging anything, and the client has
    the key structure of the tree: the same names in the same order at
    every depth, a function for each leaf and an object for each
    group. *)
Theorem valid_tree_gives_its_shape_to_the_client `{Platform} config parsed :
  base config <> "" ->
  URL_parse (base config) = Some parsed ->
  valid_tree (endpoints config) = true ->
  exists this members,
    constructor config = mret this
    /\ fetch this = Node None members
    /\ Forall2 (fun kv km => fst kv = fst km /\ same_shape (snd kv) (snd km))
               (own_entries (endpoints config)) members.
Proof.
  intros Hbase Hparsed Hvalid.
  destruct (valid_tree_is_mirrored _ Hvalid) as (members & Hwalk & Hshape).
  unfold constructor.
  destruct (String.eqb (base config) "") eqn:Hb;
    [apply String.eqb_eq in Hb; contradiction|].
  rewrite Hparsed. cbv zeta. rewrite Hwalk, bind_ret.
  eexists _, members. split; [reflexivity|]. split; [reflexivity|exact Hshape].
Qed.

(** * The properties at work *)

#[local] Existing Instance Reference.platform.

(** ** 401 and the callback *)

(** The theorem of C1 on [getById(2)] answered with a 401, with the
    default callback: one call of the callback, and the envelope of the
    401 as the result. *)
Lemma unauthorized_calls_back_once_and_awaits_witness :
  callbackCalls
    (trace (_generateFetchFunction (Example.sdk Example.quiet) Example.getById
              "users.getById" (VNum 2) VUndefined (Example.answering Example.unauthorized)))
  = [envelopeOf Example.unauthorized]
  /\ status (envelopeOf Example.unauthorized) = 401
  /\ outcome (_generateFetchFunction (Example.sdk Example.quiet) Example.getById
                "users.getById" (VNum 2) VUndefined (Example.answering Example.unauthorized))
     = Normal (Fulfilled (envelopeOf Example.unauthorized)).
Proof.
  destruct (unauthorized_calls_back_once_and_awaits
              (Example.sdk Example.quiet) Example.getById "users.getById"
              (VNum 2) VUndefined (Example.answering Example.unauthorized)
              Example.request_getById_2 Example.unauthorized)
    as (Hstatus & _ & _ & Hcalls & Hawait).
  - vm_compute. left. reflexivity.
  - reflexivity.
  - reflexivity.
  - split; [exact Hcalls|]. split; [exact Hstatus|].
    destruct (Hawait (RetPromise (Fulfilled tt)) eq_refl) as (before & _ & Hout).
    exact Hout.
Defined.

(** C1 as stated fails when the callback throws: the response of
    [getById(2)] has status 401, the callback is called once, and the
    envelope the call resolves with has status 0. *)
Lemma throwing_callback_loses_the_401 :
  requests
    (trace (_generateFetchFunction (Example.sdk Example.throwing) Example.getById
              "users.getById" (VNum 2) VUndefined (Example.answering Example.unauthorized)))
  = [Example.request_getById_2]
  /\ transport (Example.answering Example.unauthorized) Example.request_getById_2
     = Fulfilled Example.unauthorized
  /\ resp_status Example.unauthorized = 401
  /\ callbackCalls
       (trace (_generateFetchFunction (Example.sdk Example.throwing) Example.getById
                 "users.getById" (VNum 2) VUndefined
                 (Example.answering Example.unauthorized)))
     = [envelopeOf Example.unauthorized]
  /\ outcome (_generateFetchFunction (Example.sdk Example.throwing) Example.getById
                "users.getById" (VNum 2) VUndefined (Example.answering Example.unauthorized))
     = Normal (Fulfilled
                 (mkEnvelope false false
                    (VObj [("message", VStr "redirect failed");
                           ("errorDetails", VError "Error" "redirect failed")])
                    0)).
Proof. repeat split; vm_compute; reflexivity. Qed.

(** The theorem of C2 on the same call: the exception of the callback
    ends in the envelope of a client-side failure. *)
Lemma callback_failure_is_caught_witness :
  outcome (_generateFetchFunction (Example.sdk Example.throwing) Example.getById
             "users.getById" (VNum 2) VUndefined (Example.answering Example.unauthorized))
  = Normal (Fulfilled
              (mkEnvelope false false
                 (VObj [("message", failureMessage (VError "Error" "redirect failed"));
                        ("errorDetails", VError "Error" "redirect failed")])
                 0)).
Proof.
  apply (callback_failure_is_caught
           (Example.sdk Example.throwing) Example.getById "users.getById"
           (VNum 2) VUndefined (Example.answering Example.unauthorized)
           Example.request_getById_2 Example.unauthorized
           (VError "Error" "redirect failed")).
  - vm_compute. left. reflexivity.
  - reflexivity.
  - reflexivity.
  - left. reflexivity.
Defined.

(** C2 as stated fails: when the promise the callback returned is
    rejected, the promise of the call is not rejected with that
    exception; it is fulfilled, with the envelope of a client-side
    failure. *)
Lemma rejected_callback_does_not_reject_the_call :
  cb_completion (Example.rejecting (envelopeOf Example.unauthorized))
  = Normal (RetPromise (Rejected (VError "Error" "refresh failed")))
  /\ outcome (_generateFetchFunction (Example.sdk Example.rejecting) Example.getById
                "users.getById" (VNum 2) VUndefined (Example.answering Example.unauthorized))
     = Normal (Fulfilled
                 (mkEnvelope false false
                    (VObj [("message", VStr "refresh failed");
                           ("errorDetails", VError "Error" "refresh failed")])
                    0))
  /\ outcome (_generateFetchFunction (Example.sdk Example.rejecting) Example.getById
                "users.getById" (VNum 2) VUndefined (Example.answering Example.unauthorized))
     <> Normal (Rejected (VError "Error" "refresh failed")).
Proof. repeat split; try (vm_compute; reflexivity). vm_compute. discriminate. Qed.

(** ** Files in the payload *)

(** C3, at [create({ avatar: { file: <File> } })].  The payload holds a
    File, one level below its values.  [hasFiles] looks at the values
    and at the arrays among them only, so the payload is sent as JSON
    text, in which the File has become an empty object, with
    [Content-Type: application/json]; the multipart encoder, which
    would have written it as [avatar[file]], is not reached. *)
Theorem nested_file_is_sent_as_json :
  containsFile Example.nested_file = true
  /\ hasFiles Example.nested_file = false
  /\ requests
       (trace (_generateFetchFunction (Example.sdk Example.quiet) Example.create
                 "users.create" Example.nested_file VUndefined
                 (Example.answering Example.no_content)))
     = [Example.request_create_json
          ("{" ++ json_quote "avatar" ++ ":{" ++ json_quote "file" ++ ":{}}}")]
  /\ _createFormDataFromObject Example.nested_file [] None
     = [("avatar[file]", FFile "me.png")].
Proof. repeat split; vm_compute; reflexivity. Qed.

(** ** A [null] in the endpoint tree *)

(** [sdk.fetch.users.getById] is the function generated for the leaf,
    with its debug path. *)
Lemma generated_function_is_found_by_name :
  lookup_call ["users"; "getById"] Example.client
  = Some (Example.getById, "users.getById")
  /\ lookup_call ["users"] Example.client = None
  /\ lookup_call ["users"; "remove"] Example.client = None.
Proof. repeat split; reflexivity. Qed.

(** C4, at [endpoints = { legacy: null, users: { getById: ... } }].
    The walker reads [path] of the [null] before it tests for an object:
    the constructor throws a TypeError, with no warning and no client.
    Without the [null] the same tree is mirrored. *)
Theorem null_node_aborts_construction :
  constructor (mkConfig "http://h/api" Example.tree_with_null None None None)
  = mkEff [] (Throw (TypeError "Cannot read properties of null (reading 'path')"))
  /\ valid_tree Example.tree = true
  /\ trace (constructor (mkConfig "http://h/api" Example.tree None None None)) = []
  /\ option_map fetch
       match outcome (constructor (mkConfig "http://h/api" Example.tree None None None)) with
       | Normal this => Some this
       | Throw _ => None
       end
     = Some Example.client.
Proof. repeat split; vm_compute; reflexivity. Qed.

(** ** Timeouts and network failures *)

(** The theorem of C5 on [getById(2)] refused by the timeout. *)
Lemma rejected_fetch_resolves_with_status_zero_witness :
  outcome (_generateFetchFunction (Example.sdk Example.quiet) Example.getById
             "users.getById" (VNum 2) VUndefined (Example.refusing Example.timeoutError))
  = Normal (Fulfilled
              (mkEnvelope false false
                 (VObj [("message", VStr "Request timed out");
                        ("errorDetails", Example.timeoutError)])
                 0)).
Proof.
  apply (rejected_fetch_resolves_with_status_zero
           (Example.sdk Example.quiet) Example.getById "users.getById"
           (VNum 2) VUndefined (Example.refusing Example.timeoutError)
           Example.request_getById_2 Example.timeoutError).
  - vm_compute. left. reflexivity.
  - reflexivity.
  - reflexivity.
Defined.

(** C5 as stated fails twice.  When the delay runs out while the body
    of a 200 is read, the rejection of the read is replaced by [null]
    like any other: the call resolves with status 200 and no message.
    And a failure of [fetch] whose exception has an empty message does
    not carry that message but the default text. *)
Lemma timeout_while_reading_is_not_reported :
  resp_json Example.slow_body = Rejected (VError "TimeoutError" "The operation timed out.")
  /\ outcome (_generateFetchFunction (Example.sdk Example.quiet) Example.getById
                "users.getById" (VNum 2) VUndefined (Example.answering Example.slow_body))
     = Normal (Fulfilled (mkEnvelope true true VNull 200))
  /\ outcome (_generateFetchFunction (Example.sdk Example.quiet) Example.getById
                "users.getById" (VNum 2) VUndefined
                (Example.refusing (VError "TypeError" "")))
     = Normal (Fulfilled
                 (mkEnvelope false false
                    (VObj [("message", VStr "A client-side error occurred.");
                           ("errorDetails", VError "TypeError" "")])
                    0)).
Proof. repeat split; vm_compute; reflexivity. Qed.

(** ** URLs *)



(** The setter of [pathname] at work on what [_buildUrl] assigns: a
    backslash at the start of the template becomes a second slash, and
    a template that starts with [/../] leaves the base path. *)
Lemma setter_normalizes_the_joined_path :
  requests
    (trace (_generateFetchFunction (Example.sdk Example.quiet) Sample.backslashed
              "users.getById" (VNum 2) VUndefined
              (Example.answering Example.no_content)))
  = [mkRequest "http://h/api//users/2" "GET" [("accept", "application/json")]
               BodyNone 30000 "include"]
  /\ requests
       (trace (_generateFetchFunction (Example.sdk Example.quiet) Sample.climbing
                 "users.getById" (VNum 2) VUndefined
                 (Example.answering Example.no_content)))
     = [mkRequest "http://h/users/2" "GET" [("accept", "application/json")]
                  BodyNone 30000 "include"].
Proof. split; vm_compute; reflexivity. Qed.

(** ** Arguments *)

(** The theorem of C7 on [update({ $params: { id: {} } })]: a rejected
    promise and an empty trace. *)
Lemma params_validated_before_any_activity_witness :
  _generateFetchFunction (Example.sdk Example.quiet) Example.update "users.update"
    Example.bad_params VUndefined (Example.answering Example.no_content)
  = mkEff []
      (Normal (Rejected
         (VError "Error"
            "Path parameter 'id' in $params cannot be an object. Received: {}"))).
Proof.
  exact (params_validated_before_any_activity
           (Example.sdk Example.quiet) Example.update "users.update"
           Example.bad_params (VObj [("id", VObj [])])
           (Example.answering Example.no_content) eq_refl eq_refl eq_refl).
Defined.

(** And on [update({ $params: { id: 2 }, name: 'x' })]: the parameters
    and the rest of the bag. *)
Lemma scalar_params_are_extracted :
  resolveArguments Example.bag VUndefined
  = mret (VObj [("id", VNum 2)], VObj [("name", VStr "x")])
  /\ requests
       (trace (_generateFetchFunction (Example.sdk Example.quiet) Example.update
                 "users.update" Example.bag VUndefined
                 (Example.answering Example.no_content)))
     = [mkRequest "http://h/api/users/2" "POST"
          [("accept", "application/json"); ("content-type", "application/json")]
          (BodyText ("{" ++ json_quote "name" ++ ":" ++ json_quote "x" ++ "}"))
          30000 "include"].
Proof. split; vm_compute; reflexivity. Qed.

(** C7 as stated fails on one point: the validation error is not
    thrown by the call.  The call completes normally, returning a
    promise, and it is the promise that is rejected. *)
Lemma validation_error_is_a_rejected_promise :
  outcome (_generateFetchFunction (Example.sdk Example.quiet) Example.update
             "users.update" Example.bad_params VUndefined
             (Example.answering Example.no_content))
  = Normal (Rejected
              (VError "Error"
                 "Path parameter 'id' in $params cannot be an object. Received: {}"))
  /\ forall e,
       outcome (_generateFetchFunction (Example.sdk Example.quiet) Example.update
                  "users.update" Example.bad_params VUndefined
                  (Example.answering Example.no_content))
       <> Throw e.
Proof. split; [vm_compute; reflexivity|]. intros e. vm_compute. discriminate. Qed.

(** ** Bodies and query parameters *)

(** The theorem of C8 on [getById({ tags: ['a', 'b'], q: 'hi' })]: no
    body, and the query parameters in order. *)
Lemma body_of_absent_or_query_payload_witness :
  exists request,
    requests
      (trace (_generateFetchFunction (Example.sdk Example.quiet) Example.getById
                "users.getById" Example.search VUndefined
                (Example.answering Example.no_content)))
    = [request]
    /\ req_body request = BodyNone
    /\ req_url request = "http://h/api/users/:id?tags=a&tags=b&q=hi".
Proof.
  eexists. split; [vm_compute; reflexivity|].
  destruct (body_of_absent_or_query_payload
              (Example.sdk Example.quiet) Example.getById "users.getById"
              Example.search VUndefined (Example.answering Example.no_content)
              (mkRequest "http://h/api/users/:id?tags=a&tags=b&q=hi" "GET"
                         [("accept", "application/json")] BodyNone 30000 "include"))
    as (p & q & url & _ & _ & _ & Hquery & _).
  - vm_compute. left. reflexivity.
  - destruct (Hquery eq_refl) as [Hbody _]. split; [exact Hbody|reflexivity].
Defined.

(** C8 as stated fails for an empty object: [create({})] sends the
    body [{}]. *)
Lemma empty_object_is_sent :
  resolveArguments (VObj []) VUndefined = mret (VUndefined, VObj [])
  /\ requests
       (trace (_generateFetchFunction (Example.sdk Example.quiet) Example.create
                 "users.create" (VObj []) VUndefined
                 (Example.answering Example.no_content)))
     = [Example.request_create_json "{}"].
Proof. split; vm_compute; reflexivity. Qed.

(** ** The bearer token *)

(** The theorem of C9 with [token = abc] in the storage. *)
Lemma bearer_token_from_session_witness :
  exists request,
    requests
      (trace (_generateFetchFunction (Example.sdk Example.quiet) Example.getById
                "users.getById" (VNum 2) VUndefined
                (Example.stored [("token", "abc")] Example.no_content)))
    = [request]
    /\ WebHeaders.get "Authorization" (req_headers request) = Some "Bearer abc".
Proof.
  eexists. split; [vm_compute; reflexivity|].
  destruct (bearer_token_from_session
              (Example.sdk Example.quiet) Example.getById "users.getById"
              (VNum 2) VUndefined (Example.stored [("token", "abc")] Example.no_content)
              (mkRequest "http://h/api/users/2" "GET"
                         [("accept", "application/json"); ("authorization", "Bearer abc")]
                         BodyNone 30000 "include"))
    as (encoderHeaders & rest & _ & _ & Htoken & _).
  - vm_compute. left. reflexivity.
  - reflexivity.
  - destruct (Htoken "abc" eq_refl ltac:(discriminate)) as (_ & _ & _ & Hget).
    exact (Hget eq_refl).
Defined.

(** The platform at work on the value it is given: a token stored with
    a space at its end is sent without it. *)
Lemma token_is_sent_without_its_last_space :
  requests
    (trace (_generateFetchFunction (Example.sdk Example.quiet) Example.getById
              "users.getById" (VNum 2) VUndefined
              (Example.stored [("token", "abc ")] Example.no_content)))
  = [Sample.request_with_token].
Proof. vm_compute. reflexivity. Qed.

(** C9 as stated fails when [token] is stored as something that is not
    a string: with [token = 5] and [access_token = abc] in the storage,
    the snapshot has a string [access_token], and the request carries
    no [Authorization] header. *)
Lemma number_token_hides_access_token :
  snapshot (Example.stored [("token", "5"); ("access_token", "abc")] Example.no_content)
  = VObj [("token", VNum 5); ("access_token", VStr "abc")]
  /\ requests
       (trace (_generateFetchFunction (Example.sdk Example.quiet) Example.getById
                 "users.getById" (VNum 2) VUndefined
                 (Example.stored [("token", "5"); ("access_token", "abc")]
                                 Example.no_content)))
     = [Example.request_getById_2]
  /\ WebHeaders.get "Authorization" (req_headers Example.request_getById_2) = None.
Proof. repeat split; vm_compute; reflexivity. Qed.

(** ** The object of the caller *)

(** The theorem of C10 on the bag [{ $params: { id: 2 }, name: 'x' }]
    stored at location 1: after the block the bag still has [$params]
    and [name]; the payload is a new object that holds [name] only. *)
Lemma argument_object_is_not_mutated_witness :
  Shared.entries_at
    (Shared.resolveArguments Example.store (Shared.HRef 1%positive) Shared.HUndefined).1
    1%positive
  = [("$params", Shared.HRef 2%positive); ("name", Shared.HStr "x")]
  /\ (Shared.resolveArguments Example.store (Shared.HRef 1%positive) Shared.HUndefined).2
     = Shared.Resolved (Shared.HRef 2%positive) (Shared.HRef 3%positive)
  /\ Shared.entries_at
       (Shared.resolveArguments Example.store (Shared.HRef 1%positive) Shared.HUndefined).1
       3%positive
     = [("name", Shared.HStr "x")].
Proof.
  destruct (argument_object_is_not_mutated Example.store 1%positive
              (Shared.OPlain [("$params", Shared.HRef 2%positive);
                              ("name", Shared.HStr "x")]) eq_refl)
    as (_ & Hentries & _).
  split; [rewrite Hentries; reflexivity|].
  split; vm_compute; reflexivity.
Defined.

(** ** More of the class, at work *)




(** X7 on [store({ token: 'abc', user: { id: 7 }, old: null })] over a
    storage that has [old]. *)
Lemma stored_value_is_read_back_witness :
  exists items',
    store (VObj Sample.session_data) (Some [("old", "1")]) = Normal (Some items')
    /\ get_prop_opt
         (snapshot (with_storage (Some items') (Example.answering Example.no_content)))
         "token"
       = VStr "abc"
    /\ get_prop_opt
         (snapshot (with_storage (Some items') (Example.answering Example.no_content)))
         "old"
       = VUndefined.
Proof.
  destruct (stored_value_is_read_back Sample.session_data [("old", "1")]
              (Example.answering Example.no_content) eq_refl eq_refl eq_refl)
    as (items' & Hstore & Hread).
  exists items'. split; [exact Hstore|].
  split; [rewrite (Hread "token" eq_refl)|rewrite (Hread "old" eq_refl)]; reflexivity.
Defined.

(** X9 on [store({ token: 'abc' })] followed by [getById(2)]. *)
Lemma stored_token_is_sent_witness :
  WebHeaders.get "Authorization" (req_headers Sample.request_with_token)
  = Some "Bearer abc".
Proof.
  destruct (stored_token_is_sent
              (Example.sdk Example.quiet) Example.getById "users.getById"
              (VNum 2) VUndefined (Example.answering Example.no_content)
              [] [("token", "abc")] "abc" Sample.request_with_token)
    as (_ & _ & Hget).
  - discriminate.
  - reflexivity.
  - reflexivity.
  - vm_compute. left. reflexivity.
  - exact (Hget eq_refl).
Defined.

(** X6 on a storage with [token = abc] and [n = 5]. *)
Lemma session_reads_every_item_witness :
  exists sessionData,
    session (Example.stored [("token", "abc"); ("n", "5")] Example.no_content)
    = mret sessionData
    /\ get_prop_opt sessionData "token" = VStr "abc"
    /\ get_prop_opt sessionData "n" = VNum 5
    /\ get_prop_opt sessionData "other" = VUndefined.
Proof.
  destruct (session_reads_every_item
              (Example.stored [("token", "abc"); ("n", "5")] Example.no_content) eq_refl)
    as (sessionData & Hsession & Hread).
  exists sessionData. split; [exact Hsession|].
  split; [|split];
    [rewrite (Hread "token" eq_refl)|rewrite (Hread "n" eq_refl)
     |rewrite (Hread "other" eq_refl)]; reflexivity.
Defined.

(** X8 on [dispose(['token'])] over the same storage. *)
Lemma dispose_removes_only_the_keys_witness :
  get_prop_opt
    (snapshot
       (with_storage
          (dispose ["token"] (Some [("token", "abc"); ("n", "5")]))
          (Example.stored [("token", "abc"); ("n", "5")] Example.no_content)))
    "token"
  = VUndefined.
Proof.
  exact (dispose_removes_only_the_keys ["token"]
           (Example.stored [("token", "abc"); ("n", "5")] Example.no_content) "token"
           eq_refl eq_refl).
Defined.


(** X11 on the instance built from the example configuration. *)
Lemma every_request_carries_accept_witness :
  WebHeaders.get "Accept" (req_headers Example.request_getById_2)
  = Some "application/json".
Proof.
  refine (proj2 (every_request_carries_accept
                   Sample.config (Example.sdk Example.quiet) Example.getById
                   "users.getById" (VNum 2) VUndefined
                   (Example.answering Example.no_content) Example.request_getById_2 _ _)
                eq_refl).
  - vm_compute. reflexivity.
  - vm_compute. left. reflexivity.
Defined.

(** X12 on the example configuration. *)
Lemma constructor_builds_the_client_witness :
  exists this,
    constructor Sample.config = mkEff [] (Normal this)
    /\ fetch this = Example.client.
Proof.
  destruct (constructor_builds_the_client Sample.config Example.api)
    as (this & Hthis & _ & Hfetch & _).
  - discriminate.
  - vm_compute. reflexivity.
  - reflexivity.
  - exists this. split; [exact Hthis|]. rewrite Hfetch. reflexivity.
Defined.

(** X13 on [getById(2)] answered with a 401. *)
Lemma default_callback_keeps_the_401_witness :
  outcome (_generateFetchFunction (Example.sdk Example.quiet) Example.getById
             "users.getById" (VNum 2) VUndefined (Example.answering Example.unauthorized))
  = Normal (Fulfilled
      (mkEnvelope false false
         (VObj [("error", VObj [("message", VStr "token expired")]);
                ("message", VStr "token expired")])
         401)).
Proof.
  apply (default_callback_keeps_the_401
           Sample.config (Example.sdk Example.quiet) Example.getById "users.getById"
           (VNum 2) VUndefined (Example.answering Example.unauthorized)
           Example.request_getById_2 Example.unauthorized).
  - reflexivity.
  - vm_compute. reflexivity.
  - vm_compute. left. reflexivity.
  - reflexivity.
  - reflexivity.
Defined.

(** X14 on the URL of [getById(2)]. *)
Lemma built_url_changes_the_path_only_witness :
  url_authority (mkURL "http://h" "/api/users/2" "" "") = "http://h"
  /\ Text.mem_char "?" "/api/users/2" = false.
Proof.
  destruct (built_url_changes_the_path_only
              (Example.sdk Example.quiet) Example.getById (VNum 2)
              (mkURL "http://h" "/api/users/2" "" ""))
    as (Hauthority & _ & _ & _ & Hquery & _).
  - vm_compute. reflexivity.
  - split; [exact Hauthority|exact Hquery].
Defined.

(** X15 on the template [/api/users/:idx/posts/:id] with [{ id: 2 }]:
    both places are filled, the first at the head of [:idx]. *)
Lemma named_placeholder_is_replaced_everywhere_witness :
  substitutePath "/api/users/:idx/posts/:id" (VObj [("id", VNum 2)])
  = mret "/api/users/2x/posts/2".
Proof.
  exact (named_placeholder_is_replaced_everywhere "id" (VNum 2)
           ["/api/users/"; "x/posts/"; ""] eq_refl
           ltac:(repeat constructor)).
Defined.

(** X16 on [{ tags: ['a', 'b'], q: 'hi' }] sent to a GET endpoint. *)
Lemma query_carries_the_payload_witness :
  WebURL.searchParams
    (prep_url (_prepareRequestBodyAndHeaders "GET" Example.api Example.search))
  = [("tags", "a"); ("tags", "b"); ("q", "hi")].
Proof.
  exact (proj1 (query_carries_the_payload "GET" Example.api Example.search
                  eq_refl eq_refl)).
Defined.

(** X17 on [{ avatar: { file: <File> } }]: the encoder itself keeps the
    file. *)
Lemma multipart_encoder_keeps_every_file_witness :
  form_files (_createFormDataFromObject Example.nested_file [] None) = ["me.png"].
Proof.
  exact (multipart_encoder_keeps_every_file Example.nested_file None eq_refl).
Defined.

(** X18 on [{ title: 'hi', n: 3, gone: null, doc: <File> }]. *)
Lemma flat_payload_becomes_one_part_per_field_witness :
  _prepareRequestBodyAndHeaders "POST" Example.api (VObj Sample.upload)
  = mkPrepared Example.api
      (BodyForm [("title", FText "hi"); ("n", FText "3"); ("doc", FFile "a.pdf")])
      [].
Proof.
  exact (flat_payload_becomes_one_part_per_field "POST" Example.api Sample.upload
           eq_refl eq_refl eq_refl).
Defined.

(** X19 on [create({})]. *)
Lemma body_of_an_object_payload_witness :
  exists pathParamsSource payloadSource,
    outcome (resolveArguments (VObj []) VUndefined)
    = Normal (pathParamsSource, payloadSource)
    /\ (is_object payloadSource = true ->
        if hasFiles payloadSource
        then req_body (Example.request_create_json "{}")
             = BodyForm (_createFormDataFromObject payloadSource [] None)
             /\ WebHeaders.get "Content-Type"
                  (req_headers (Example.request_create_json "{}"))
                = WebHeaders.get "Content-Type"
                    (WebHeaders.of_record (defaultHeaders (Example.sdk Example.quiet)))
        else exists text,
               JSON_stringify payloadSource = Some text
               /\ req_body (Example.request_create_json "{}") = BodyText text
               /\ WebHeaders.get "Content-Type"
                    (req_headers (Example.request_create_json "{}"))
                  = Some "application/json").
Proof.
  apply (body_of_an_object_payload
           (Example.sdk Example.quiet) Example.create "users.create"
           (VObj []) VUndefined (Example.answering Example.no_content)
           (Example.request_create_json "{}")).
  - vm_compute. left. reflexivity.
  - reflexivity.
Defined.

(** X20 on [update(2, 'hello')]. *)
Lemma string_payload_is_sent_as_it_is_witness :
  req_body Sample.request_raw = BodyText "hello"
  /\ WebHeaders.get "Content-Type" (req_headers Sample.request_raw) = None.
Proof.
  destruct (string_payload_is_sent_as_it_is
              (Example.sdk Example.quiet) Example.update "users.update"
              (VNum 2) "hello" (Example.answering Example.no_content) Sample.request_raw)
    as [Hbody Htype].
  - vm_compute. left. reflexivity.
  - reflexivity.
  - discriminate.
  - split; [exact Hbody|exact Htype].
Defined.


(** X22 on the example configuration. *)
Lemma valid_tree_gives_its_shape_to_the_client_witness :
  exists this members,
    constructor Sample.config = mret this
    /\ fetch this = Node None members
    /\ Forall2 (fun kv km => fst kv = fst km /\ same_shape (snd kv) (snd km))
               (own_entries Example.tree) members.
Proof.
  apply (valid_tree_gives_its_shape_to_the_client Sample.config Example.api).
  - discriminate.
  - vm_compute. reflexivity.
  - reflexivity.
Defined.

